(** * Analysis-and-recommendation pipeline of kache-affiliate

    A shallow embedding of the Trend Analysis Service, the Competitor
    Analysis Service and the budget facet of the Marketing Strategy
    Service, with the properties of the specification proved (or refuted)
    over it.

    Modelling conventions.
    - JavaScript values that reach the engines from the record store are
      JSON documents ([json]); [undefined] is [None] of [option json].
      Numbers inside payloads are integers ([Z]), printed in decimal.
    - Strings are sequences of 8-bit characters; case mapping and the
      classes [\w] and [\s] are the ASCII ones.
    - IEEE doubles computed by the engines (sentiment, growth, budget
      shares) are exact rationals ([Q]).
    - [Date] and [Math.random] are read from an oracle indexed by a counter
      kept in the state.
    - Plain objects used as dictionaries are finite maps when only lookup
      and store are used, and association lists in insertion order when the
      code enumerates them.  A dictionary keyed by free text (the query of
      a record, the id of a scraped product) finds the members of
      [Object.prototype] under their names ([JS.inherited]) when it has no
      entry of its own there, as the language does; what the code then
      writes on such a member is written outside the state of the service.
      The dictionaries keyed by names the services make up themselves
      (record and competitor ids, categories, sources, dates, niches) are
      read as own-property lookups.
    - The numbers of a payload are printed in full; the language does so
      for the safe integers (up to [2^53 - 1] in absolute value). *)

From Stdlib Require Import ZArith QArith Qround Qabs Lqa String Ascii List Lia Bool DecimalString.
From stdpp Require Import base option list strings gmap fin_maps.
Import ListNotations.

Local Open Scope Z_scope.
Local Open Scope list_scope.
Set Warnings "-register-all".

(** ** The JavaScript run time the services rely on *)

Module JS.

(** JSON documents, as produced by [JSON.parse] and held by the record store. *)
Inductive json : Type :=
| JNull
| JBool (b : bool)
| JNum (n : Z)
| JStr (s : string)
| JArr (items : list json)
| JObj (fields : list (string * json)).

(** A JavaScript value: [None] is [undefined]. *)
Definition value : Type := option json.

Definition text : Type := list ascii.

Definition chars (s : string) : text := list_ascii_of_string s.
Definition str (t : text) : string := string_of_list_ascii t.

Definition code (c : ascii) : nat := nat_of_ascii c.

Definition isUpper (c : ascii) : bool := (65 <=? code c)%nat && (code c <=? 90)%nat.
Definition isLower (c : ascii) : bool := (97 <=? code c)%nat && (code c <=? 122)%nat.
Definition isDigit (c : ascii) : bool := (48 <=? code c)%nat && (code c <=? 57)%nat.

Definition isLetter (c : ascii) : bool := isUpper c || isLower c.

(** [\w] of a regular expression without the unicode flag. *)
Definition isWordChar (c : ascii) : bool :=
  isUpper c || isLower c || isDigit c || (code c =? 95)%nat.

(** [\s]: tab, line feed, vertical tab, form feed, carriage return, space. *)
Definition isSpace (c : ascii) : bool :=
  ((9 <=? code c)%nat && (code c <=? 13)%nat) || (code c =? 32)%nat.

Definition lowerChar (c : ascii) : ascii :=
  if isUpper c then ascii_of_nat (code c + 32) else c.

(** [String.prototype.toLowerCase]. *)
Definition toLowerCase (t : text) : text := map lowerChar t.

Fixpoint startsWith (p t : text) : bool :=
  match p, t with
  | [], _ => true
  | _ :: _, [] => false
  | a :: p', b :: t' => if Ascii.eqb a b then startsWith p' t' else false
  end.

(** [String.prototype.includes]. *)
Fixpoint includes (t p : text) : bool :=
  startsWith p t ||
  match t with
  | [] => false
  | _ :: t' => includes t' p
  end.

(** *** [JSON.stringify] *)

Definition hexDigit (n : nat) : ascii :=
  if (n <? 10)%nat then ascii_of_nat (48 + n) else ascii_of_nat (87 + n).

Definition dquote : ascii := ascii_of_nat 34.
Definition backslash : ascii := ascii_of_nat 92.

(** [QuoteJSONString] on one character. *)
Definition escapeChar (c : ascii) : text :=
  let n := code c in
  if (n =? 34)%nat then [backslash; dquote]
  else if (n =? 92)%nat then [backslash; backslash]
  else if (n =? 8)%nat then backslash :: chars "b"
  else if (n =? 9)%nat then backslash :: chars "t"
  else if (n =? 10)%nat then backslash :: chars "n"
  else if (n =? 12)%nat then backslash :: chars "f"
  else if (n =? 13)%nat then backslash :: chars "r"
  else if (n <? 32)%nat then
    backslash :: chars "u00" ++ [hexDigit (n / 16); hexDigit (n mod 16)]
  else [c].

Definition quote (s : string) : text :=
  dquote :: flat_map escapeChar (chars s) ++ [dquote].

Fixpoint join (sep : text) (parts : list text) : text :=
  match parts with
  | [] => []
  | [p] => p
  | p :: rest => p ++ sep ++ join sep rest
  end.

(** [Number.prototype.toString] on an integer. *)
Definition numberToString (n : Z) : text :=
  chars (NilZero.string_of_int (Z.to_int n)).

Fixpoint stringify (v : json) : text :=
  match v with
  | JNull => chars "null"
  | JBool true => chars "true"
  | JBool false => chars "false"
  | JNum n => numberToString n
  | JStr s => quote s
  | JArr items => chars "[" ++ join (chars ",") (map stringify items) ++ chars "]"
  | JObj fields =>
      chars "{" ++
      join (chars ",") (map (fun kv => quote (fst kv) ++ chars ":" ++ stringify (snd kv)) fields) ++
      chars "}"
  end.

(** *** Property access and coercions *)

Fixpoint lookupField (k : string) (fields : list (string * json)) : value :=
  match fields with
  | [] => None
  | (k', v) :: rest => if String.eqb k k' then Some v else lookupField k rest
  end.

(** [v.k] for a value that is not [null] or [undefined]; primitives and
    arrays have none of the properties the services read. *)
Definition prop (v : json) (k : string) : value :=
  match v with
  | JObj fields => lookupField k fields
  | _ => None
  end.

(** [ToBoolean]. *)
Definition truthy (v : value) : bool :=
  match v with
  | None | Some JNull | Some (JBool false) => false
  | Some (JNum n) => negb (n =? 0)
  | Some (JStr s) => negb (String.eqb s EmptyString)
  | _ => true
  end.

(** [a || b]. *)
Definition orElse (a b : value) : value := if truthy a then a else b.

Definition isArray (v : json) : bool :=
  match v with JArr _ => true | _ => false end.

(** [ToString]; an array prints its elements separated by commas, with
    [null] printed as the empty string. *)
Fixpoint toStringJ (v : json) : text :=
  match v with
  | JNull => chars "null"
  | JBool true => chars "true"
  | JBool false => chars "false"
  | JNum n => numberToString n
  | JStr s => chars s
  | JArr items =>
      join (chars ",")
        (map (fun x => match x with JNull => [] | _ => toStringJ x end) items)
  | JObj _ => chars "[object Object]"
  end.

Definition toString (v : value) : text :=
  match v with
  | None => chars "undefined"
  | Some j => toStringJ j
  end.

(** Strict equality [===].  Object identity is not part of the model:
    two arrays or two objects are never identical. *)
Definition strictEq (a b : value) : bool :=
  match a, b with
  | None, None => true
  | Some JNull, Some JNull => true
  | Some (JBool x), Some (JBool y) => Bool.eqb x y
  | Some (JNum x), Some (JNum y) => (x =? y)
  | Some (JStr x), Some (JStr y) => String.eqb x y
  | _, _ => false
  end.

(** The names of the members of [Object.prototype]: what [o[k]] finds for
    a plain object [o] that has no property [k] of its own.  Every one of
    them is a function or an object, hence truthy, and none is an array or
    has the properties the services give their entries. *)
Definition inherited (k : string) : bool :=
  existsb (String.eqb k)
    ["constructor"; "hasOwnProperty"; "isPrototypeOf"; "propertyIsEnumerable";
     "toLocaleString"; "toString"; "valueOf"; "__proto__";
     "__defineGetter__"; "__defineSetter__"; "__lookupGetter__"; "__lookupSetter__"]%string.

End JS.

(** ** Effects: mutable state that survives a thrown exception *)

Module Eff.

Inductive outcome (A : Type) : Type :=
| Ret (a : A)
| Throw (message : string).
Arguments Ret {A} a.
Arguments Throw {A} message.

(** A computation over a mutable store [S]: what was written before a
    [throw] stays written. *)
Definition M (S A : Type) : Type := S -> outcome A * S.

Definition ret {S A} (a : A) : M S A := fun s => (Ret a, s).

Definition bind {S A B} (c : M S A) (k : A -> M S B) : M S B :=
  fun s =>
    match c s with
    | (Ret a, s') => k a s'
    | (Throw e, s') => (Throw e, s')
    end.

Definition throw {S A} (e : string) : M S A := fun s => (Throw e, s).

Definition get {S} : M S S := fun s => (Ret s, s).
Definition put {S} (s : S) : M S unit := fun _ => (Ret tt, s).
Definition modify {S} (f : S -> S) : M S unit := fun s => (Ret tt, f s).

(** [try { c } catch (error) { h error.message }] *)
Definition tryCatch {S A} (c : M S A) (h : string -> M S A) : M S A :=
  fun s =>
    match c s with
    | (Ret a, s') => (Ret a, s')
    | (Throw e, s') => h e s'
    end.

(** [xs.forEach(f)]: a [return] in the callback ends that call only, an
    exception ends the loop. *)
Fixpoint forEach {S X} (f : X -> M S unit) (xs : list X) : M S unit :=
  match xs with
  | [] => ret tt
  | x :: rest => bind (f x) (fun _ => forEach f rest)
  end.

Definition when {S} (b : bool) (c : M S unit) : M S unit :=
  if b then c else ret tt.

End Eff.

Declare Scope eff_scope.
Delimit Scope eff_scope with eff.
Notation "'let*' x ':=' c 'in' k" := (Eff.bind c (fun x => k))
  (at level 10, x name, c at level 100, k at level 200) : eff_scope.
Notation "c ';;' k" := (Eff.bind c (fun _ => k))
  (at level 100, k at level 200, right associativity) : eff_scope.

(** ** Plain objects enumerated in insertion order *)

Module Obj.

Definition t (V : Type) : Type := list (string * V).

Fixpoint get {V} (o : t V) (k : string) : option V :=
  match o with
  | [] => None
  | (k', v) :: rest => if String.eqb k k' then Some v else get rest k
  end.

(** [o[k] = v]: an existing key keeps its place, a new one goes last. *)
Fixpoint set {V} (o : t V) (k : string) (v : V) : t V :=
  match o with
  | [] => [(k, v)]
  | (k', v') :: rest =>
      if String.eqb k k' then (k', v) :: rest else (k', v') :: set rest k v
  end.

(** [delete o[k]] *)
Fixpoint remove {V} (o : t V) (k : string) : t V :=
  match o with
  | [] => []
  | (k', v') :: rest =>
      if String.eqb k k' then rest else (k', v') :: remove rest k
  end.

Definition keys {V} (o : t V) : list string := map fst o.
Definition values {V} (o : t V) : list V := map snd o.

End Obj.

(** ** What the engines share *)

(** The clock and the random source, read by position. *)
Record Oracle : Type := {
  isoTime : nat -> string;  (* [new Date().toISOString()] *)
  nowMs : nat -> Z;         (* [Date.now()] *)
  random : nat -> Q;        (* [Math.random()], in [0, 1) *)
  base36 : Q -> string      (* [x.toString(36).substr(2, 9)] *)
}.

(** A record of the store: [{id, category, source, timestamp, data}]. *)
Record StoredRecord : Type := {
  r_id : string;
  r_category : string;
  r_source : string;
  r_timestamp : string;
  r_data : JS.value
}.

(** The browser's [localStorage] slot of one service. *)
Inductive Slot (Doc : Type) : Type :=
| NoItem
| Corrupt
| Saved (doc : Doc).
Arguments NoItem {Doc}.
Arguments Corrupt {Doc}.
Arguments Saved {Doc} doc.

Record Storage (Doc : Type) : Type := {
  available : bool;  (* [typeof window !== 'undefined' && window.localStorage] *)
  slot : Slot Doc
}.
Arguments available {Doc} _.
Arguments slot {Doc} _.

(** What a pass or a top-level call reports. *)
Record Report : Type := {
  success : bool;
  message : string
}.

Definition preferredNiches : list string := [
  "Survival & Emergency Preparedness";
  "DIY & Home Improvement";
  "Personal Finance & Making Money Online";
  "E-Learning & Skill-Building";
  "AI & Automation Tools"
]%string.

Definition getNicheKeywords (niche : string) : list string :=
  if String.eqb niche "Survival & Emergency Preparedness" then
    ["survival"; "emergency"; "preparedness"; "prepping"; "disaster";
     "food storage"; "water filtration"; "solar generator"; "first aid";
     "emergency kit"; "bug out bag"; "survival gear"]%string
  else if String.eqb niche "DIY & Home Improvement" then
    ["diy"; "home improvement"; "tools"; "homesteading"; "woodworking";
     "gardening"; "home repair"; "power tools"; "hand tools"; "renovation";
     "home projects"; "building"]%string
  else if String.eqb niche "Personal Finance & Making Money Online" then
    ["personal finance"; "money"; "investing"; "budget"; "passive income";
     "side hustle"; "make money online"; "financial freedom"; "debt free";
     "retirement"; "stocks"; "real estate"; "cryptocurrency"]%string
  else if String.eqb niche "E-Learning & Skill-Building" then
    ["e-learning"; "online course"; "skill building"; "education"; "training";
     "coding"; "programming"; "bootcamp"; "certification"; "tutorial";
     "learn online"; "skills development"]%string
  else if String.eqb niche "AI & Automation Tools" then
    ["ai"; "artificial intelligence"; "automation"; "machine learning";
     "chatbot"; "ai writing"; "ai tools"; "automation software"; "workflow";
     "productivity tools"; "ai assistant"; "data analysis"]%string
  else [].

(** [x.toFixed(2)] read back by [parseFloat]: the nearest hundredth.  A
    number half way between two hundredths goes away from zero here; the
    language decides such a tie on the binary value of the number, which
    is not modelled, so that only what holds of either hundredth is
    proved of the result. *)
Definition toFixed2 (x : Q) : Q :=
  if Qle_bool 0 x then Qmake (Qfloor (x * 100 + (1 # 2))%Q) 100
  else Qopp (Qmake (Qfloor ((- x) * 100 + (1 # 2))%Q) 100).

(** ** Trend Analysis Service *)

Module Trend.
Import JS Eff.

(** *** Keyword extraction *)

(** [.replace(/[^\w\s]/g, ' ')] *)
Definition stripPunctuation (t : text) : text :=
  map (fun c => if isWordChar c || isSpace c then c else " "%char) t.

(** [.split(/\s+/)], without the empty strings a leading or trailing run of
    white space produces (the length filter drops them anyway). *)
Fixpoint splitWords (t : text) (current : text) : list text :=
  match t with
  | [] => match current with [] => [] | _ => [rev current] end
  | c :: rest =>
      if isSpace c then
        match current with
        | [] => splitWords rest []
        | _ => rev current :: splitWords rest []
        end
      else splitWords rest (c :: current)
  end.

(** [wordCounts[word] = (wordCounts[word] || 0) + 1], for the words that
    do not name a member of [Object.prototype]: [wordCounts] is a plain
    object, and the count of such a word ("constructor", "__proto__") is
    not a number in the code. *)
Definition countWord (counts : Obj.t Z) (word : string) : Obj.t Z :=
  Obj.set counts word (default 0 (Obj.get counts word) + 1).

Definition digitsValue (t : text) : Z :=
  fold_left (fun acc c => 10 * acc + (Z.of_nat (code c) - 48)) t 0.

(** A property key that is an array index: enumerated before the others,
    in ascending numeric order. *)
Definition isArrayIndex (k : string) : bool :=
  let t := chars k in
  match t with
  | [] => false
  | c :: rest =>
      forallb isDigit t &&
      (negb (Ascii.eqb c "0"%char) || match rest with [] => true | _ => false end) &&
      (length t <=? 10)%nat && (digitsValue t <=? 4294967294)
  end.

Section Sorting.
Context {A : Type} (before : A -> A -> bool).

(** A stable sort: [before x y] says the comparator does not put [y]
    ahead of [x]. *)
Fixpoint insertSorted (x : A) (l : list A) : list A :=
  match l with
  | [] => [x]
  | y :: rest => if before x y then x :: y :: rest else y :: insertSorted x rest
  end.

Definition stableSort (l : list A) : list A := foldr insertSorted [] l.
End Sorting.

(** [Object.entries(o)] *)
Definition entries (o : Obj.t Z) : list (string * Z) :=
  stableSort (fun a b => digitsValue (chars (fst a)) <=? digitsValue (chars (fst b)))
    (List.filter (fun kv => isArrayIndex (fst kv)) o)
  ++ List.filter (fun kv => negb (isArrayIndex (fst kv))) o.

Definition extractKeywords (results : json) : list string :=
  let words :=
    List.filter (fun w => (3 <? length w)%nat)
      (splitWords (stripPunctuation (toLowerCase (stringify results))) []) in
  let wordCounts := fold_left countWord (map str words) [] in
  map fst (take 10 (stableSort (fun a b => snd b <=? snd a) (entries wordCounts))).

(** *** Sentiment *)

Definition positiveWords : list string := [
  "good"; "great"; "excellent"; "amazing"; "awesome"; "fantastic";
  "wonderful"; "best"; "love"; "perfect"; "recommend"; "positive";
  "happy"; "satisfied"; "quality"; "easy"; "helpful"; "valuable"
]%string.

Definition negativeWords : list string := [
  "bad"; "poor"; "terrible"; "awful"; "horrible"; "worst";
  "hate"; "difficult"; "negative"; "problem"; "issue"; "disappointing";
  "waste"; "expensive"; "overpriced"; "avoid"; "broken"; "useless"
]%string.

Fixpoint startsWithIgnoreCase (p t : text) : bool :=
  match p, t with
  | [], _ => true
  | _ :: _, [] => false
  | a :: p', b :: t' =>
      if Ascii.eqb (lowerChar a) (lowerChar b) then startsWithIgnoreCase p' t' else false
  end.

Definition headIsWord (t : text) : bool :=
  match t with
  | c :: _ => isWordChar c
  | [] => false
  end.

(** Does [/\bword\b/i] match at the head of [t]?  [prev] tells whether the
    character before [t] is a word character. *)
Definition matchesWordAt (word : text) (prev : bool) (t : text) : bool :=
  xorb prev (headIsWord t) &&
  startsWithIgnoreCase word t &&
  xorb (fold_left (fun _ c => isWordChar c) (take (length word) t) prev)
       (headIsWord (drop (length word) t)).

(** The number of matches [text.match(/\bword\b/gi)] returns: after a match
    the search resumes behind it. *)
Fixpoint countFrom (word : text) (prev : bool) (skip : nat) (t : text) : Z :=
  match t with
  | [] => 0
  | c :: rest =>
      match skip with
      | S k => countFrom word (isWordChar c) k rest
      | O =>
          if matchesWordAt word prev t
          then 1 + countFrom word (isWordChar c) (length word - 1) rest
          else countFrom word (isWordChar c) 0 rest
      end
  end.

Definition countMatches (word : string) (t : text) : Z :=
  countFrom (chars word) false 0 t.

Definition countAll (words : list string) (t : text) : Z :=
  fold_left (fun acc w => acc + countMatches w t) words 0.

Definition positiveCount (t : text) : Z := countAll positiveWords t.

Definition negativeCount (t : text) : Z := countAll negativeWords t.

(** The score computed from the two counts. *)
Definition sentimentScore (positiveCount negativeCount : Z) : Q :=
  let total := positiveCount + negativeCount in
  if total =? 0 then 0%Q
  else toFixed2 (inject_Z (positiveCount - negativeCount) / inject_Z total)%Q.

Definition calculateSentiment (results : json) : Q :=
  let text := toLowerCase (stringify results) in
  sentimentScore (positiveCount text) (negativeCount text).

(** *** Derived state *)

Record Product : Type := {
  p_id : value;
  p_title : value;
  p_description : value;
  p_price : value;
  p_url : value;
  p_image : value;
  p_source : value;
  p_timestamp : string
}.

Record NicheData : Type := {
  popularity : Z;
  growth : Q;
  n_keywords : list string;
  n_products : list Product;
  n_lastUpdated : string
}.

Record KeywordData : Type := {
  mentions : Z;
  sentiment : Q;
  relatedKeywords : list string;
  sources : list string;
  lastUpdated : string
}.

(** [{...product, mentions, sentiment, relatedKeywords, sources, lastUpdated}] *)
Record ProductData : Type := {
  pd_product : Product;
  pd_mentions : Z;
  pd_sentiment : Q;
  pd_relatedKeywords : list string;
  pd_sources : list string;
  pd_lastUpdated : string
}.

Section Service.
(** The sub-tree [timeframes] and the pass that fills it.

    Modelled from the spec: [analyzeByTimeframe] is called by
    [analyzeAllData] but its body is not part of the sources; the
    by-timeframe pass reads the same snapshot as the other three and
    maintains the [timeframes] sub-tree of the trend data.  It reports
    success or failure like its siblings. *)
Context {Timeframes : Type}.
Variable analyzeByTimeframeOn : list StoredRecord -> Timeframes -> Report * Timeframes.
Variable oracle : Oracle.

Record TrendData : Type := {
  niches : Obj.t NicheData;
  keywords : gmap string KeywordData;
  products : gmap string ProductData;
  timeframes : Timeframes
}.

Record State : Type := {
  trendData : TrendData;
  initialized : bool;
  tick : nat;
  localStorage : Storage TrendData
}.

Definition setTrendData (d : TrendData) (s : State) : State :=
  {| trendData := d; initialized := initialized s; tick := tick s;
     localStorage := localStorage s |}.

Definition setNiches (n : Obj.t NicheData) (s : State) : State :=
  setTrendData {| niches := n; keywords := keywords (trendData s);
                  products := products (trendData s);
                  timeframes := timeframes (trendData s) |} s.

Definition setKeywords (k : gmap string KeywordData) (s : State) : State :=
  setTrendData {| niches := niches (trendData s); keywords := k;
                  products := products (trendData s);
                  timeframes := timeframes (trendData s) |} s.

Definition setProducts (p : gmap string ProductData) (s : State) : State :=
  setTrendData {| niches := niches (trendData s); keywords := keywords (trendData s);
                  products := p;
                  timeframes := timeframes (trendData s) |} s.

Definition setTimeframes (t : Timeframes) (s : State) : State :=
  setTrendData {| niches := niches (trendData s); keywords := keywords (trendData s);
                  products := products (trendData s);
                  timeframes := t |} s.

Local Open Scope eff_scope.

(** One reading of the oracle. *)
Definition readOracle {A} (f : nat -> A) : M State A :=
  fun s => (Ret (f (tick s)),
            {| trendData := trendData s; initialized := initialized s;
               tick := S (tick s); localStorage := localStorage s |}).

Definition newDate : M State string := readOracle (isoTime oracle).

(** [initialize]: the saved document, when there is one that parses,
    replaces the trend data. *)
Definition initialize : M State bool :=
  fun s =>
    let st := localStorage s in
    match available st, slot st with
    | true, Corrupt => (Ret false, s)
    | true, Saved doc =>
        (Ret true, {| trendData := doc; initialized := true; tick := tick s;
                      localStorage := st |})
    | _, _ =>
        (Ret true, {| trendData := trendData s; initialized := true; tick := tick s;
                      localStorage := st |})
    end.

Definition saveToStorage : M State bool :=
  fun s =>
    let st := localStorage s in
    if available st then
      (Ret true, {| trendData := trendData s; initialized := initialized s;
                    tick := tick s;
                    localStorage := {| available := true; slot := Saved (trendData s) |} |})
    else (Ret true, s).

(** [result.k] inside [extractProducts]: reading a property of [null]
    throws. *)
Definition member (result : json) (k : string) : M State value :=
  match result with
  | JNull => throw ("Cannot read properties of null (reading '" ++ k ++ "')")%string
  | _ => ret (prop result k)
  end.

Definition productOf (result : json) : M State Product :=
  let* rid := member result "id" in
  let* id :=
    (if truthy rid then ret rid
     else
       let* ms := readOracle (nowMs oracle) in
       let* r := readOracle (random oracle) in
       ret (Some (JStr ("product_" ++ str (numberToString ms) ++ "_" ++ base36 oracle r)%string))) in
  let* title := member result "title" in
  let* name := member result "name" in
  let* description := member result "description" in
  let* price := member result "price" in
  let* url := member result "url" in
  let* link := member result "link" in
  let* image := member result "image" in
  let* source := member result "source" in
  let* now := newDate in
  ret {| p_id := id;
         p_title := orElse title (orElse name (Some (JStr "Unknown Product")));
         p_description := orElse description (Some (JStr ""));
         p_price := orElse price (Some (JNum 0));
         p_url := orElse url (orElse link (Some (JStr "")));
         p_image := orElse image (Some (JStr ""));
         p_source := orElse source (Some (JStr "unknown"));
         p_timestamp := now |}.

Fixpoint collectProducts (items : list json) (acc : list Product) : M State (list Product) :=
  match items with
  | [] => ret acc
  | result :: rest =>
      let* title := member result "title" in
      let* name := member result "name" in
      if truthy (orElse title name) then
        let* product := productOf result in
        collectProducts rest (acc ++ [product])
      else collectProducts rest acc
  end.

Definition extractProducts (results : json) : M State (list Product) :=
  tryCatch
    (match results with
     | JArr items => collectProducts items []
     | _ => ret []
     end)
    (fun _ => ret []).

(** *** The by-niche pass *)

Definition TypeError_toLowerCase : string := "query.toLowerCase is not a function".
Definition TypeError_undefined : string := "Cannot read properties of undefined".

Definition initNiche (niche : string) : M State unit :=
  let* s := get in
  match Obj.get (niches (trendData s)) niche with
  | Some _ => ret tt
  | None =>
      let* now := newDate in
      modify (fun s =>
        setNiches (Obj.set (niches (trendData s)) niche
                     {| popularity := 0; growth := 0; n_keywords := [];
                        n_products := []; n_lastUpdated := now |}) s)
  end.

(** [if (!list.includes(x)) list.push(x)] for every [x] *)
Definition pushNew (present : list string) (extracted : list string) : list string :=
  fold_left (fun acc k => if existsb (String.eqb k) acc then acc else acc ++ [k])
    extracted present.

Definition pushNewProducts (present extracted : list Product) : list Product :=
  fold_left (fun acc p =>
               if existsb (fun q => strictEq (p_id q) (p_id p)) acc then acc
               else acc ++ [p])
    extracted present.

(** [nicheKeywords.some(keyword => query.toLowerCase().includes(..) || ..)] *)
Definition matchesNiche (niche : string) (query : string) (results : json) : bool :=
  existsb (fun keyword =>
             includes (toLowerCase (chars query)) (toLowerCase (chars keyword)) ||
             includes (toLowerCase (stringify results)) (toLowerCase (chars keyword)))
    (getNicheKeywords niche).

Definition updateNiche (niche : string) (results : json) : M State unit :=
  let* s := get in
  match Obj.get (niches (trendData s)) niche with
  | None => throw TypeError_undefined
  | Some nicheData =>
      let* extractedProducts := extractProducts results in
      let* now := newDate in
      modify (fun s =>
        setNiches (Obj.set (niches (trendData s)) niche
                     {| popularity := popularity nicheData + 1;
                        growth := growth nicheData;
                        n_keywords := pushNew (n_keywords nicheData) (extractKeywords results);
                        n_products := pushNewProducts (n_products nicheData) extractedProducts;
                        n_lastUpdated := now |}) s)
  end.

Definition nicheItem (item : StoredRecord) : M State unit :=
  match r_data item with
  | Some d =>
      if negb (truthy (Some d)) then ret tt
      else
        match prop d "results" with
        | Some results =>
            if negb (truthy (Some results)) then ret tt
            else
              forEach (fun niche =>
                match orElse (prop d "query") (Some (JStr "")) with
                | Some (JStr query) =>
                    when (matchesNiche niche query results) (updateNiche niche results)
                | _ => throw TypeError_toLowerCase
                end) preferredNiches
        | None => ret tt
        end
  | None => ret tt
  end.

Definition growNiche (niche : string) : M State unit :=
  let* s := get in
  match Obj.get (niches (trendData s)) niche with
  | None => throw TypeError_undefined
  | Some nicheData =>
      let* r := readOracle (random oracle) in
      let randomFactor := (r * (2 # 10) + (9 # 10))%Q in
      let growth := (inject_Z (popularity nicheData) * randomFactor
                     - inject_Z (popularity nicheData))%Q in
      modify (fun s =>
        setNiches (Obj.set (niches (trendData s)) niche
                     {| popularity := popularity nicheData;
                        growth := toFixed2 growth;
                        n_keywords := n_keywords nicheData;
                        n_products := n_products nicheData;
                        n_lastUpdated := n_lastUpdated nicheData |}) s)
  end.

Definition calculateNicheGrowth : M State bool :=
  tryCatch
    (let* s := get in
     forEach growNiche (Obj.keys (niches (trendData s))) ;;
     ret true)
    (fun _ => ret false).

Definition analyzeByNiche (data : list StoredRecord) : M State Report :=
  tryCatch
    (forEach initNiche preferredNiches ;;
     forEach nicheItem data ;;
     calculateNicheGrowth ;;
     ret {| success := true; message := "Successfully analyzed data by niche" |})
    (fun e => ret {| success := false;
                     message := ("Failed to analyze data by niche: " ++ e)%string |}).

(** *** The by-keyword pass *)

Definition pushSource (present : list string) (source : string) : list string :=
  if existsb (String.eqb source) present then present else present ++ [source].

(** [if (keyword !== query && !list.includes(keyword)) list.push(keyword)] *)
Definition pushRelated (query : string) (present extracted : list string) : list string :=
  fold_left (fun acc k =>
               if negb (String.eqb k query) && negb (existsb (String.eqb k) acc)
               then acc ++ [k] else acc)
    extracted present.

(** The body of the loop once the query is known.  [keywords[query]] is
    the entry of the keyword when there is one; without one it is the
    member of [Object.prototype] of that name when [query] names one, and
    then no entry is made: [mentions] is written on that member, which has
    no [sources], and reading [sources.includes] throws. *)
Definition touchKeyword (query : string) (source : string) (results : json) : M State unit :=
  let* s0 := get in
  (match keywords (trendData s0) !! query with
   | Some _ => ret tt
   | None =>
       if inherited query then ret tt else
       let* now := newDate in
       modify (fun s =>
         setKeywords (<[query := {| mentions := 0; sentiment := 0; relatedKeywords := [];
                                    sources := []; lastUpdated := now |}]>
                        (keywords (trendData s))) s)
   end) ;;
  let* s := get in
  match keywords (trendData s) !! query with
  | None => throw TypeError_undefined
  | Some keywordData =>
      let* now := newDate in
      modify (fun s =>
        setKeywords (<[query := {| mentions := mentions keywordData + 1;
                                   sentiment := calculateSentiment results;
                                   relatedKeywords :=
                                     pushRelated query (relatedKeywords keywordData)
                                       (extractKeywords results);
                                   sources := pushSource (sources keywordData) source;
                                   lastUpdated := now |}]>
                       (keywords (trendData s))) s)
  end.

Definition keywordItem (item : StoredRecord) : M State unit :=
  match r_data item with
  | Some d =>
      if negb (truthy (Some d)) then ret tt
      else
        match prop d "results" with
        | Some results =>
            if negb (truthy (Some results)) || negb (truthy (prop d "query")) then ret tt
            else
              match prop d "query" with
              | Some (JStr q) =>
                  touchKeyword (str (toLowerCase (chars q))) (r_source item) results
              | _ => throw "item.data.query.toLowerCase is not a function"
              end
        | None => ret tt
        end
  | None => ret tt
  end.

Definition analyzeByKeyword (data : list StoredRecord) : M State Report :=
  tryCatch
    (forEach keywordItem data ;;
     ret {| success := true; message := "Successfully analyzed data by keyword" |})
    (fun e => ret {| success := false;
                     message := ("Failed to analyze data by keyword: " ++ e)%string |}).

(** *** The by-product pass *)

(** The property key a product id turns into. *)
Definition productKey (product : Product) : string := str (toString (p_id product)).

(** The body of the inner loop.  As in the by-keyword pass, a product id
    that names a member of [Object.prototype] finds that member when the
    products have no entry under it, and reading [sources.includes] of it
    throws. *)
Definition touchProduct (source : string) (results : json) (product : Product) : M State unit :=
  let productId := productKey product in
  let* s0 := get in
  (match products (trendData s0) !! productId with
   | Some _ => ret tt
   | None =>
       if inherited productId then ret tt else
       let* now := newDate in
       modify (fun s =>
         setProducts (<[productId := {| pd_product := product; pd_mentions := 0;
                                        pd_sentiment := 0; pd_relatedKeywords := [];
                                        pd_sources := []; pd_lastUpdated := now |}]>
                        (products (trendData s))) s)
   end) ;;
  let* s := get in
  match products (trendData s) !! productId with
  | None => throw TypeError_undefined
  | Some productData =>
      let* now := newDate in
      modify (fun s =>
        setProducts (<[productId := {| pd_product := pd_product productData;
                                       pd_mentions := pd_mentions productData + 1;
                                       pd_sentiment := calculateSentiment results;
                                       pd_relatedKeywords :=
                                         pushNew (pd_relatedKeywords productData)
                                           (extractKeywords results);
                                       pd_sources := pushSource (pd_sources productData) source;
                                       pd_lastUpdated := now |}]>
                       (products (trendData s))) s)
  end.

Definition productItem (item : StoredRecord) : M State unit :=
  match r_data item with
  | Some d =>
      if negb (truthy (Some d)) then ret tt
      else
        match prop d "results" with
        | Some results =>
            if negb (truthy (Some results)) then ret tt
            else
              let* extracted := extractProducts results in
              forEach (touchProduct (r_source item) results) extracted
        | None => ret tt
        end
  | None => ret tt
  end.

(** The handler of this pass is cut off in the sources; it is taken to
    report the failure the way its siblings do. *)
Definition analyzeByProduct (data : list StoredRecord) : M State Report :=
  tryCatch
    (forEach productItem data ;;
     ret {| success := true; message := "Successfully analyzed data by product" |})
    (fun e => ret {| success := false;
                     message := ("Failed to analyze data by product: " ++ e)%string |}).

Definition analyzeByTimeframe (data : list StoredRecord) : M State Report :=
  fun s =>
    let '(r, t) := analyzeByTimeframeOn data (timeframes (trendData s)) in
    (Ret r, setTimeframes t s).

(** *** The top-level call *)

Record Result : Type := {
  report : Report;
  trends : option TrendData
}.

(** [allData] is what [dataStorage.searchData()] returns. *)
Definition analyzeAllData (allData : list StoredRecord) : M State Result :=
  tryCatch
    (let* s := get in
     (if initialized s then ret true else initialize) ;;
     match allData with
     | [] => ret {| report := {| success := false;
                                 message := "No data available for analysis" |};
                    trends := None |}
     | _ :: _ =>
         analyzeByNiche allData ;;
         analyzeByKeyword allData ;;
         analyzeByProduct allData ;;
         analyzeByTimeframe allData ;;
         saveToStorage ;;
         let* s := get in
         ret {| report := {| success := true;
                             message := "Successfully analyzed all data for trends" |};
                trends := Some (trendData s) |}
     end)
    (fun e => ret {| report := {| success := false;
                                  message := ("Failed to analyze all data for trends: " ++ e)%string |};
                     trends := None |}).

(** The service as its constructor leaves it. *)
Definition fresh (t0 : Timeframes) (st : Storage TrendData) : State :=
  {| trendData := {| niches := []; keywords := ∅; products := ∅; timeframes := t0 |};
     initialized := false; tick := 0; localStorage := st |}.

End Service.

End Trend.

(** ** Competitor Analysis Service *)

Module Competitor.
Import JS Eff.

Section Service.
(** What [calculateEngagement] returns; the function is called by the
    extractors but is not part of the sources. *)
Context {Engagement : Type}.
Variable calculateEngagement : json -> Engagement.

(** The sub-trees [strategies], [content], [performance] and [niches] of
    the competitor data, and the four passes that fill them.

    Modelled from the spec: [analyzeCompetitorStrategies],
    [analyzeCompetitorContent], [analyzeCompetitorPerformance] and
    [analyzeByNiche] are called by [analyzeAllData] but their bodies are
    not part of the sources; each recomputes its own sub-tree from the
    current competitor profiles and reports success or failure. *)
Context {Insights : Type}.
Inductive DerivedPass : Type :=
| StrategiesPass
| ContentPass
| PerformancePass
| NichesPass.

Inductive Metric : Type :=
| Plain (v : value)
| Ratio (e : Engagement).

Record ContentItem : Type := {
  c_type : string;
  c_id : value;
  c_title : value;
  c_description : value;
  c_url : value;
  c_image : value;
  c_metrics : value;
  c_discovered : string
}.

Record CompetitorProfile : Type := {
  id : string;
  name : value;
  url : value;
  platform : string;
  platformId : value;
  niche : string;
  description : value;
  added : string;
  lastUpdated : string;
  metrics : Obj.t Metric;
  content : list ContentItem;
  strategies : list json
}.

(** The argument of [addCompetitor]. *)
Record Candidate : Type := {
  cand_id : option string;
  cand_name : value;
  cand_url : value;
  cand_platform : string;
  cand_platformId : value;
  cand_niche : string;
  cand_description : value;
  cand_metrics : option (Obj.t Metric)
}.

(** The second argument of [updateCompetitor]: the fields of a profile it
    names, each with a value of the field's type.  [lastUpdated] is left
    out: the call overwrites it. *)
Record Updates : Type := {
  u_id : option string;
  u_added : option string;
  u_name : option value;
  u_url : option value;
  u_platform : option string;
  u_platformId : option value;
  u_niche : option string;
  u_description : option value;
  u_metrics : option (Obj.t Metric);
  u_content : option (list ContentItem);
  u_strategies : option (list json)
}.

Definition noUpdates : Updates :=
  {| u_id := None; u_added := None;
     u_name := None; u_url := None; u_platform := None; u_platformId := None;
     u_niche := None; u_description := None; u_metrics := None; u_content := None;
     u_strategies := None |}.

Definition metricsUpdate (m : Obj.t Metric) : Updates :=
  {| u_id := None; u_added := None;
     u_name := None; u_url := None; u_platform := None; u_platformId := None;
     u_niche := None; u_description := None; u_metrics := Some m; u_content := None;
     u_strategies := None |}.

Definition contentUpdate (c : list ContentItem) : Updates :=
  {| u_id := None; u_added := None;
     u_name := None; u_url := None; u_platform := None; u_platformId := None;
     u_niche := None; u_description := None; u_metrics := None; u_content := Some c;
     u_strategies := None |}.

Variable analyzeDerived : DerivedPass -> Obj.t CompetitorProfile -> Insights -> Report * Insights.
(** [ToNumber] of a string; [None] is [NaN]. *)
Variable stringToNumber : string -> option Q.
Variable oracle : Oracle.

Record CompetitorData : Type := {
  competitors : Obj.t CompetitorProfile;
  insights : Insights
}.

Record State : Type := {
  competitorData : CompetitorData;
  initialized : bool;
  tick : nat;
  localStorage : Storage CompetitorData
}.

Definition setCompetitors (c : Obj.t CompetitorProfile) (s : State) : State :=
  {| competitorData := {| competitors := c; insights := insights (competitorData s) |};
     initialized := initialized s; tick := tick s; localStorage := localStorage s |}.

Definition setInsights (i : Insights) (s : State) : State :=
  {| competitorData := {| competitors := competitors (competitorData s); insights := i |};
     initialized := initialized s; tick := tick s; localStorage := localStorage s |}.

Local Open Scope eff_scope.

Definition readOracle {A} (f : nat -> A) : M State A :=
  fun s => (Ret (f (tick s)),
            {| competitorData := competitorData s; initialized := initialized s;
               tick := S (tick s); localStorage := localStorage s |}).

Definition newDate : M State string := readOracle (isoTime oracle).

Definition initialize : M State bool :=
  fun s =>
    let st := localStorage s in
    match available st, slot st with
    | true, Corrupt => (Ret false, s)
    | true, Saved doc =>
        (Ret true, {| competitorData := doc; initialized := true; tick := tick s;
                      localStorage := st |})
    | _, _ =>
        (Ret true, {| competitorData := competitorData s; initialized := true;
                      tick := tick s; localStorage := st |})
    end.

Definition saveToStorage : M State bool :=
  fun s =>
    let st := localStorage s in
    if available st then
      (Ret true, {| competitorData := competitorData s; initialized := initialized s;
                    tick := tick s;
                    localStorage := {| available := true;
                                       slot := Saved (competitorData s) |} |})
    else (Ret true, s).

(** [addCompetitor]: returns the id ([null] is never returned, nothing in
    the body throws). *)
Definition addCompetitor (competitor : Candidate) : M State (option string) :=
  tryCatch
    (let* id :=
       (match cand_id competitor with
        | Some i => if String.eqb i EmptyString then
                      let* ms := readOracle (nowMs oracle) in
                      let* r := readOracle (random oracle) in
                      ret ("competitor_" ++ str (numberToString ms) ++ "_" ++ base36 oracle r)%string
                    else ret i
        | None =>
            let* ms := readOracle (nowMs oracle) in
            let* r := readOracle (random oracle) in
            ret ("competitor_" ++ str (numberToString ms) ++ "_" ++ base36 oracle r)%string
        end) in
     let* added := newDate in
     let* lastUpdated := newDate in
     modify (fun s =>
       setCompetitors
         (Obj.set (competitors (competitorData s)) id
            {| id := id;
               name := cand_name competitor;
               url := cand_url competitor;
               platform := cand_platform competitor;
               platformId := None;
               niche := cand_niche competitor;
               description := cand_description competitor;
               added := added;
               lastUpdated := lastUpdated;
               metrics := default [] (cand_metrics competitor);
               content := [];
               strategies := [] |}) s) ;;
     saveToStorage ;;
     ret (Some id))
    (fun _ => ret None).

(** [{...existing, ...updates, lastUpdated}] *)
Definition applyUpdates (c : CompetitorProfile) (u : Updates) (now : string) : CompetitorProfile :=
  {| id := default (id c) (u_id u);
     name := default (name c) (u_name u);
     url := default (url c) (u_url u);
     platform := default (platform c) (u_platform u);
     platformId := default (platformId c) (u_platformId u);
     niche := default (niche c) (u_niche u);
     description := default (description c) (u_description u);
     added := default (added c) (u_added u);
     lastUpdated := now;
     metrics := default (metrics c) (u_metrics u);
     content := default (content c) (u_content u);
     strategies := default (strategies c) (u_strategies u) |}.

Definition notFound (id : string) : string :=
  ("Competitor with ID " ++ id ++ " not found")%string.

(** The [try] block of [updateCompetitor]. *)
Definition updateCompetitor_try (id : string) (updates : Updates) : M State bool :=
  let* s := get in
  match Obj.get (competitors (competitorData s)) id with
  | None => throw (notFound id)
  | Some existing =>
      let* now := newDate in
      modify (fun s =>
        setCompetitors (Obj.set (competitors (competitorData s)) id
                          (applyUpdates existing updates now)) s) ;;
      saveToStorage ;;
      ret true
  end.

Definition updateCompetitor (id : string) (updates : Updates) : M State bool :=
  tryCatch (updateCompetitor_try id updates) (fun _ => ret false).

(** The [try] block of [removeCompetitor]. *)
Definition removeCompetitor_try (id : string) : M State bool :=
  let* s := get in
  match Obj.get (competitors (competitorData s)) id with
  | None => throw (notFound id)
  | Some _ =>
      modify (fun s =>
        setCompetitors (Obj.remove (competitors (competitorData s)) id) s) ;;
      saveToStorage ;;
      ret true
  end.

Definition removeCompetitor (id : string) : M State bool :=
  tryCatch (removeCompetitor_try id) (fun _ => ret false).

Definition getCompetitor (id : string) (s : State) : option CompetitorProfile :=
  Obj.get (competitors (competitorData s)) id.

Definition getAllCompetitors (s : State) : list CompetitorProfile :=
  Obj.values (competitors (competitorData s)).

Definition getCompetitorsByNiche (n : string) (s : State) : list CompetitorProfile :=
  List.filter (fun c => String.eqb (niche c) n) (getAllCompetitors s).

Definition getCompetitorsByPlatform (p : string) (s : State) : list CompetitorProfile :=
  List.filter (fun c => String.eqb (platform c) p) (getAllCompetitors s).

(** *** Identification *)

(** Modelled from the spec: [determineNiche] is called by the extractors
    but is not part of the sources.  The niche of a new competitor is
    decided by the substring keyword matching of the trend engine applied
    to the competitor's descriptive text; text that matches none goes to
    the ["unclassified"] bucket.  The specification does not say which
    niche a text that matches several goes to: the configured niches are
    tried in their order here, and nothing is proved of such a text. *)
Definition matchesNicheText (niche : string) (t : text) : bool :=
  existsb (fun keyword => includes (toLowerCase t) (toLowerCase (chars keyword)))
    (getNicheKeywords niche).

Definition determineNiche (description : value) : string :=
  match description with
  | Some (JStr t) =>
      default "unclassified"%string
        (List.find (fun niche => matchesNicheText niche (chars t)) preferredNiches)
  | _ => "unclassified"%string
  end.

(** [ToNumber] *)
Definition toNumber (v : value) : option Q :=
  match v with
  | None => None
  | Some JNull => Some 0%Q
  | Some (JBool b) => Some (if b then 1%Q else 0%Q)
  | Some (JNum n) => Some (inject_Z n)
  | Some (JStr s) => stringToNumber s
  | Some (JArr items) => stringToNumber (str (toStringJ (JArr items)))
  | Some (JObj _) => None
  end.

(** [v < k]: false when [v] is not a number. *)
Definition lessThan (v : value) (k : Z) : bool :=
  match toNumber v with
  | Some q => negb (Qle_bool (inject_Z k) q)
  | None => false
  end.

(** [item.k] where [item] may be [null]. *)
Definition member (item : json) (k : string) : M State value :=
  match item with
  | JNull => throw ("Cannot read properties of null (reading '" ++ k ++ "')")%string
  | _ => ret (prop item k)
  end.

(** [v.k] for a truthy [v]. *)
Definition field (v : value) (k : string) : value :=
  match v with
  | Some j => prop j k
  | None => None
  end.

(** [Object.values(competitors).find(pred)] *)
Definition findCompetitor (pred : CompetitorProfile -> bool) : M State (option CompetitorProfile) :=
  let* s := get in
  ret (List.find pred (Obj.values (competitors (competitorData s)))).

(** [competitor.content.push(item)] on the stored profile. *)
Definition pushContent (key : string) (item : ContentItem) : M State unit :=
  modify (fun s =>
    match Obj.get (competitors (competitorData s)) key with
    | Some c =>
        setCompetitors
          (Obj.set (competitors (competitorData s)) key
             {| id := id c; name := name c; url := url c; platform := platform c;
                platformId := platformId c; niche := niche c;
                description := description c; added := added c;
                lastUpdated := lastUpdated c; metrics := metrics c;
                content := content c ++ [item]; strategies := strategies c |}) s
    | None => s
    end).

Definition twitterMetrics (user : value) (tweet : json) : Obj.t Metric :=
  [("followers", Plain (field user "followers_count"));
   ("tweets", Plain (field user "statuses_count"));
   ("engagement", Ratio (calculateEngagement tweet))]%string.

Definition twitterItem (tweet : json) : M State unit :=
  let* user := member tweet "user" in
  if negb (truthy user) then ret tt
  else if lessThan (field user "followers_count") 1000 then ret tt
  else
    let* existingCompetitor :=
      findCompetitor (fun competitor =>
        String.eqb (platform competitor) "twitter" &&
        strictEq (platformId competitor) (field user "id")) in
    match existingCompetitor with
    | Some existing =>
        updateCompetitor (id existing) (metricsUpdate (twitterMetrics user tweet)) ;;
        ret tt
    | None =>
        let niche := determineNiche (prop tweet "text") in
        addCompetitor
          {| cand_id := None;
             cand_name := field user "name";
             cand_url := Some (JStr (str (chars "https://twitter.com/" ++
                                          toString (field user "screen_name"))));
             cand_platform := "twitter";
             cand_platformId := field user "id";
             cand_niche := niche;
             cand_description := orElse (field user "description") (Some (JStr ""));
             cand_metrics := Some (twitterMetrics user tweet) |} ;;
        ret tt
    end.

(** The value an extractor returns: [undefined], [true] or [false]. *)
Definition extractTwitterCompetitors (results : json) : M State (option bool) :=
  tryCatch
    (match results with
     | JArr items => forEach twitterItem items ;; ret (Some true)
     | _ => ret None
     end)
    (fun _ => ret (Some false)).

Definition pinContent (pin : json) (now : string) : ContentItem :=
  {| c_type := "pin"; c_id := None; c_title := prop pin "title";
     c_description := prop pin "description"; c_url := prop pin "link";
     c_image := prop pin "image"; c_metrics := prop pin "metrics";
     c_discovered := now |}.

Definition pinterestItem (pin : json) : M State unit :=
  let* pinMetrics := member pin "metrics" in
  if negb (truthy pinMetrics) || negb (truthy (field pinMetrics "saves"))
     || lessThan (field pinMetrics "saves") 100 then ret tt
  else
    let creatorName := orElse (prop pin "creator") (Some (JStr "Unknown Creator")) in
    let* existingCompetitor :=
      findCompetitor (fun competitor =>
        String.eqb (platform competitor) "pinterest" &&
        strictEq (name competitor) creatorName) in
    match existingCompetitor with
    | Some existing =>
        let* s := get in
        match getCompetitor (id existing) s with
        | Some competitor =>
            if negb (existsb (fun c => strictEq (c_url c) (prop pin "link")) (content competitor))
            then
              let* now := newDate in
              pushContent (id existing) (pinContent pin now) ;;
              updateCompetitor (id existing)
                (contentUpdate (content competitor ++ [pinContent pin now])) ;;
              ret tt
            else ret tt
        | None => ret tt
        end
    | None =>
        let niche :=
          determineNiche
            (Some (JStr (str (toString (prop pin "title") ++ chars " " ++
                              toString (prop pin "description"))))) in
        let* added :=
          addCompetitor
            {| cand_id := None;
               cand_name := creatorName;
               cand_url := prop pin "link";
               cand_platform := "pinterest";
               cand_platformId := None;
               cand_niche := niche;
               cand_description := Some (JStr "");
               cand_metrics :=
                 Some [("pins", Plain (Some (JNum 1)));
                       ("saves", Plain (field pinMetrics "saves"));
                       ("comments", Plain (orElse (field pinMetrics "comments")
                                             (Some (JNum 0))))]%string |} in
        match added with
        | Some newId =>
            if String.eqb newId EmptyString then ret tt
            else
              let* s := get in
              match getCompetitor newId s with
              | Some competitor =>
                  let* now := newDate in
                  pushContent newId (pinContent pin now) ;;
                  updateCompetitor newId
                    (contentUpdate (content competitor ++ [pinContent pin now])) ;;
                  ret tt
              | None => ret tt
              end
        | None => ret tt
        end
    end.

Definition extractPinterestCompetitors (results : json) : M State (option bool) :=
  tryCatch
    (match results with
     | JArr items => forEach pinterestItem items ;; ret (Some true)
     | _ => ret None
     end)
    (fun _ => ret (Some false)).

Definition videoContent (video : json) (now : string) : ContentItem :=
  {| c_type := "video"; c_id := prop video "id"; c_title := None;
     c_description := prop video "description"; c_url := None;
     c_image := None; c_metrics := prop video "metrics";
     c_discovered := now |}.

Definition tiktokMetrics (author : value) (video : json) : Obj.t Metric :=
  [("followers", Plain (field author "followers"));
   ("videos", Plain (Some (JNum 1)));
   ("engagement", Ratio (calculateEngagement video))]%string.

Definition tiktokItem (video : json) : M State unit :=
  let* author := member video "author" in
  if negb (truthy author) then ret tt
  else if lessThan (field author "followers") 5000 then ret tt
  else
    let* existingCompetitor :=
      findCompetitor (fun competitor =>
        String.eqb (platform competitor) "tiktok" &&
        strictEq (platformId competitor) (field author "id")) in
    match existingCompetitor with
    | Some existing =>
        updateCompetitor (id existing) (metricsUpdate (tiktokMetrics author video)) ;;
        let* s := get in
        match getCompetitor (id existing) s with
        | Some competitor =>
            if negb (existsb (fun c => strictEq (c_id c) (prop video "id")) (content competitor))
            then
              let* now := newDate in
              pushContent (id existing) (videoContent video now) ;;
              updateCompetitor (id existing)
                (contentUpdate (content competitor ++ [videoContent video now])) ;;
              ret tt
            else ret tt
        | None => ret tt
        end
    | None =>
        let niche := determineNiche (prop video "description") in
        let* added :=
          addCompetitor
            {| cand_id := None;
               cand_name := field author "username";
               cand_url := Some (JStr (str (chars "https://tiktok.com/@" ++
                                            toString (field author "username"))));
               cand_platform := "tiktok";
               cand_platformId := field author "id";
               cand_niche := niche;
               cand_description := Some (JStr "");
               cand_metrics := Some (tiktokMetrics author video) |} in
        match added with
        | Some newId =>
            if String.eqb newId EmptyString then ret tt
            else
              let* s := get in
              match getCompetitor newId s with
              | Some competitor =>
                  let* now := newDate in
                  pushContent newId (videoContent video now) ;;
                  updateCompetitor newId
                    (contentUpdate (content competitor ++ [videoContent video now])) ;;
                  ret tt
              | None => ret tt
              end
        | None => ret tt
        end
    end.

Definition extractTikTokCompetitors (results : json) : M State (option bool) :=
  tryCatch
    (match results with
     | JArr items => forEach tiktokItem items ;; ret (Some true)
     | _ => ret None
     end)
    (fun _ => ret (Some false)).

(** [extractGenericCompetitors] is cut off in the sources after its
    mention count; what it does with the store is a parameter. *)
Variable extractGenericCompetitors : json -> string -> State -> State.

Definition isSocialMedia (item : StoredRecord) : bool :=
  String.eqb (r_category item) "socialMedia" ||
  existsb (String.eqb (r_source item)) ["twitter"; "pinterest"; "tiktok"]%string.

Definition identifyItem (item : StoredRecord) : M State unit :=
  match r_data item with
  | Some d =>
      if negb (truthy (Some d)) then ret tt
      else
        match prop d "results" with
        | Some results =>
            if negb (truthy (Some results)) then ret tt
            else
              let source := r_source item in
              if String.eqb source "twitter" then
                extractTwitterCompetitors results ;; ret tt
              else if String.eqb source "pinterest" then
                extractPinterestCompetitors results ;; ret tt
              else if String.eqb source "tiktok" then
                extractTikTokCompetitors results ;; ret tt
              else
                modify (extractGenericCompetitors results source)
        | None => ret tt
        end
  | None => ret tt
  end.

Definition identifyCompetitors (data : list StoredRecord) : M State bool :=
  tryCatch
    (forEach identifyItem (List.filter isSocialMedia data) ;;
     ret true)
    (fun _ => ret false).

Definition runDerived (pass : DerivedPass) : M State Report :=
  fun s =>
    let '(r, i) := analyzeDerived pass (competitors (competitorData s))
                     (insights (competitorData s)) in
    (Ret r, setInsights i s).

(** *** The top-level call *)

Record Result : Type := {
  report : Report;
  result_competitors : option CompetitorData
}.

Definition analyzeAllData (allData : list StoredRecord) : M State Result :=
  tryCatch
    (let* s := get in
     (if initialized s then ret true else initialize) ;;
     match allData with
     | [] => ret {| report := {| success := false;
                                 message := "No data available for analysis" |};
                    result_competitors := None |}
     | _ :: _ =>
         identifyCompetitors allData ;;
         runDerived StrategiesPass ;;
         runDerived ContentPass ;;
         runDerived PerformancePass ;;
         runDerived NichesPass ;;
         saveToStorage ;;
         let* s := get in
         ret {| report := {| success := true;
                             message := "Successfully analyzed all data for competitor insights" |};
                result_competitors := Some (competitorData s) |}
     end)
    (fun e => ret {| report := {| success := false;
                                  message := ("Failed to analyze all data for competitor insights: " ++ e)%string |};
                     result_competitors := None |}).

Definition fresh (i0 : Insights) (st : Storage CompetitorData) : State :=
  {| competitorData := {| competitors := []; insights := i0 |};
     initialized := false; tick := 0; localStorage := st |}.

End Service.

End Competitor.

(** ** Marketing Strategy Service: the budget facet *)

Module Strategy.

Record PrioritizedNiche : Type := {
  pn_niche : string;
  priority : Q
}.

(** The options [generateBudgetStrategy] reads. *)
Record Options : Type := {
  budget : Q;
  focusNiches : list string;
  goalIncome : Q
}.

(** [Math.round]: the nearest integer, a tie going up. *)
Definition mathRound (x : Q) : Z := Qfloor (x + (1 # 2))%Q.

(** [Math.round(allocation * 100) / 100] *)
Definition roundToCents (allocation : Q) : Q :=
  (inject_Z (mathRound (allocation * 100)) / 100)%Q.

Definition totalPriority (prioritizedNiches : list PrioritizedNiche) : Q :=
  fold_left (fun sum niche => (sum + priority niche)%Q) prioritizedNiches 0%Q.

(** [(niche.priority / totalPriority) * initialBudget] *)
Definition share (total initialBudget : Q) (niche : PrioritizedNiche) : Q :=
  (priority niche / total * initialBudget)%Q.

(** The allocation object; [None] stands for the non-finite number a zero
    total priority produces. *)
Definition allocate (prioritizedNiches : list PrioritizedNiche) (initialBudget : Q)
  : Obj.t (option Q) :=
  let total := totalPriority prioritizedNiches in
  fold_left
    (fun budgetAllocation niche =>
       Obj.set budgetAllocation (pn_niche niche)
         (if Qeq_bool total 0 then None
          else Some (roundToCents (share total initialBudget niche))))
    prioritizedNiches [].

Record BudgetStrategy : Type := {
  initialBudget : Q;
  allocation : Obj.t (option Q)
}.

Section Facet.
(** [prioritizeNiches], applied to the trend and gap data of the moment;
    its body is cut off in the sources. *)
Variable prioritizeNiches : list string -> list PrioritizedNiche.

(** The strategy pushed on [strategies.budget]; the scaling, investment
    and zero-investment texts attached to it come from generators that
    are not part of the sources and are left out. *)
Definition generateBudgetStrategy (options : Options) (budgetStrategies : list BudgetStrategy)
  : bool * list BudgetStrategy :=
  let prioritizedNiches := prioritizeNiches (focusNiches options) in
  (true,
   budgetStrategies ++
     [{| initialBudget := budget options;
         allocation := allocate prioritizedNiches (budget options) |}]).
End Facet.

(** The sum of the allocations, when all of them are finite. *)
Definition sumAllocation (a : Obj.t (option Q)) : option Q :=
  foldr (fun v acc =>
           match v, acc with
           | Some y, Some x => Some (y + x)%Q
           | _, _ => None
           end) (Some 0%Q) (Obj.values a).

End Strategy.

(** ** Vocabulary of the statements *)

Module Reading.
Import JS.

(** What a pass does with one record of the snapshot. *)
Inductive Handling (A : Type) : Type :=
| Skipped
| Fails
| Handled (a : A).
Arguments Skipped {A}.
Arguments Fails {A}.
Arguments Handled {A} a.

Definition failing {A} (h : Handling A) : bool :=
  match h with Fails => true | _ => false end.

(** The records a [forEach] completes: those before the first one on which
    the callback throws. *)
Fixpoint reached {X A} (handling : X -> Handling A) (data : list X) : list A :=
  match data with
  | [] => []
  | item :: rest =>
      match handling item with
      | Skipped => reached handling rest
      | Fails => []
      | Handled a => a :: reached handling rest
      end
  end.

(** Does the callback throw on some record? *)
Definition aborted {X A} (handling : X -> Handling A) (data : list X) : bool :=
  existsb (fun item => failing (handling item)) data.

(** Whole-word occurrences, in the words of the specification: [word]
    stands at the head of [t], ignoring case, with no word character right
    before it and none right after it.  [prev] tells whether the character
    before [t] is a word character. *)
Definition wholeWordAt (word : text) (prev : bool) (t : text) : bool :=
  negb prev && Trend.startsWithIgnoreCase word t &&
  negb (Trend.headIsWord (drop (length word) t)).

Fixpoint wholeWordOccurrences (word : text) (prev : bool) (t : text) : Z :=
  match t with
  | [] => 0
  | c :: rest =>
      (if wholeWordAt word prev t then 1 else 0) +
      wholeWordOccurrences word (isWordChar c) rest
  end.

Definition occurrencesOfAll (words : list string) (t : text) : Z :=
  fold_left (fun acc w => acc + wholeWordOccurrences (chars w) false t) words 0.

(** Two dictionaries have entries of their own under the same names of
    members of [Object.prototype]. *)
Definition sameHeld {A : Type} (m m' : gmap string A) : Prop :=
  forall k, inherited k = true -> (is_Some (m !! k) <-> is_Some (m' !! k)).

(** The by-keyword pass: the lower-cased query, the source and the results
    of a record it handles.  The pass fails on a query that is not a
    string, and on one that names a member of [Object.prototype] while the
    keywords [held] have no entry under it. *)
Definition keywordHandling (held : gmap string Trend.KeywordData) (item : StoredRecord)
  : Handling (string * string * json) :=
  match r_data item with
  | Some (JObj fields) =>
      match lookupField "results" fields, lookupField "query" fields with
      | Some results, Some (JStr q) =>
          if truthy (Some results) && truthy (Some (JStr q))
          then
            let query := str (toLowerCase (chars q)) in
            if inherited query && negb (bool_decide (is_Some (held !! query)))
            then Fails
            else Handled (query, r_source item, results)
          else Skipped
      | Some results, Some query =>
          if truthy (Some results) && truthy (Some query) then Fails else Skipped
      | _, _ => Skipped
      end
  | _ => Skipped
  end.

(** The results of the records the by-keyword pass handles under [query]. *)
Definition keywordHits (held : gmap string Trend.KeywordData) (query : string)
    (data : list StoredRecord) : list json :=
  map snd
    (List.filter (fun h => String.eqb (fst (fst h)) query)
       (reached (keywordHandling held) data)).

(** The by-niche pass: the query (or the empty string) and the results of a
    record it handles. *)
Definition nicheHandling (item : StoredRecord) : Handling (string * json) :=
  match r_data item with
  | Some (JObj fields) =>
      match lookupField "results" fields with
      | Some results =>
          if truthy (Some results) then
            match orElse (lookupField "query" fields) (Some (JStr "")) with
            | Some (JStr q) => Handled (q, results)
            | _ => Fails
            end
          else Skipped
      | None => Skipped
      end
  | _ => Skipped
  end.

(** The records the by-niche pass counts for [niche]. *)
Definition nicheHits (niche : string) (data : list StoredRecord) : list (string * json) :=
  List.filter (fun h => Trend.matchesNiche niche (fst h) (snd h))
    (reached nicheHandling data).

Section TrendReaders.
Import Trend.
Context {Timeframes : Type}.
Abbreviation State := (@Trend.State Timeframes).

(** The fields of a keyword, [0], nothing and [[]] standing for a keyword
    that has no entry. *)
Definition mentionsOf (s : State) (query : string) : Z :=
  match keywords (trendData s) !! query with
  | Some k => mentions k
  | None => 0
  end.

Definition sentimentOf (s : State) (query : string) : option Q :=
  sentiment <$> keywords (trendData s) !! query.

Definition relatedOf (s : State) (query : string) : list string :=
  match keywords (trendData s) !! query with
  | Some k => relatedKeywords k
  | None => []
  end.

Definition popularityOf (s : State) (niche : string) : Z :=
  match Obj.get (niches (trendData s)) niche with
  | Some n => popularity n
  | None => 0
  end.

(** What the by-keyword pass leaves alone. *)
Definition sameButKeywords (s s' : State) : Prop :=
  niches (trendData s') = niches (trendData s) /\
  products (trendData s') = products (trendData s) /\
  timeframes (trendData s') = timeframes (trendData s) /\
  initialized s' = initialized s /\
  localStorage s' = localStorage s.

(** What the by-niche pass leaves alone. *)
Definition sameButNiches (s s' : State) : Prop :=
  keywords (trendData s') = keywords (trendData s) /\
  products (trendData s') = products (trendData s) /\
  timeframes (trendData s') = timeframes (trendData s) /\
  initialized s' = initialized s /\
  localStorage s' = localStorage s.

(** What the by-product pass leaves alone. *)
Definition sameButProducts (s s' : State) : Prop :=
  niches (trendData s') = niches (trendData s) /\
  keywords (trendData s') = keywords (trendData s) /\
  timeframes (trendData s') = timeframes (trendData s) /\
  initialized s' = initialized s /\
  localStorage s' = localStorage s.

(** Only the oracle has been read. *)
Definition sameButTick (s s' : State) : Prop :=
  trendData s' = trendData s /\
  initialized s' = initialized s /\
  localStorage s' = localStorage s.

(** The related keywords and the sentiment of a keyword once the records
    [hits] have been handled for it, in this order. *)
Definition relatedAfter (q : string) (hits : list json) (before : list string) : list string :=
  fold_left (fun acc results => pushRelated q acc (extractKeywords results)) hits before.

Definition sentimentAfter (hits : list json) (before : option Q) : option Q :=
  match last hits with
  | Some results => Some (calculateSentiment results)
  | None => before
  end.
(** Every niche that has an entry keeps one. *)
Definition keepsNiches (s s' : State) : Prop :=
  forall n, is_Some (Obj.get (niches (trendData s)) n) ->
            is_Some (Obj.get (niches (trendData s')) n).

Definition hasPreferred (s : State) : Prop :=
  forall n, In n preferredNiches -> is_Some (Obj.get (niches (trendData s)) n).

(** How often the loop over the niches [ns] counts a record for [m]. *)
Definition bumps (m q : string) (results : json) (ns : list string) : nat :=
  length (List.filter (fun n => String.eqb n m && matchesNiche n q results) ns).

Definition productSentimentOf (s : State) (key : string) : option Q :=
  pd_sentiment <$> products (trendData s) !! key.

(** The by-product pass: the source and the results of a record it
    handles. *)
Definition productHandling (item : StoredRecord) : Handling (string * json) :=
  match r_data item with
  | Some (JObj fields) =>
      match lookupField "results" fields with
      | Some results =>
          if truthy (Some results) then Handled (r_source item, results) else Skipped
      | None => Skipped
      end
  | _ => Skipped
  end.

(** The pass fails on a product whose key names a member of
    [Object.prototype] while the products [held] have no entry under it. *)
Definition failingProduct (held : gmap string ProductData) (product : Product) : bool :=
  inherited (productKey product) &&
  negb (bool_decide (is_Some (held !! productKey product))).

(** The products handled before the first one the pass fails on. *)
Fixpoint touched (held : gmap string ProductData) (extracted : list Product)
  : list Product :=
  match extracted with
  | [] => []
  | product :: rest =>
      if failingProduct held product then [] else product :: touched held rest
  end.

(** The products a run of the by-product pass handles, in order: the key
    of each and the results of the record it was extracted from. *)
Fixpoint productLog (oracle : Oracle) (data : list StoredRecord) (s : State)
  : list (string * json) :=
  match data with
  | [] => []
  | item :: rest =>
      match productHandling item with
      | Handled (source, results) =>
          let '(o, s1) := extractProducts oracle results s in
          let extracted := match o with Eff.Ret ps => ps | Eff.Throw _ => [] end in
          let held := products (trendData s1) in
          map (fun p => (productKey p, results)) (touched held extracted) ++
          (if existsb (failingProduct held) extracted then []
           else productLog oracle rest
                  (snd (Eff.forEach (touchProduct oracle source results) extracted s1)))
      | _ => productLog oracle rest s
      end
  end.

(** Does the by-product pass fail on a product of some record? *)
Fixpoint productsAborted (oracle : Oracle) (data : list StoredRecord) (s : State) : bool :=
  match data with
  | [] => false
  | item :: rest =>
      match productHandling item with
      | Handled (source, results) =>
          let '(o, s1) := extractProducts oracle results s in
          let extracted := match o with Eff.Ret ps => ps | Eff.Throw _ => [] end in
          existsb (failingProduct (products (trendData s1))) extracted ||
          productsAborted oracle rest
            (snd (Eff.forEach (touchProduct oracle source results) extracted s1))
      | _ => productsAborted oracle rest s
      end
  end.

(** The state once [if (!this.initialized) await this.initialize()] has
    run. *)
Definition ensureInitialized (s : State) : State :=
  if initialized s then s else snd (initialize s).

(** The state survives a reload: the service is initialised, or the
    document in the store is the current trend data. *)
Definition settled (s : State) : Prop :=
  initialized s = true \/
  (available (localStorage s) = true /\ slot (localStorage s) = Saved (trendData s)).

(** Nothing is reloaded from the store at the next call. *)
Definition steady (s : State) : Prop :=
  trendData (ensureInitialized s) = trendData s.

(** The state a call of [analyzeAllData] leaves, and the state a series of
    calls leaves, one call per snapshot. *)
Definition stateAfter (analyzeByTimeframeOn : list StoredRecord -> Timeframes -> Report * Timeframes)
    (oracle : Oracle) (data : list StoredRecord) (s : State) : State :=
  snd (analyzeAllData analyzeByTimeframeOn oracle data s).

Definition stateAfterAll (analyzeByTimeframeOn : list StoredRecord -> Timeframes -> Report * Timeframes)
    (oracle : Oracle) (snapshots : list (list StoredRecord)) (s : State) : State :=
  fold_left (fun s data => stateAfter analyzeByTimeframeOn oracle data s) snapshots s.

(** The results logged under [key]. *)
Definition productHits (key : string) (log : list (string * json)) : list json :=
  map snd (List.filter (fun h => String.eqb (fst h) key) log).
End TrendReaders.

Section CompetitorReaders.
Import Competitor.
Context {Engagement Insights : Type}.
Abbreviation CState := (@Competitor.State Engagement Insights).

(** The state once [if (!this.initialized) await this.initialize()] has
    run. *)
Definition ensureInitializedC (s : CState) : CState :=
  if initialized s then s else snd (initialize s).

(** The id [addCompetitor] makes up when the oracle has been read [t]
    times. *)
Definition generatedId (oracle : Oracle) (t : nat) : string :=
  ("competitor_" ++ str (numberToString (nowMs oracle t)) ++ "_"
     ++ base36 oracle (random oracle (S t)))%string.
End CompetitorReaders.

(** The sum of a list of numbers. *)
Definition Qsum (l : list Q) : Q := foldr Qplus 0%Q l.

End Reading.

(** ** Sample records and surroundings *)

Module Sample.
Import JS.

(** A clock that advances one millisecond per reading and a random source
    stuck in the middle of its range. *)
Definition oracle : Oracle :=
  {| isoTime := fun n => ("2025-01-01T00:00:00." ++ str (numberToString (Z.of_nat n)) ++ "Z")%string;
     nowMs := fun n => 1735689600000 + Z.of_nat n;
     random := fun _ => (1 # 2)%Q;
     base36 := fun _ => "i"%string |}.

(** A by-timeframe pass that keeps no statistics. *)
Definition analyzeByTimeframeOn (data : list StoredRecord) (t : unit) : Report * unit :=
  ({| success := true; message := "Successfully analyzed data by timeframe" |}, t).

Definition calculateEngagement (item : json) : Q := 0%Q.

(** Derived passes that fail. *)
Definition analyzeDerived {P : Type} (pass : Competitor.DerivedPass) (profiles : P) (i : unit)
  : Report * unit :=
  ({| success := false; message := "Failed to analyze competitors" |}, i).

Definition stringToNumber (s : string) : option Q := None.

Definition emptyStore {Doc : Type} : Storage Doc :=
  {| available := true; slot := NoItem |}.

Definition trendService : @Trend.State unit := Trend.fresh tt emptyStore.

Definition competitorService : @Competitor.State Q unit := Competitor.fresh tt emptyStore.

Definition extractGenericCompetitors (results : json) (source : string)
    (s : @Competitor.State Q unit) : @Competitor.State Q unit := s.

(** The first tweet [scrapeTwitter] makes up for the query [query], with the
    text [text]. *)
Definition tweetBy (userId name : string) (followers : Z) (text : string) : json :=
  JObj [("id", JStr "1");
        ("text", JStr text);
        ("user", JObj [("id", JStr userId);
                       ("username", JStr "affiliatemarketer1");
                       ("name", JStr name);
                       ("followers_count", JNum followers)]);
        ("created_at", JStr "2025-01-01T00:00:00.000Z");
        ("metrics", JObj [("likes", JNum 45); ("retweets", JNum 12); ("replies", JNum 3)])]%string.

(** A record as [storeData('socialMedia', 'twitter', result)] files it. *)
Definition twitterRecord (query : json) (tweets : list json) : StoredRecord :=
  {| r_id := "socialMedia_twitter_2025-01-01T00:00:00.000Z";
     r_category := "socialMedia";
     r_source := "twitter";
     r_timestamp := "2025-01-01T00:00:00.000Z";
     r_data := Some (JObj [("platform", JStr "twitter");
                           ("query", query);
                           ("timestamp", JStr "2025-01-01T00:00:00.000Z");
                           ("results", JArr tweets);
                           ("metadata", JObj [("count", JNum (Z.of_nat (length tweets)));
                                              ("options", JObj [])])]) |}%string.

Definition aiTweet : json :=
  tweetBy "123" "Top Affiliate" 5000 "Check out this amazing AI product! #affiliate #marketing".

Definition aiRecord : StoredRecord := twitterRecord (JStr "AI") [aiTweet].

(** A record whose query is a number. *)
Definition numberedRecord : StoredRecord := twitterRecord (JNum 2025) [aiTweet].

(** A video as [scrapeTikTok] makes it up. *)
Definition aiVideo : json :=
  JObj [("id", JStr "video1");
        ("description", JStr "How I made $1000 with AI affiliate marketing #affiliatetips");
        ("author", JObj [("id", JStr "user1");
                         ("username", JStr "affiliateguru");
                         ("followers", JNum 50000)]);
        ("metrics", JObj [("views", JNum 25000); ("likes", JNum 3200);
                          ("comments", JNum 145); ("shares", JNum 230)]);
        ("created_at", JStr "2025-01-01T00:00:00.000Z")]%string.

Definition tiktokRecord : StoredRecord :=
  {| r_id := "socialMedia_tiktok_2025-01-01T00:00:00.000Z";
     r_category := "socialMedia";
     r_source := "tiktok";
     r_timestamp := "2025-01-01T00:00:00.000Z";
     r_data := Some (JObj [("platform", JStr "tiktok");
                           ("query", JStr "AI");
                           ("results", JArr [aiVideo])]) |}%string.

(** A pin as [scrapePinterest] makes it up. *)
Definition aiPin : json :=
  JObj [("id", JStr "pin1");
        ("title", JStr "Best AI Products for 2025");
        ("description", JStr "Top rated AI products that are trending right now");
        ("link", JStr "https://example.com/AI-products");
        ("image", JStr "https://example.com/images/AI-1.jpg");
        ("metrics", JObj [("saves", JNum 230); ("comments", JNum 12)])]%string.

Definition pinterestRecord : StoredRecord :=
  {| r_id := "socialMedia_pinterest_2025-01-01T00:00:00.000Z";
     r_category := "socialMedia";
     r_source := "pinterest";
     r_timestamp := "2025-01-01T00:00:00.000Z";
     r_data := Some (JObj [("platform", JStr "pinterest");
                           ("query", JStr "AI");
                           ("results", JArr [aiPin])]) |}%string.

(** Run the competitor engine, and the trend engine, over one snapshot. *)
Definition competitorsAfter (data : list StoredRecord) (s : @Competitor.State Q unit)
  : @Competitor.State Q unit :=
  snd (Competitor.analyzeAllData calculateEngagement analyzeDerived stringToNumber oracle
         extractGenericCompetitors data s).

Definition trendsAfter (data : list StoredRecord) (s : @Trend.State unit) : @Trend.State unit :=
  Reading.stateAfter analyzeByTimeframeOn oracle data s.

(** The record of a search for "constructor". *)
Definition constructorRecord : StoredRecord := twitterRecord (JStr "Constructor") [aiTweet].

(** A payload with two words of praise and one of blame. *)
Definition praise : json := JArr [JObj [("text", JStr "good good bad")]]%string.

(** Five niches of equal priority. *)
Definition evenNiches : list Strategy.PrioritizedNiche :=
  map (fun n => {| Strategy.pn_niche := n; Strategy.priority := 1%Q |}) preferredNiches.

End Sample.

From Stdlib Require Import Sorted.

(** ** Data Storage: the record store behind the engines

    The store keeps its records in [data], one object per category keyed
    by record id, and three indexes of ids.  Objects are association
    lists in creation order ([Obj.t]); every enumeration goes through
    [forIn], which lists the keys that are array indices first, in
    ascending order, as the language does.  A document written to the
    browser's storage is read back as written. *)

Module DataStorage.
Import JS Eff.

(** [for (const k in o)] and [Object.values(o)]: the keys that are array
    indices in ascending order, then the other keys in creation order. *)
Definition forIn {V : Type} (o : Obj.t V) : list (string * V) :=
  Trend.stableSort
    (fun a b => Trend.digitsValue (chars (fst a)) <=? Trend.digitsValue (chars (fst b)))
    (List.filter (fun kv => Trend.isArrayIndex (fst kv)) o)
  ++ List.filter (fun kv => negb (Trend.isArrayIndex (fst kv))) o.

Record Indexes : Type := {
  byDate : Obj.t (list string);
  bySource : Obj.t (list string);
  byKeyword : Obj.t (list string)
}.

Definition Data : Type := Obj.t (Obj.t StoredRecord).

(** The browser's [localStorage], with the two items the store keeps in it. *)
Record LocalStorage : Type := {
  present : bool;  (* [typeof window !== 'undefined' && window.localStorage] *)
  kache_affiliate_data : Slot Data;
  kache_affiliate_indexes : Slot Indexes
}.

Record State : Type := {
  data : Data;
  indexes : Indexes;
  tick : nat;
  localStorage : LocalStorage
}.

Definition setData (d : Data) (s : State) : State :=
  {| data := d; indexes := indexes s; tick := tick s; localStorage := localStorage s |}.

Definition setIndexes (i : Indexes) (s : State) : State :=
  {| data := data s; indexes := i; tick := tick s; localStorage := localStorage s |}.

Definition setByDate (o : Obj.t (list string)) (s : State) : State :=
  setIndexes {| byDate := o; bySource := bySource (indexes s);
                byKeyword := byKeyword (indexes s) |} s.

Definition setBySource (o : Obj.t (list string)) (s : State) : State :=
  setIndexes {| byDate := byDate (indexes s); bySource := o;
                byKeyword := byKeyword (indexes s) |} s.

Definition setByKeyword (o : Obj.t (list string)) (s : State) : State :=
  setIndexes {| byDate := byDate (indexes s); bySource := bySource (indexes s);
                byKeyword := o |} s.

Definition emptyData : Data :=
  [("socialMedia", []); ("affiliateNetworks", []); ("websites", []);
   ("trends", []); ("competitors", [])]%string.

Definition emptyIndexes : Indexes :=
  {| byDate := []; bySource := []; byKeyword := [] |}.

(** The store as its constructor leaves it. *)
Definition fresh (browser : LocalStorage) : State :=
  {| data := emptyData; indexes := emptyIndexes; tick := 0; localStorage := browser |}.

(** The argument of [searchData]; a field left out is [None]. *)
Record Criteria : Type := {
  category : option string;
  source : option string;
  keyword : option string;
  dateFrom : option string;
  dateTo : option string
}.

(** [searchData()] *)
Definition noCriteria : Criteria :=
  {| category := None; source := None; keyword := None; dateFrom := None; dateTo := None |}.

(** [ToBoolean] of a string that may be missing. *)
Definition given (o : option string) : bool :=
  match o with
  | Some s => negb (String.eqb s EmptyString)
  | None => false
  end.

(** [xs.filter(p)] for a callback that may throw. *)
Fixpoint filterE {X : Type} (p : X -> outcome bool) (xs : list X) : outcome (list X) :=
  match xs with
  | [] => Ret []
  | x :: rest =>
      match p x with
      | Throw e => Throw e
      | Ret b =>
          match filterE p rest with
          | Throw e => Throw e
          | Ret kept => Ret (if b then x :: kept else kept)
          end
      end
  end.

(** [.split('T')[0]] *)
Fixpoint beforeT (t : text) : text :=
  match t with
  | [] => []
  | c :: rest => if Ascii.eqb c "T"%char then [] else c :: beforeT rest
  end.

(** [if (!index[key]) index[key] = []; index[key].push(id)], for a key
    under which [index[key]] is an entry of the index or nothing. *)
Definition pushId (index : Obj.t (list string)) (key id : string) : Obj.t (list string) :=
  Obj.set index key (default [] (Obj.get index key) ++ [id]).

(** [for (const key in index) index[key] = index[key].filter(itemId => itemId !== id)] *)
Definition dropId (id : string) (index : Obj.t (list string)) : Obj.t (list string) :=
  fold_left
    (fun ix kv =>
       Obj.set ix (fst kv)
         (List.filter (fun itemId => negb (String.eqb itemId id))
            (default [] (Obj.get ix (fst kv)))))
    (forIn index) index.

(** The first category, in enumeration order, that holds a record under
    [id], with that record. *)
Fixpoint firstHolding (id : string) (categories : list (string * Obj.t StoredRecord))
  : option (string * StoredRecord) :=
  match categories with
  | [] => None
  | (cat, records) :: rest =>
      match Obj.get records id with
      | Some record => Some (cat, record)
      | None => firstHolding id rest
      end
  end.

Section Service.
Variable oracle : Oracle.
(** The time value of [new Date(text)]; [None] is an invalid date. *)
Variable timeValue : string -> option Z.

Local Open Scope eff_scope.

(** [new Date().toISOString()] *)
Definition newDate : M State string :=
  fun s => (Ret (isoTime oracle (tick s)),
            {| data := data s; indexes := indexes s; tick := S (tick s);
               localStorage := localStorage s |}).

(** [initialize]: each of the two items, when there is one, replaces the
    field it was saved from; an item that does not parse ends the loading. *)
Definition initialize : M State bool :=
  tryCatch
    (let* s := get in
     (if present (localStorage s) then
        (match kache_affiliate_data (localStorage s) with
         | NoItem => ret tt
         | Corrupt => throw "Unexpected token in JSON"
         | Saved doc => modify (setData doc)
         end) ;;
        (match kache_affiliate_indexes (localStorage s) with
         | NoItem => ret tt
         | Corrupt => throw "Unexpected token in JSON"
         | Saved doc => modify (setIndexes doc)
         end)
      else ret tt) ;;
     ret true)
    (fun _ => ret false).

Definition saveToStorage : M State bool :=
  tryCatch
    (let* s := get in
     (if present (localStorage s) then
        modify (fun s =>
          {| data := data s; indexes := indexes s; tick := tick s;
             localStorage := {| present := true;
                                kache_affiliate_data := Saved (data s);
                                kache_affiliate_indexes := Saved (indexes s) |} |})
      else ret tt) ;;
     ret true)
    (fun _ => ret false).

(** The dates and the source keys are made up by the store.  The keyword
    is the query of the payload: when it names a member of
    [Object.prototype] and the index has no entry under it,
    [byKeyword[keyword]] is that member, no list is made, and the member
    has no [push]. *)
Definition _updateIndexes (id category source : string) (data' : value) : M State unit :=
  let* now := newDate in
  let date := str (beforeT (chars now)) in
  modify (fun s => setByDate (pushId (byDate (indexes s)) date id) s) ;;
  let sourceKey := (category ++ "_" ++ source)%string in
  modify (fun s => setBySource (pushId (bySource (indexes s)) sourceKey id) s) ;;
  match data' with
  | None => throw "Cannot read properties of undefined (reading 'query')"
  | Some JNull => throw "Cannot read properties of null (reading 'query')"
  | Some d =>
      match prop d "query" with
      | Some (JStr q) =>
          if truthy (Some (JStr q)) then
            let keyword := str (toLowerCase (chars q)) in
            let* s := get in
            if inherited keyword &&
               negb (bool_decide (is_Some (Obj.get (byKeyword (indexes s)) keyword)))
            then throw "this.indexes.byKeyword[keyword].push is not a function"
            else modify (fun s => setByKeyword (pushId (byKeyword (indexes s)) keyword id) s)
          else ret tt
      | query =>
          if truthy query then throw "data.query.toLowerCase is not a function"
          else ret tt
      end
  end.

(** [storeData]: the id, or [None] for the [null] the handler returns. *)
Definition storeData (category source : string) (data' : value) : M State (option string) :=
  tryCatch
    (let* timestamp := newDate in
     let id := (category ++ "_" ++ source ++ "_" ++ timestamp)%string in
     modify (fun s =>
       match Obj.get (data s) category with
       | Some _ => s
       | None => setData (Obj.set (data s) category []) s
       end) ;;
     modify (fun s =>
       setData
         (Obj.set (data s) category
            (Obj.set (default [] (Obj.get (data s) category)) id
               {| r_id := id; r_category := category; r_source := source;
                  r_timestamp := timestamp; r_data := data' |})) s) ;;
     _updateIndexes id category source data' ;;
     saveToStorage ;;
     ret (Some id))
    (fun _ => ret None).

(** [getData]; [None] is [null]. *)
Definition getData (id : string) (s : State) : option StoredRecord :=
  snd <$> firstHolding id (forIn (data s)).

(** [this.data[category] || {}] *)
Definition getCategoryData (category : string) (s : State) : Obj.t StoredRecord :=
  default [] (Obj.get (data s) category).

(** [ids.map(id => this.getData(id)).filter(Boolean)] *)
Definition resolve (ids : list string) (s : State) : list StoredRecord :=
  omap (fun id => getData id s) ids.

(** The three look-ups: [index[key] || []] resolved, for a key under which
    [index[key]] is an entry of the index or nothing. *)
Definition getDataBySource (category source : string) (s : State) : list StoredRecord :=
  let sourceKey := (category ++ "_" ++ source)%string in
  resolve (default [] (Obj.get (bySource (indexes s)) sourceKey)) s.

Definition getDataByDate (date : string) (s : State) : list StoredRecord :=
  resolve (default [] (Obj.get (byDate (indexes s)) date)) s.

Definition getDataByKeyword (keyword : string) (s : State) : list StoredRecord :=
  let normalizedKeyword := str (toLowerCase (chars keyword)) in
  resolve (default [] (Obj.get (byKeyword (indexes s)) normalizedKeyword)) s.

(** The records [searchData] starts from: those of the category asked for,
    or of every category. *)
Definition allData (category : option string) (s : State) : list StoredRecord :=
  flat_map
    (fun kv =>
       if negb (given category) || bool_decide (category = Some (fst kv))
       then map snd (forIn (snd kv))
       else [])
    (forIn (data s)).

(** The callback of the keyword filter. *)
Definition keywordFilter (normalizedKeyword : text) (item : StoredRecord) : outcome bool :=
  match r_data item with
  | None => Throw "Cannot read properties of undefined (reading 'query')"
  | Some JNull => Throw "Cannot read properties of null (reading 'query')"
  | Some d =>
      let inResults :=
        match prop d "results" with
        | Some results =>
            if truthy (Some results) then
              match results with
              | JArr items =>
                  existsb (fun result =>
                             includes (toLowerCase (stringify result)) normalizedKeyword)
                    items
              | _ => includes (toLowerCase (stringify results)) normalizedKeyword
              end
            else false
        | None => false
        end in
      match prop d "query" with
      | Some (JStr q) =>
          if truthy (Some (JStr q)) && includes (toLowerCase (chars q)) normalizedKeyword
          then Ret true
          else Ret inResults
      | query =>
          if truthy query then Throw "item.data.query.toLowerCase is not a function"
          else Ret inResults
      end
  end.

(** [a >= b] and [a <= b] on time values: false when either date is invalid. *)
Definition notBefore (a b : option Z) : bool :=
  match a, b with
  | Some x, Some y => y <=? x
  | _, _ => false
  end.

Definition notAfter (a b : option Z) : bool :=
  match a, b with
  | Some x, Some y => x <=? y
  | _, _ => false
  end.

(** The callback of the date filter. *)
Definition dateFilter (dateFrom dateTo : option string) (item : StoredRecord) : bool :=
  let itemDate := timeValue (r_timestamp item) in
  if given dateFrom && given dateTo then
    notBefore itemDate (timeValue (default EmptyString dateFrom)) &&
    notAfter itemDate (timeValue (default EmptyString dateTo))
  else if given dateFrom then
    notBefore itemDate (timeValue (default EmptyString dateFrom))
  else if given dateTo then
    notAfter itemDate (timeValue (default EmptyString dateTo))
  else true.

(** [searchData]: the records kept, or the exception of the keyword
    filter; the store is only read. *)
Definition searchData (criteria : Criteria) (s : State) : outcome (list StoredRecord) :=
  let all := allData (category criteria) s in
  let bySourceFilter :=
    if given (source criteria)
    then List.filter (fun item => bool_decide (Some (r_source item) = source criteria)) all
    else all in
  match
    (if given (keyword criteria)
     then filterE (keywordFilter
                     (toLowerCase (chars (default EmptyString (keyword criteria)))))
            bySourceFilter
     else Ret bySourceFilter)
  with
  | Throw e => Throw e
  | Ret byKeywordFilter =>
      Ret (if given (dateFrom criteria) || given (dateTo criteria)
           then List.filter (dateFilter (dateFrom criteria) (dateTo criteria)) byKeywordFilter
           else byKeywordFilter)
  end.

(** [deleteData]: the record is deleted from the first category that holds
    it and its id from every index. *)
Definition deleteData (id : string) : M State bool :=
  let* s := get in
  match firstHolding id (forIn (data s)) with
  | Some (cat, _) =>
      modify (fun s =>
        setData (Obj.set (data s) cat
                   (Obj.remove (default [] (Obj.get (data s) cat)) id)) s) ;;
      modify (fun s => setByDate (dropId id (byDate (indexes s))) s) ;;
      modify (fun s => setBySource (dropId id (bySource (indexes s))) s) ;;
      modify (fun s => setByKeyword (dropId id (byKeyword (indexes s))) s) ;;
      saveToStorage ;;
      ret true
  | None => ret false
  end.


End Service.

End DataStorage.

(** ** Vocabulary of the statements about the record store *)

Module StoreReading.
Import JS DataStorage.

(** The payloads whose [query] cannot be read or lower-cased: [undefined],
    [null], and the values whose [query] is truthy without being a
    string. *)
Definition badQuery (data' : value) : bool :=
  match data' with
  | None | Some JNull => true
  | Some d =>
      match prop d "query" with
      | Some (JStr _) => false
      | query => truthy query
      end
  end.

(** The keyword [_updateIndexes] files a payload under, when it files it. *)
Definition keywordOf (data' : value) : option string :=
  match data' with
  | Some d =>
      match prop d "query" with
      | Some (JStr q) =>
          if truthy (Some (JStr q)) then Some (str (toLowerCase (chars q))) else None
      | _ => None
      end
  | None => None
  end.

(** The payloads whose [query], lower-cased, names a member of
    [Object.prototype]. *)
Definition inheritedQuery (data' : value) : bool :=
  match keywordOf data' with
  | Some keyword => inherited keyword
  | None => false
  end.

(** The payloads [_updateIndexes] cannot file under their keyword: the
    keyword names a member of [Object.prototype] and the index has no
    entry under it. *)
Definition unindexed (index : Obj.t (list string)) (data' : value) : bool :=
  match keywordOf data' with
  | Some keyword =>
      inherited keyword && negb (bool_decide (is_Some (Obj.get index keyword)))
  | None => false
  end.

(** The ids an index lists under [key]. *)
Definition idsUnder (index : Obj.t (list string)) (key : string) : list string :=
  default [] (Obj.get index key).

(** [ids.filter(itemId => itemId !== id)] *)
Definition without (id : string) (ids : list string) : list string :=
  List.filter (fun itemId => negb (String.eqb itemId id)) ids.


(** No key occurs twice. *)
Fixpoint distinct (keys : list string) : bool :=
  match keys with
  | [] => true
  | k :: rest => negb (existsb (String.eqb k) rest) && distinct rest
  end.

(** The association lists of a document stand for objects: no object has
    a key twice. *)
Definition wellFormedData (d : Data) : bool :=
  distinct (Obj.keys d) && forallb (fun kv => distinct (Obj.keys (snd kv))) d.

Definition wellFormedIndexes (i : Indexes) : bool :=
  distinct (Obj.keys (byDate i)) &&
  distinct (Obj.keys (bySource i)) &&
  distinct (Obj.keys (byKeyword i)).

Definition wellFormed (s : State) : bool :=
  wellFormedData (data s) && wellFormedIndexes (indexes s).


(** Some category holds a record under [id]. *)
Definition held (d : Data) (id : string) : Prop :=
  exists cat records, In (cat, records) d /\ is_Some (Obj.get records id).







(** A browser with nothing saved yet. *)
Definition blank (present' : bool) : LocalStorage :=
  {| present := present'; kache_affiliate_data := NoItem;
     kache_affiliate_indexes := NoItem |}.

(** The record [storeData] builds. *)
Definition recordOf (category source timestamp : string) (data' : value) : StoredRecord :=
  {| r_id := (category ++ "_" ++ source ++ "_" ++ timestamp)%string;
     r_category := category; r_source := source; r_timestamp := timestamp;
     r_data := data' |}.

End StoreReading.

(** ** Sample stores *)

Module StoreSample.
Import JS.

(** Dates by the day, as far as the samples need them. *)
Definition timeValue (t : string) : option Z :=
  if String.eqb t "2025-01-01" then Some 0
  else if String.eqb t "2025-01-01T00:00:00.0Z" then Some 0
  else if String.eqb t "2025-12-31" then Some 364
  else None.

(** A store just constructed, in a browser with nothing saved. *)
Definition emptyStore : DataStorage.State := DataStorage.fresh (StoreReading.blank true).

(** What [scrapeTwitter] returns for the query "AI", and a result whose
    query is a number. *)
Definition scraped : value := r_data Sample.aiRecord.

Definition numbered : value := r_data Sample.numberedRecord.

(** The store once [scraped] has been stored as the configuration page
    does, under the platform as category and as source. *)
Definition oneRecord : DataStorage.State :=
  snd (DataStorage.storeData Sample.oracle "twitter" "twitter" scraped emptyStore).

Definition byKeywordOnly (k : string) : DataStorage.Criteria :=
  {| DataStorage.category := None; DataStorage.source := None;
     DataStorage.keyword := Some k;
     DataStorage.dateFrom := None; DataStorage.dateTo := None |}.

Definition during2025 : DataStorage.Criteria :=
  {| DataStorage.category := None; DataStorage.source := Some "twitter"%string;
     DataStorage.keyword := Some "ai"%string;
     DataStorage.dateFrom := Some "2025-01-01"%string;
     DataStorage.dateTo := Some "2025-12-31"%string |}.

End StoreSample.

(** ** Vocabulary of the statements about keyword and product extraction *)

Module TrendReading.
Import JS Trend.

(** The words [extractKeywords] counts: the runs of non-blank characters,
    longer than three characters, of the serialized results once
    lower-cased and stripped of punctuation. *)
Definition wordsOf (results : json) : list string :=
  map str
    (List.filter (fun w => (3 <? length w)%nat)
       (splitWords (stripPunctuation (toLowerCase (stringify results))) [])).

(** How often a word occurs among them. *)
Definition frequency (results : json) (word : string) : nat :=
  count_occ string_dec (wordsOf results) word.

(** The numbers of a payload are safe integers, which the language prints
    in full. *)
Fixpoint safeNumbers (v : json) : bool :=
  match v with
  | JNum n => Z.abs n <=? 9007199254740991
  | JArr items => forallb safeNumbers items
  | JObj fields => forallb (fun kv => safeNumbers (snd kv)) fields
  | _ => true
  end.

(** No word of the payload names a member of [Object.prototype]: every
    word is counted with a number. *)
Definition plainWords (results : json) : bool :=
  forallb (fun word => negb (inherited word)) (wordsOf results).

(** A lower-case letter, a digit or an underscore. *)
Definition isKeywordChar (c : ascii) : bool :=
  isLower c || isDigit c || (code c =? 95)%nat.

(** The results [extractProducts] makes a product of. *)
Definition titled (result : json) : bool :=
  truthy (orElse (prop result "title") (prop result "name")).

(** The related keywords of [q] are in order: none is [q], none is there
    twice, and each is longer than three characters and made of
    lower-case letters, digits and underscores. *)
Definition inOrder (q : string) (related : list string) : Prop :=
  ~ In q related /\ List.NoDup related /\
  forall k, In k related ->
            (3 < String.length k)%nat /\ forallb isKeywordChar (chars k) = true.

End TrendReading.

(** ** Vocabulary of the statements about competitor identification *)

Module CompetitorReading.
Import JS.

(** A tweet that has no author, or whose author has fewer than 1000
    followers. *)
Definition smallTweet (tweet : json) : Prop :=
  tweet <> JNull /\
  (truthy (prop tweet "user") = false \/
   exists n, Competitor.field (prop tweet "user") "followers_count" = Some (JNum n) /\ n < 1000).

(** A video that has no author, or whose author has fewer than 5000
    followers. *)
Definition smallVideo (video : json) : Prop :=
  video <> JNull /\
  (truthy (prop video "author") = false \/
   exists n, Competitor.field (prop video "author") "followers" = Some (JNum n) /\ n < 5000).

(** A pin that has no metrics, no saves, or fewer than 100 saves. *)
Definition smallPin (pin : json) : Prop :=
  pin <> JNull /\
  (truthy (prop pin "metrics") = false \/
   truthy (Competitor.field (prop pin "metrics") "saves") = false \/
   exists n, Competitor.field (prop pin "metrics") "saves" = Some (JNum n) /\ n < 100).

(** A record whose payload is missing or has no results. *)
Definition noResults (item : StoredRecord) : bool :=
  match r_data item with
  | Some d =>
      negb (truthy (Some d)) ||
      match prop d "results" with
      | Some results => negb (truthy (Some results))
      | None => true
      end
  | None => true
  end.

(** The calls that track competitors by hand. *)
Inductive Tracking {Engagement : Type} : Type :=
| AddCompetitor (competitor : @Competitor.Candidate Engagement)
| UpdateCompetitor (id : string) (updates : @Competitor.Updates Engagement)
| RemoveCompetitor (id : string).

Section Trackings.
Context {Engagement Insights : Type}.
Variable oracle : Oracle.

Definition stateAfterTracking (call : @Tracking Engagement)
    (s : @Competitor.State Engagement Insights) : @Competitor.State Engagement Insights :=
  match call with
  | AddCompetitor competitor => snd (Competitor.addCompetitor oracle competitor s)
  | UpdateCompetitor id updates => snd (Competitor.updateCompetitor oracle id updates s)
  | RemoveCompetitor id => snd (Competitor.removeCompetitor id s)
  end.

Definition stateAfterTrackings (calls : list (@Tracking Engagement))
    (s : @Competitor.State Engagement Insights) : @Competitor.State Engagement Insights :=
  fold_left (fun s call => stateAfterTracking call s) calls s.

(** A call that gives no profile another id. *)
Definition keepsIds (call : @Tracking Engagement) : bool :=
  match call with
  | UpdateCompetitor _ updates =>
      match Competitor.u_id updates with Some _ => false | None => true end
  | _ => true
  end.

(** Every profile sits under its own id. *)
Definition ownIds (s : @Competitor.State Engagement Insights) : Prop :=
  forall key p, Competitor.getCompetitor key s = Some p -> Competitor.id p = key.

(** What holds of the service between two tracking calls: nothing is
    tracked twice, and the storage holds the competitor data, or nothing
    while the data is as the constructor left it. *)
Definition kept (i0 : Insights) (s : @Competitor.State Engagement Insights) : Prop :=
  available (Competitor.localStorage s) = true /\
  StoreReading.distinct
    (Obj.keys (Competitor.competitors (Competitor.competitorData s))) = true /\
  (slot (Competitor.localStorage s) = Saved (Competitor.competitorData s) \/
   (slot (Competitor.localStorage s) = NoItem /\
    Competitor.competitorData s
    = {| Competitor.competitors := []; Competitor.insights := i0 |})).
End Trackings.

End CompetitorReading.

(** ** Vocabulary of the statements about the budget allocation *)

Module BudgetReading.

(** The last entry of the prioritized niches that names [niche]. *)
Definition lastFor (niche : string) (prioritizedNiches : list Strategy.PrioritizedNiche)
  : option Strategy.PrioritizedNiche :=
  List.find (fun n => String.eqb (Strategy.pn_niche n) niche) (rev prioritizedNiches).

End BudgetReading.

(** * Properties *)

Import JS.

(** ** Rounding to hundredths *)

Lemma toFixed2_near (x : Q) : (Qabs (toFixed2 x - x) <= 1 # 200)%Q.
Proof.
  unfold toFixed2. destruct (Qle_bool 0 x) eqn:E.
  - set (k := Qfloor (x * 100 + (1 # 2))).
    pose proof (Qfloor_le (x * 100 + (1 # 2))) as H1.
    pose proof (Qlt_floor (x * 100 + (1 # 2))) as H2.
    fold k in H1, H2. rewrite inject_Z_plus in H2.
    rewrite (Qmake_Qdiv k 100). change (inject_Z 1) with 1%Q in H2.
    unfold Qdiv; change (/ inject_Z (Z.pos 100))%Q with (1 # 100)%Q.
    generalize dependent (inject_Z k). intros q H1 H2.
    apply Qabs_case; intros _; lra.
  - set (k := Qfloor (- x * 100 + (1 # 2))).
    pose proof (Qfloor_le (- x * 100 + (1 # 2))) as H1.
    pose proof (Qlt_floor (- x * 100 + (1 # 2))) as H2.
    fold k in H1, H2. rewrite inject_Z_plus in H2.
    rewrite (Qmake_Qdiv k 100). change (inject_Z 1) with 1%Q in H2.
    unfold Qdiv; change (/ inject_Z (Z.pos 100))%Q with (1 # 100)%Q.
    generalize dependent (inject_Z k). intros q H1 H2.
    apply Qabs_case; intros _; lra.
Qed.

Lemma toFixed2_hundredths (x : Q) : exists k : Z, (toFixed2 x == k # 100)%Q.
Proof.
  unfold toFixed2. destruct (Qle_bool 0 x).
  - eexists. reflexivity.
  - exists (- Qfloor (- x * 100 + (1 # 2))). reflexivity.
Qed.

Lemma Qfloor_between (y : Q) : (0 <= y <= 100 + (1 # 2))%Q -> 0 <= Qfloor y <= 100.
Proof.
  intros [Ha Hb]. split.
  - apply (Qfloor_resp_le 0 y Ha).
  - apply (Qfloor_resp_le y (100 + (1 # 2)) Hb).
Qed.

Lemma toFixed2_bounds (x : Q) : (-1 <= x <= 1)%Q -> (-1 <= toFixed2 x <= 1)%Q.
Proof.
  intros [Hl Hu]. unfold toFixed2. destruct (Qle_bool 0 x) eqn:E.
  - apply Qle_bool_iff in E.
    destruct (Qfloor_between (x * 100 + (1 # 2))) as [Ha Hb]; [split; lra|].
    revert Ha Hb. generalize (Qfloor (x * 100 + (1 # 2))). intros k Ha Hb.
    unfold Qle; simpl. lia.
  - assert (~ (0 <= x)%Q) as E' by (rewrite <- Qle_bool_iff; congruence).
    destruct (Qfloor_between (- x * 100 + (1 # 2))) as [Ha Hb]; [split; lra|].
    revert Ha Hb. generalize (Qfloor (- x * 100 + (1 # 2))). intros k Ha Hb.
    unfold Qle; simpl. lia.
Qed.

(** ** Sentiment *)

Lemma countFrom_nonneg (word : text) (t : text) :
  forall prev skip, 0 <= Trend.countFrom word prev skip t.
Proof.
  induction t as [|c rest IH]; intros prev skip; simpl; [lia|].
  destruct skip as [|k].
  - destruct (Trend.matchesWordAt word prev (c :: rest)).
    + specialize (IH (isWordChar c) (length word - 1)%nat). lia.
    + apply IH.
  - apply IH.
Qed.

Lemma countAll_nonneg (words : list string) (t : text) : 0 <= Trend.countAll words t.
Proof.
  unfold Trend.countAll.
  assert (forall acc, 0 <= acc ->
            0 <= fold_left (fun a w => a + Trend.countMatches w t) words acc) as H.
  { induction words as [|w ws IH]; intros acc Hacc; simpl; [exact Hacc|].
    apply IH. pose proof (countFrom_nonneg (chars w) t false 0%nat).
    unfold Trend.countMatches. lia. }
  apply H. lia.
Qed.

(** *** The regular expression counts whole words *)

Lemma isWordChar_lowerChar (c : ascii) : isWordChar (lowerChar c) = isWordChar c.
Proof. destruct c as [[] [] [] [] [] [] [] []]; vm_compute; reflexivity. Qed.

Lemma startsWithIgnoreCase_word (word : text) :
  forallb isWordChar word = true ->
  forall t, Trend.startsWithIgnoreCase word t = true ->
            forallb isWordChar (take (length word) t) = true.
Proof.
  induction word as [|a word IH]; intros Hw t Hs; [reflexivity|].
  destruct t as [|b t]; [discriminate|].
  cbn [forallb] in Hw. apply andb_prop in Hw as [Ha Hw].
  cbn [Trend.startsWithIgnoreCase] in Hs.
  destruct (Ascii.eqb_spec (lowerChar a) (lowerChar b)) as [Heq|]; [|discriminate].
  cbn [length take forallb]. rewrite (IH Hw t Hs), andb_true_r.
  rewrite <- (isWordChar_lowerChar b), <- Heq, isWordChar_lowerChar. exact Ha.
Qed.

Lemma fold_last_word (l : text) (prev : bool) :
  l <> [] -> forallb isWordChar l = true ->
  fold_left (fun _ c => isWordChar c) l prev = true.
Proof.
  revert prev. induction l as [|c l IH]; intros prev Hne Hall; [contradiction|].
  cbn [forallb] in Hall. apply andb_prop in Hall as [Hc Hl]. cbn [fold_left].
  destruct l as [|d l]; [exact Hc|]. apply IH; [discriminate|exact Hl].
Qed.

Lemma matchesWordAt_whole (word : text) (prev : bool) (t : text) :
  word <> [] -> forallb isWordChar word = true ->
  Trend.matchesWordAt word prev t = Reading.wholeWordAt word prev t.
Proof.
  intros Hne Hw. unfold Trend.matchesWordAt, Reading.wholeWordAt.
  destruct (Trend.startsWithIgnoreCase word t) eqn:Hs;
    [|rewrite !andb_false_r; reflexivity].
  pose proof (startsWithIgnoreCase_word word Hw t Hs) as Hall.
  destruct word as [|a word]; [contradiction|]. destruct t as [|b t]; [discriminate|].
  rewrite fold_last_word; [|discriminate|exact Hall].
  cbn [length take forallb] in Hall. apply andb_prop in Hall as [Hb _].
  cbn [Trend.headIsWord]. rewrite Hb. destruct prev; reflexivity.
Qed.

Lemma countFrom_skipping (word : text) :
  word <> [] -> forallb isWordChar word = true ->
  forall t prev k,
    (k = 0%nat \/ (prev = true /\ forallb isWordChar (take k t) = true)) ->
    Trend.countFrom word prev k t = Reading.wholeWordOccurrences word prev t.
Proof.
  intros Hne Hw. induction t as [|c rest IH]; intros prev k Hk; [reflexivity|].
  cbn [Trend.countFrom Reading.wholeWordOccurrences].
  destruct k as [|k].
  - rewrite (matchesWordAt_whole word prev (c :: rest) Hne Hw).
    destruct (Reading.wholeWordAt word prev (c :: rest)) eqn:Hat.
    + unfold Reading.wholeWordAt in Hat.
      apply andb_prop in Hat as [Hat _]. apply andb_prop in Hat as [_ Hs].
      pose proof (startsWithIgnoreCase_word word Hw (c :: rest) Hs) as Hall.
      destruct word as [|a word]; [contradiction|].
      cbn [length take forallb] in Hall. apply andb_prop in Hall as [Hc Hrest].
      replace (length (a :: word) - 1)%nat with (length word) by (cbn [length]; lia).
      rewrite (IH (isWordChar c) (length word)).
      * reflexivity.
      * right. split; [exact Hc|exact Hrest].
    + rewrite (IH (isWordChar c) 0%nat) by (left; reflexivity). reflexivity.
  - destruct Hk as [|[-> Hall]]; [discriminate|].
    cbn [take forallb] in Hall. apply andb_prop in Hall as [Hc Hrest].
    unfold Reading.wholeWordAt at 1. cbn [negb andb].
    rewrite (IH (isWordChar c) k).
    + reflexivity.
    + destruct k as [|k]; [left; reflexivity|]. right. split; assumption.
Qed.

(** What [text.match(/\bword\b/gi)] counts for a word of the two lists is
    its whole-word occurrences. *)
Lemma countAll_wholeWords (words : list string) (t : text) :
  forallb (fun w => negb (String.eqb w EmptyString) && forallb isWordChar (chars w)) words
  = true ->
  Trend.countAll words t = Reading.occurrencesOfAll words t.
Proof.
  unfold Trend.countAll, Reading.occurrencesOfAll. generalize 0.
  induction words as [|w words IH]; intros acc Hall; [reflexivity|].
  cbn [forallb] in Hall. apply andb_prop in Hall as [Hw Hall].
  apply andb_prop in Hw as [Hne Hw]. cbn [fold_left].
  unfold Trend.countMatches at 2.
  rewrite (countFrom_skipping (chars w)); [apply IH, Hall| |exact Hw|left; reflexivity].
  destruct w; [discriminate|]. discriminate.
Qed.

Lemma ratio_bounds (p n : Z) :
  0 <= p -> 0 <= n -> 0 < p + n ->
  (-1 <= inject_Z (p - n) / inject_Z (p + n) <= 1)%Q.
Proof.
  intros Hp Hn Ht.
  assert (0 < inject_Z (p + n))%Q as Hpos.
  { change 0%Q with (inject_Z 0). rewrite <- Zlt_Qlt. exact Ht. }
  assert (0 <= inject_Z p)%Q as Hp'.
  { change 0%Q with (inject_Z 0). rewrite <- Zle_Qle. exact Hp. }
  assert (0 <= inject_Z n)%Q as Hn'.
  { change 0%Q with (inject_Z 0). rewrite <- Zle_Qle. exact Hn. }
  split.
  - apply Qle_shift_div_l; [exact Hpos|].
    rewrite inject_Z_plus. unfold Z.sub. rewrite inject_Z_plus, inject_Z_opp. lra.
  - apply Qle_shift_div_r; [exact Hpos|].
    rewrite inject_Z_plus. unfold Z.sub. rewrite inject_Z_plus, inject_Z_opp. lra.
Qed.


Lemma sentimentScore_cases (p n : Z) :
  0 <= p -> 0 <= n ->
  ((p + n = 0 /\ Trend.sentimentScore p n = 0%Q) \/
   (0 < p + n /\
    Trend.sentimentScore p n = toFixed2 (inject_Z (p - n) / inject_Z (p + n)) /\
    (Qabs (Trend.sentimentScore p n - inject_Z (p - n) / inject_Z (p + n)) <= 1 # 200)%Q)) /\
  (exists k : Z, (Trend.sentimentScore p n == k # 100)%Q) /\
  (-1 <= Trend.sentimentScore p n <= 1)%Q.
Proof.
  intros Hp Hn. unfold Trend.sentimentScore. cbv zeta.
  destruct (Z.eqb_spec (p + n) 0) as [Hz|Hnz].
  - split; [left; split; [exact Hz|reflexivity]|].
    split; [exists 0; reflexivity|]. split; discriminate.
  - assert (0 < p + n) as Ht by lia.
    pose proof (ratio_bounds p n Hp Hn Ht) as Hb.
    split; [right; split; [exact Ht|split; [reflexivity|]]|].
    + apply toFixed2_near.
    + split; [apply toFixed2_hundredths|].
      apply toFixed2_bounds. exact Hb.
Qed.

(** C3, as amended.  [calculateSentiment] is a function of the lower-cased
    serialised payload alone.  With [pos] and [neg] the numbers of
    whole-word matches of the positive and of the negative words, it returns
    exactly [0] when both are zero, and otherwise [(pos - neg) / (pos + neg)]
    rounded to two decimals: a multiple of one hundredth within half a
    hundredth of the ratio.  The value always lies in [[-1, 1]]. *)
Theorem calculateSentiment_rounded_ratio (results : json) :
  let t := toLowerCase (stringify results) in
  let pos := Trend.positiveCount t in
  let neg := Trend.negativeCount t in
  let sentiment := Trend.calculateSentiment results in
  pos = Reading.occurrencesOfAll Trend.positiveWords t /\
  neg = Reading.occurrencesOfAll Trend.negativeWords t /\
  0 <= pos /\ 0 <= neg /\
  ((pos + neg = 0 /\ sentiment = 0%Q) \/
   (0 < pos + neg /\
    (Qabs (sentiment - inject_Z (pos - neg) / inject_Z (pos + neg)) <= 1 # 200)%Q)) /\
  (exists k : Z, (sentiment == k # 100)%Q) /\
  (-1 <= sentiment <= 1)%Q.
Proof.
  cbv zeta. unfold Trend.calculateSentiment. cbv zeta.
  generalize (toLowerCase (stringify results)). intros t.
  split; [apply countAll_wholeWords; reflexivity|].
  split; [apply countAll_wholeWords; reflexivity|].
  pose proof (countAll_nonneg Trend.positiveWords t) as Hp.
  pose proof (countAll_nonneg Trend.negativeWords t) as Hn.
  unfold Trend.positiveCount, Trend.negativeCount.
  revert Hp Hn.
  generalize (Trend.countAll Trend.positiveWords t) (Trend.countAll Trend.negativeWords t).
  intros p n Hp Hn.
  split; [exact Hp|]. split; [exact Hn|].
  destruct (sentimentScore_cases p n Hp Hn) as ([[Hz H0]|(Ht & _ & Hnear)] & Hk & Hb).
  - split; [left; split; assumption|]. split; assumption.
  - split; [right; split; assumption|]. split; assumption.
Qed.

(** C3, refuted as stated: two words of praise and one of blame give
    0.33, not one third. *)
Lemma calculateSentiment_not_exact_ratio :
  Trend.positiveCount (toLowerCase (stringify Sample.praise)) = 2 /\
  Trend.negativeCount (toLowerCase (stringify Sample.praise)) = 1 /\
  (Trend.calculateSentiment Sample.praise == 33 # 100)%Q /\
  ~ (Trend.calculateSentiment Sample.praise == inject_Z (2 - 1) / inject_Z (2 + 1))%Q.
Proof.
  split; [vm_compute; reflexivity|]. split; [vm_compute; reflexivity|].
  split; vm_compute; congruence.
Qed.

(** ** Text *)

Section TextFacts.
Implicit Types (t p u w : text).

Lemma startsWith_prefix p t : startsWith p t = true <-> exists w, t = p ++ w.
Proof.
  revert t. induction p as [|a p IH]; intros t; simpl.
  - split; [intros _; exists t; reflexivity|reflexivity].
  - destruct t as [|b t].
    + split; [discriminate|intros [w Hw]; discriminate].
    + destruct (Ascii.eqb_spec a b) as [->|Hne].
      * rewrite IH. split; intros [w Hw]; exists w; congruence.
      * split; [discriminate|intros [w Hw]; congruence].
Qed.

Lemma includes_infix t p : includes t p = true <-> exists u w, t = u ++ p ++ w.
Proof.
  induction t as [|c t IH]; simpl.
  - rewrite orb_false_r, startsWith_prefix. split.
    + intros [w Hw]. exists [], w. exact Hw.
    + intros (u & w & H). destruct u as [|x u]; [exists w; exact H|discriminate].
  - rewrite orb_true_iff, startsWith_prefix, IH. split.
    + intros [[w Hw]|(u & w & Hw)].
      * exists [], w. exact Hw.
      * exists (c :: u), w. rewrite Hw. reflexivity.
    + intros (u & w & H). destruct u as [|x u].
      * left. exists w. exact H.
      * right. exists u, w. simpl in H. congruence.
Qed.

Lemma includes_inside t p a b :
  includes t p = true -> includes (a ++ t ++ b) p = true.
Proof.
  rewrite !includes_infix. intros (u & w & ->).
  exists (a ++ u), (w ++ b). rewrite <- !app_assoc. reflexivity.
Qed.

Lemma toLowerCase_app t u : toLowerCase (t ++ u) = toLowerCase t ++ toLowerCase u.
Proof. apply map_app. Qed.

Lemma escapeChar_letter (c : ascii) : isLetter c = true -> escapeChar c = [c].
Proof.
  destruct c as [[] [] [] [] [] [] [] []]; vm_compute; intros H;
    first [discriminate H | reflexivity].
Qed.

Lemma lowerChar_letter (c : ascii) : isLower (lowerChar c) = true -> isLetter c = true.
Proof.
  destruct c as [[] [] [] [] [] [] [] []]; vm_compute; intros H;
    first [discriminate H | reflexivity].
Qed.

Lemma escape_letters p : forallb isLetter p = true -> flat_map escapeChar p = p.
Proof.
  induction p as [|c p IH]; simpl; [reflexivity|].
  rewrite andb_true_iff. intros [Hc Hp]. rewrite escapeChar_letter, IH by assumption.
  reflexivity.
Qed.

Lemma lower_letters p :
  forallb isLower (toLowerCase p) = true -> forallb isLetter p = true.
Proof.
  induction p as [|c p IH]; simpl; [reflexivity|].
  rewrite !andb_true_iff. intros [Hc Hp]. split; [apply lowerChar_letter, Hc|apply IH, Hp].
Qed.

(** A lower-case word found in a string is found in the string as
    [JSON.stringify] quotes it. *)
Lemma includes_quote (s : string) p :
  forallb isLower p = true ->
  includes (toLowerCase (chars s)) p = true ->
  includes (toLowerCase (quote s)) p = true.
Proof.
  intros Hp. rewrite !includes_infix. intros (u & w & H).
  unfold toLowerCase in H. apply map_eq_app in H as (u' & r & Hs & Hu & Hr).
  apply map_eq_app in Hr as (p' & w' & Hr & Hp' & Hw).
  unfold quote. rewrite Hs, Hr, !flat_map_app.
  rewrite (escape_letters p').
  - exists (toLowerCase (dquote :: flat_map escapeChar u')),
           (toLowerCase (flat_map escapeChar w' ++ [dquote])).
    unfold toLowerCase. cbn [map]. rewrite !map_app, Hp'. cbn [map app].
    rewrite <- !app_assoc. reflexivity.
  - apply lower_letters. unfold toLowerCase. rewrite Hp'. exact Hp.
Qed.

Lemma join_inside (sep x : text) (parts : list text) :
  In x parts -> exists a b, join sep parts = a ++ x ++ b.
Proof.
  induction parts as [|y rest IH]; [intros []|].
  intros [->|Hin].
  - destruct rest as [|z rest].
    + exists [], []. simpl. rewrite app_nil_r. reflexivity.
    + exists [], (sep ++ join sep (z :: rest)). reflexivity.
  - destruct (IH Hin) as (a & b & Hj). destruct rest as [|z rest]; [destruct Hin|].
    exists (y ++ sep ++ a), b.
    change (join sep (y :: z :: rest)) with (y ++ sep ++ join sep (z :: rest)).
    rewrite Hj, <- !app_assoc. reflexivity.
Qed.

Lemma lookupField_In (k : string) (fields : list (string * json)) (v : json) :
  lookupField k fields = Some v -> In (k, v) fields.
Proof.
  induction fields as [|[k' v'] rest IH]; simpl; [discriminate|].
  destruct (String.eqb_spec k k') as [->|_].
  - intros [= ->]. left. reflexivity.
  - intros H. right. apply IH, H.
Qed.

(** What is found in an element or in a field is found in the whole. *)
Lemma includes_element (v : json) (items : list json) p :
  In v items ->
  includes (toLowerCase (stringify v)) p = true ->
  includes (toLowerCase (stringify (JArr items))) p = true.
Proof.
  intros Hin Hp. cbn [stringify].
  destruct (join_inside (chars ",") (stringify v) (map stringify items)) as (a & b & ->).
  { apply in_map, Hin. }
  rewrite !toLowerCase_app.
  apply (includes_inside _ _ (toLowerCase (chars "[")) (toLowerCase (chars "]"))).
  apply (includes_inside _ _ (toLowerCase a) (toLowerCase b)).
  exact Hp.
Qed.

Lemma includes_field (k : string) (v : json) (fields : list (string * json)) p :
  lookupField k fields = Some v ->
  includes (toLowerCase (stringify v)) p = true ->
  includes (toLowerCase (stringify (JObj fields))) p = true.
Proof.
  intros Hk Hp. apply lookupField_In in Hk. cbn [stringify].
  destruct (join_inside (chars ",") (quote k ++ chars ":" ++ stringify v)
              (map (fun kv => quote (fst kv) ++ chars ":" ++ stringify (snd kv)) fields))
    as (a & b & ->).
  { apply (in_map (fun kv => quote (fst kv) ++ chars ":" ++ stringify (snd kv)) _ _ Hk). }
  rewrite !toLowerCase_app.
  apply (includes_inside _ _ (toLowerCase (chars "{")) (toLowerCase (chars "}"))).
  apply (includes_inside _ _ (toLowerCase a) (toLowerCase b)).
  rewrite (app_assoc (toLowerCase (quote k))).
  rewrite <- (app_nil_r (toLowerCase (stringify v))).
  apply includes_inside. exact Hp.
Qed.
End TextFacts.

(** ** Objects in insertion order *)

Section ObjFacts.
Context {V : Type}.
Implicit Types (o : Obj.t V) (k : string) (v : V).

Lemma get_set_eq o k v : Obj.get (Obj.set o k v) k = Some v.
Proof.
  induction o as [|[k' v'] rest IH]; simpl.
  - rewrite String.eqb_refl. reflexivity.
  - destruct (String.eqb k k') eqn:E; simpl; rewrite E; [reflexivity|exact IH].
Qed.

Lemma get_set_ne o k k' v : k <> k' -> Obj.get (Obj.set o k v) k' = Obj.get o k'.
Proof.
  intros Hne. induction o as [|[k0 v0] rest IH]; simpl.
  - destruct (String.eqb_spec k' k); [congruence|reflexivity].
  - destruct (String.eqb_spec k k0) as [->|Hk]; simpl.
    + destruct (String.eqb_spec k' k0); [congruence|reflexivity].
    + destruct (String.eqb k' k0); [reflexivity|exact IH].
Qed.

Lemma get_set o k k' v :
  Obj.get (Obj.set o k v) k' = if String.eqb k k' then Some v else Obj.get o k'.
Proof.
  destruct (String.eqb_spec k k') as [->|Hne].
  - apply get_set_eq.
  - apply get_set_ne. exact Hne.
Qed.

Lemma get_keys o k : In k (Obj.keys o) -> is_Some (Obj.get o k).
Proof.
  induction o as [|[k0 v0] rest IH]; simpl; [tauto|].
  intros [->|Hin].
  - rewrite String.eqb_refl. eauto.
  - destruct (String.eqb k k0); [eauto|apply IH, Hin].
Qed.

Lemma get_None_keys o k : Obj.get o k = None -> ~ In k (Obj.keys o).
Proof.
  intros Hnone Hin. apply get_keys in Hin. rewrite Hnone in Hin.
  destruct Hin as [? ?]. discriminate.
Qed.

(** A store under a new key adds one entry, at the end. *)
Lemma set_fresh o k v : Obj.get o k = None -> Obj.set o k v = o ++ [(k, v)].
Proof.
  induction o as [|[k0 v0] rest IH]; simpl; [reflexivity|].
  destruct (String.eqb k k0); [discriminate|].
  intros H. rewrite IH by exact H. reflexivity.
Qed.

(** A store under a key that is there keeps the number of entries. *)
Lemma set_length_present o k v :
  is_Some (Obj.get o k) -> length (Obj.set o k v) = length o.
Proof.
  induction o as [|[k0 v0] rest IH]; simpl.
  - intros [? ?]. discriminate.
  - destruct (String.eqb k k0); simpl; [reflexivity|].
    intros H. rewrite IH by exact H. reflexivity.
Qed.

Lemma get_remove_ne o k k' : k <> k' -> Obj.get (Obj.remove o k) k' = Obj.get o k'.
Proof.
  intros Hne. induction o as [|[k0 v0] rest IH]; simpl; [reflexivity|].
  destruct (String.eqb_spec k k0) as [->|Hk]; simpl.
  - destruct (String.eqb_spec k' k0); [congruence|reflexivity].
  - destruct (String.eqb k' k0); [reflexivity|exact IH].
Qed.
End ObjFacts.

(** ** Effects *)

Section EffFacts.
Import Eff.
Context {S X : Type}.

(** A relation between the stores before and after every callback holds
    between the stores before and after the loop. *)
Lemma forEach_related (R : S -> S -> Prop) (f : X -> M S unit) (xs : list X) :
  (forall s, R s s) ->
  (forall s1 s2 s3, R s1 s2 -> R s2 s3 -> R s1 s3) ->
  (forall x s, R s (snd (f x s))) ->
  forall s, R s (snd (forEach f xs s)).
Proof.
  intros Hrefl Htrans Hstep.
  induction xs as [|x rest IH]; intros s; simpl.
  - apply Hrefl.
  - unfold bind. specialize (Hstep x s).
    destruct (f x s) as [[u|e] s1]; simpl in *.
    + eapply Htrans; [exact Hstep|apply IH].
    + exact Hstep.
Qed.
End EffFacts.

(** ** The trend engine *)

Arguments Trend.calculateSentiment : simpl never.
Arguments Trend.extractKeywords : simpl never.
Arguments Trend.pushRelated : simpl never.
Arguments Trend.pushNew : simpl never.
Arguments Trend.pushSource : simpl never.
Arguments Trend.pushNewProducts : simpl never.
Arguments Trend.matchesNiche : simpl never.
Arguments toFixed2 : simpl never.

Section TrendFacts.
Import Eff Trend Reading.
Context {Timeframes : Type}.
Variable analyzeByTimeframeOn : list StoredRecord -> Timeframes -> Report * Timeframes.
Variable oracle : Oracle.

Abbreviation State := (@Trend.State Timeframes).

Lemma sameHeld_refl {A} (m : gmap string A) : sameHeld m m.
Proof. intros k _. reflexivity. Qed.

Lemma sameHeld_trans {A} (m1 m2 m3 : gmap string A) :
  sameHeld m1 m2 -> sameHeld m2 m3 -> sameHeld m1 m3.
Proof. intros H1 H2 k Hk. rewrite (H1 k Hk). apply H2, Hk. Qed.

Lemma sameHeld_sym {A} (m1 m2 : gmap string A) : sameHeld m1 m2 -> sameHeld m2 m1.
Proof. intros H k Hk. symmetry. apply H, Hk. Qed.

Lemma sameHeld_insert {A} (m : gmap string A) (q : string) (a : A) :
  inherited q = false \/ is_Some (m !! q) -> sameHeld m (<[q := a]> m).
Proof.
  intros Hq k Hk. destruct (String.eqb_spec q k) as [<-|Hne].
  - rewrite lookup_insert_eq. destruct Hq as [Hq|Hq]; [congruence|].
    split; [eauto|intros _; exact Hq].
  - rewrite lookup_insert_ne by exact Hne. reflexivity.
Qed.

Lemma held_decide {A} (m m' : gmap string A) (k : string) :
  sameHeld m m' -> inherited k = true ->
  bool_decide (is_Some (m !! k)) = bool_decide (is_Some (m' !! k)).
Proof. intros H Hk. apply bool_decide_ext, H, Hk. Qed.

Lemma keywordHandling_sameHeld (held held' : gmap string KeywordData) (item : StoredRecord) :
  sameHeld held held' -> keywordHandling held item = keywordHandling held' item.
Proof.
  intros H. unfold keywordHandling.
  destruct (r_data item) as [[| | | | |fields]|]; try reflexivity.
  destruct (lookupField "results" fields) as [results|]; [|reflexivity].
  destruct (lookupField "query" fields) as [[| | |q| |]|]; try reflexivity.
  destruct (truthy (Some results) && truthy (Some (JStr q))); [|reflexivity].
  cbv zeta. destruct (inherited (str (toLowerCase (chars q)))) eqn:Hk; [|reflexivity].
  rewrite (held_decide held held' _ H Hk). reflexivity.
Qed.

Lemma reached_ext {X A} (f g : X -> Handling A) (data : list X) :
  (forall x, f x = g x) -> reached f data = reached g data /\ aborted f data = aborted g data.
Proof.
  intros H. unfold aborted. induction data as [|x rest [IH1 IH2]]; [split; reflexivity|].
  cbn [reached existsb]. rewrite (H x), IH1, IH2. split; reflexivity.
Qed.

Lemma keywordHits_sameHeld (held held' : gmap string KeywordData) (q : string)
    (data : list StoredRecord) :
  sameHeld held held' ->
  keywordHits held q data = keywordHits held' q data /\
  aborted (keywordHandling held) data = aborted (keywordHandling held') data.
Proof.
  intros H. unfold keywordHits.
  destruct (reached_ext (keywordHandling held) (keywordHandling held') data) as [-> ->].
  - intros x. apply keywordHandling_sameHeld, H.
  - split; reflexivity.
Qed.

Lemma keywordItem_handling (item : StoredRecord) (s : State) :
  match keywordHandling (keywords (trendData s)) item with
  | Skipped => keywordItem oracle item s = (Ret tt, s)
  | Fails => exists e, keywordItem oracle item s = (Throw e, s)
  | Handled (q, source, results) =>
      keywordItem oracle item s = touchKeyword oracle q source results s /\
      (inherited q = false \/ is_Some (keywords (trendData s) !! q))
  end.
Proof.
  unfold keywordItem, keywordHandling.
  destruct (r_data item) as [d|]; [|reflexivity].
  destruct d as [| b | n | t | items | fields];
    try (simpl; repeat case_match; reflexivity).
  change (truthy (Some (JObj fields))) with true. cbn [negb prop].
  destruct (lookupField "results" fields) as [results|]; [|reflexivity].
  destruct (truthy (Some results)); cbn [negb orb andb].
  - destruct (lookupField "query" fields) as [[| b | n | q | qi | qf]|];
      try reflexivity; try (eexists; reflexivity).
    + destruct b; [eexists|]; reflexivity.
    + simpl. destruct (n =? 0); [|eexists]; reflexivity.
    + cbn [truthy]. destruct (q =? "")%string; cbn [negb]; [reflexivity|].
      cbv zeta. set (query := str (toLowerCase (chars q))).
      destruct (inherited query) eqn:Hk; cbn [andb].
      * destruct (keywords (trendData s) !! query) as [k|] eqn:Hq.
        -- rewrite bool_decide_eq_true_2 by eauto. cbn [negb].
           split; [reflexivity|right; eauto].
        -- rewrite bool_decide_eq_false_2 by (intros [? ?]; discriminate). cbn [negb].
           unfold touchKeyword, bind, get, ret. rewrite Hq, Hk. cbn. rewrite Hq.
           eexists. reflexivity.
      * split; [reflexivity|left; exact Hk].
  - destruct (lookupField "query" fields) as [[| b | n | q | qi | qf]|];
      reflexivity.
Qed.

Lemma touchKeyword_effect (q source : string) (results : json) (s : State) :
  inherited q = false \/ is_Some (keywords (trendData s) !! q) ->
  exists s' k',
    touchKeyword oracle q source results s = (Ret tt, s') /\
    keywords (trendData s') = <[q := k']> (keywords (trendData s)) /\
    mentions k' = mentionsOf s q + 1 /\
    sentiment k' = calculateSentiment results /\
    relatedKeywords k' = pushRelated q (relatedOf s q) (extractKeywords results) /\
    sameButKeywords s s'.
Proof.
  intros Hheld.
  unfold touchKeyword, mentionsOf, relatedOf, sameButKeywords, bind, get, modify, ret,
    newDate, readOracle.
  destruct (keywords (trendData s) !! q) as [k|] eqn:Hq; simpl.
  - rewrite Hq. simpl. eexists _, _. split; [reflexivity|]. simpl.
    repeat split; reflexivity.
  - destruct Hheld as [->|[? ?]]; [|discriminate].
    simpl. rewrite lookup_insert_eq. simpl. eexists _, _. split; [reflexivity|]. simpl.
    rewrite insert_insert_eq. repeat split; reflexivity.
Qed.

Lemma sameButKeywords_refl (s : State) : sameButKeywords s s.
Proof. repeat split. Qed.

Lemma sameButKeywords_trans (s1 s2 s3 : State) :
  sameButKeywords s1 s2 -> sameButKeywords s2 s3 -> sameButKeywords s1 s3.
Proof.
  unfold sameButKeywords. intros (a1 & a2 & a3 & a4 & a5) (b1 & b2 & b3 & b4 & b5).
  repeat split; congruence.
Qed.

Lemma keywordHits_cons (held : gmap string KeywordData) (q : string) (item : StoredRecord)
    (rest : list StoredRecord) :
  keywordHits held q (item :: rest) =
  match keywordHandling held item with
  | Skipped => keywordHits held q rest
  | Fails => []
  | Handled (q0, _, results) =>
      if String.eqb q0 q then results :: keywordHits held q rest
      else keywordHits held q rest
  end.
Proof.
  unfold keywordHits. simpl.
  destruct (keywordHandling held item) as [| |[[q0 src] results]]; simpl; try reflexivity.
  destruct (String.eqb q0 q); reflexivity.
Qed.

Lemma keyword_written (s s1 : State) (q : string) (k' : KeywordData) :
  keywords (trendData s1) = <[q := k']> (keywords (trendData s)) ->
  mentionsOf s1 q = mentions k' /\
  sentimentOf s1 q = Some (sentiment k') /\
  relatedOf s1 q = relatedKeywords k'.
Proof.
  intros Hk. unfold mentionsOf, sentimentOf, relatedOf.
  rewrite Hk, lookup_insert_eq. repeat split.
Qed.

Lemma keyword_untouched (s s1 : State) (q0 q : string) (k' : KeywordData) :
  keywords (trendData s1) = <[q0 := k']> (keywords (trendData s)) ->
  q0 <> q ->
  mentionsOf s1 q = mentionsOf s q /\
  sentimentOf s1 q = sentimentOf s q /\
  relatedOf s1 q = relatedOf s q.
Proof.
  intros Hk Hne. unfold mentionsOf, sentimentOf, relatedOf.
  rewrite Hk, lookup_insert_ne by exact Hne. repeat split.
Qed.

Lemma sentimentAfter_cons (results : json) (hits : list json) (before : option Q) :
  sentimentAfter (results :: hits) before =
  sentimentAfter hits (Some (calculateSentiment results)).
Proof.
  unfold sentimentAfter. destruct hits as [|r1 l1]; [reflexivity|].
  rewrite last_cons. destruct (last (r1 :: l1)) eqn:Hlast; [reflexivity|].
  apply last_None in Hlast. discriminate.
Qed.

Lemma keywordLoop_effect (data : list StoredRecord) :
  forall s : State, exists s' e,
    let held := keywords (trendData s) in
    forEach (keywordItem oracle) data s =
      ((if aborted (keywordHandling held) data then Throw e else Ret tt), s') /\
    sameButKeywords s s' /\
    sameHeld held (keywords (trendData s')) /\
    forall q,
      mentionsOf s' q = mentionsOf s q + Z.of_nat (length (keywordHits held q data)) /\
      sentimentOf s' q = sentimentAfter (keywordHits held q data) (sentimentOf s q) /\
      relatedOf s' q = relatedAfter q (keywordHits held q data) (relatedOf s q).
Proof.
  induction data as [|item rest IH]; intros s; cbv zeta.
  - exists s, EmptyString. split; [reflexivity|]. split; [apply sameButKeywords_refl|].
    split; [apply sameHeld_refl|].
    intros q. unfold keywordHits; simpl. repeat split. lia.
  - cbn [forEach]. unfold bind.
    pose proof (keywordItem_handling item s) as Hitem.
    unfold aborted. cbn [existsb]. fold (aborted (keywordHandling (keywords (trendData s))) rest).
    destruct (keywordHandling (keywords (trendData s)) item) as [| |[[q0 src] results]] eqn:Hh;
      cbn [failing orb].
    + rewrite Hitem. destruct (IH s) as (s' & e & Hrun & Hsame & Hheld & Hq).
      exists s', e. split; [exact Hrun|]. split; [exact Hsame|]. split; [exact Hheld|].
      intros q. rewrite keywordHits_cons, Hh. apply Hq.
    + destruct Hitem as [e ->].
      exists s, e. split; [reflexivity|]. split; [apply sameButKeywords_refl|].
      split; [apply sameHeld_refl|].
      intros q. rewrite keywordHits_cons, Hh. simpl. repeat split. lia.
    + destruct Hitem as [-> Hown].
      destruct (touchKeyword_effect q0 src results s Hown)
        as (s1 & k' & Hrun1 & Hk & Hm & Hs & Hr & Hsame1).
      rewrite Hrun1.
      assert (sameHeld (keywords (trendData s)) (keywords (trendData s1))) as Hheld1
        by (rewrite Hk; apply sameHeld_insert, Hown).
      destruct (IH s1) as (s' & e & Hrun & Hsame & Hheld & Hq).
      cbv zeta in Hrun, Hheld, Hq.
      assert (forall q, keywordHits (keywords (trendData s1)) q rest
                        = keywordHits (keywords (trendData s)) q rest) as Hhits
        by (intros q; symmetry; apply keywordHits_sameHeld, Hheld1).
      destruct (keywordHits_sameHeld _ _ EmptyString rest Hheld1) as [_ <-] in Hrun.
      exists s', e. split; [exact Hrun|].
      split; [eapply sameButKeywords_trans; eassumption|].
      split; [eapply sameHeld_trans; eassumption|].
      intros q. rewrite keywordHits_cons, Hh.
      destruct (Hq q) as (Hq1 & Hq2 & Hq3). rewrite Hhits in Hq1, Hq2, Hq3.
      rewrite Hq1, Hq2, Hq3.
      destruct (String.eqb_spec q0 q) as [->|Hne].
      * destruct (keyword_written s s1 q k' Hk) as (-> & -> & ->).
        rewrite Hm, Hs, Hr, sentimentAfter_cons. cbn [length].
        repeat split. lia.
      * destruct (keyword_untouched s s1 q0 q k' Hk Hne) as (-> & -> & ->).
        repeat split.
Qed.

Lemma analyzeByKeyword_effect (data : list StoredRecord) (s : State) :
  let held := keywords (trendData s) in
  exists r s',
    analyzeByKeyword oracle data s = (Ret r, s') /\
    success r = negb (aborted (keywordHandling held) data) /\
    sameButKeywords s s' /\
    sameHeld held (keywords (trendData s')) /\
    forall q,
      mentionsOf s' q = mentionsOf s q + Z.of_nat (length (keywordHits held q data)) /\
      sentimentOf s' q = sentimentAfter (keywordHits held q data) (sentimentOf s q) /\
      relatedOf s' q = relatedAfter q (keywordHits held q data) (relatedOf s q).
Proof.
  cbv zeta. destruct (keywordLoop_effect data s) as (s' & e & Hrun & Hsame & Hheld & Hq).
  cbv zeta in Hrun, Hheld, Hq.
  unfold analyzeByKeyword, tryCatch, bind. rewrite Hrun.
  destruct (aborted (keywordHandling (keywords (trendData s))) data); eexists _, s';
    (split; [reflexivity|]); (split; [reflexivity|]);
    (split; [assumption|]); split; assumption.
Qed.

(** *** The by-niche pass *)

Lemma sameButTick_refl (s : State) : sameButTick s s.
Proof. repeat split. Qed.

Lemma sameButTick_trans (s1 s2 s3 : State) :
  sameButTick s1 s2 -> sameButTick s2 s3 -> sameButTick s1 s3.
Proof.
  unfold sameButTick. intros (a1 & a2 & a3) (b1 & b2 & b3). repeat split; congruence.
Qed.

Lemma readOracle_tick {A} (f : nat -> A) (s : State) :
  exists s', readOracle f s = (Ret (f (tick s)), s') /\ sameButTick s s'.
Proof. eexists. split; [reflexivity|]. repeat split. Qed.

Lemma member_tick (result : json) (k : string) (s : State) :
  exists o, Trend.member result k s = (o, s).
Proof. destruct result; eexists; reflexivity. Qed.

Lemma productOf_tick (result : json) (s : State) :
  exists o s', productOf oracle result s = (o, s') /\ sameButTick s s'.
Proof.
  unfold productOf, bind, ret, newDate, readOracle.
  destruct result; simpl; try (eexists _, _; split; [reflexivity|apply sameButTick_refl]);
    repeat case_match; simplify_eq/=;
    eexists _, _; (split; [reflexivity|]); repeat split.
Qed.

Lemma collectProducts_tick (items : list json) :
  forall acc (s : State),
    exists o s', collectProducts oracle items acc s = (o, s') /\ sameButTick s s'.
Proof.
  induction items as [|result rest IH]; intros acc s.
  - eexists _, _. split; [reflexivity|apply sameButTick_refl].
  - cbn [collectProducts]. unfold bind.
    destruct (member_tick result "title" s) as [o1 ->].
    destruct o1 as [title|e]; [|eexists _, _; split; [reflexivity|apply sameButTick_refl]].
    destruct (member_tick result "name" s) as [o2 ->].
    destruct o2 as [name|e]; [|eexists _, _; split; [reflexivity|apply sameButTick_refl]].
    destruct (truthy (orElse title name)).
    + destruct (productOf_tick result s) as (o3 & s1 & -> & H1).
      destruct o3 as [product|e]; [|eexists _, _; split; [reflexivity|exact H1]].
      destruct (IH (acc ++ [product]) s1) as (o & s' & -> & H2).
      eexists _, _. split; [reflexivity|]. eapply sameButTick_trans; eassumption.
    + apply IH.
Qed.

Lemma extractProducts_tick (results : json) (s : State) :
  exists ps s', extractProducts oracle results s = (Ret ps, s') /\ sameButTick s s'.
Proof.
  unfold extractProducts, tryCatch, ret.
  destruct results; try (eexists _, _; split; [reflexivity|apply sameButTick_refl]).
  destruct (collectProducts_tick items [] s) as (o & s' & -> & H).
  destruct o; eexists _, _; (split; [reflexivity|exact H]).
Qed.

Lemma sameButNiches_refl (s : State) : sameButNiches s s.
Proof. repeat split. Qed.

Lemma sameButNiches_trans (s1 s2 s3 : State) :
  sameButNiches s1 s2 -> sameButNiches s2 s3 -> sameButNiches s1 s3.
Proof.
  unfold sameButNiches. intros (a1 & a2 & a3 & a4 & a5) (b1 & b2 & b3 & b4 & b5).
  repeat split; congruence.
Qed.

Lemma niche_written (s s' : State) (n : string) (nd : NicheData) :
  niches (trendData s') = Obj.set (niches (trendData s)) n nd ->
  keepsNiches s s' /\
  popularityOf s' n = popularity nd /\
  forall m, n <> m -> popularityOf s' m = popularityOf s m.
Proof.
  intros Hn. unfold keepsNiches, popularityOf. rewrite Hn. split; [|split].
  - intros m Hm. rewrite get_set. destruct (String.eqb n m); eauto.
  - rewrite get_set_eq. reflexivity.
  - intros m Hne. rewrite get_set_ne by exact Hne. reflexivity.
Qed.

Lemma initNiche_effect (n : string) (s : State) :
  exists s',
    initNiche oracle n s = (Ret tt, s') /\
    sameButNiches s s' /\ keepsNiches s s' /\
    is_Some (Obj.get (niches (trendData s')) n) /\
    forall m, popularityOf s' m = popularityOf s m.
Proof.
  unfold initNiche, bind, get, modify, ret, newDate, readOracle.
  destruct (Obj.get (niches (trendData s)) n) as [nd|] eqn:Hget.
  - exists s. split; [reflexivity|]. split; [apply sameButNiches_refl|].
    split; [intros m Hm; exact Hm|]. split; [rewrite Hget; eauto|]. reflexivity.
  - eexists. split; [reflexivity|]. split; [repeat split|].
    match goal with |- keepsNiches s ?s' /\ _ =>
      destruct (niche_written s s' n
                  {| popularity := 0; growth := 0; n_keywords := []; n_products := [];
                     n_lastUpdated := isoTime oracle (tick s) |} eq_refl)
        as (Hkeep & Hpop & Hother)
    end.
    split; [exact Hkeep|]. split.
    + simpl. rewrite get_set_eq. eauto.
    + intros m. destruct (String.eqb_spec n m) as [<-|Hne].
      * rewrite Hpop. unfold popularityOf. rewrite Hget. reflexivity.
      * apply Hother, Hne.
Qed.

Lemma updateNiche_effect (n : string) (results : json) (s : State) :
  is_Some (Obj.get (niches (trendData s)) n) ->
  exists s',
    updateNiche oracle n results s = (Ret tt, s') /\
    sameButNiches s s' /\ keepsNiches s s' /\
    popularityOf s' n = popularityOf s n + 1 /\
    forall m, n <> m -> popularityOf s' m = popularityOf s m.
Proof.
  intros [nd Hget]. unfold updateNiche, bind, get. rewrite Hget.
  destruct (extractProducts_tick results s) as (ps & s1 & -> & (Hd & Hi & Hl)).
  unfold newDate, readOracle, modify. cbn [trendData].
  eexists. split; [reflexivity|].
  match goal with |- sameButNiches s ?s' /\ _ =>
    destruct (niche_written s s' n
                {| popularity := popularity nd + 1; growth := growth nd;
                   n_keywords := pushNew (n_keywords nd) (extractKeywords results);
                   n_products := pushNewProducts (n_products nd) ps;
                   n_lastUpdated := isoTime oracle (tick s1) |})
      as (Hkeep & Hpop & Hother)
  end.
  { simpl. rewrite Hd. reflexivity. }
  split; [|split; [exact Hkeep|split; [|exact Hother]]].
  - unfold sameButNiches. simpl. rewrite Hd, Hi, Hl. repeat split.
  - rewrite Hpop. unfold popularityOf. rewrite Hget. reflexivity.
Qed.

Lemma nicheItem_handling (item : StoredRecord) (s : State) :
  nicheItem oracle item s =
  match nicheHandling item with
  | Skipped => (Ret tt, s)
  | Fails => (Throw TypeError_toLowerCase, s)
  | Handled (q, results) =>
      forEach (fun niche => when (matchesNiche niche q results)
                              (updateNiche oracle niche results))
        preferredNiches s
  end.
Proof.
  unfold nicheItem, nicheHandling.
  destruct (r_data item) as [d|]; [|reflexivity].
  destruct d as [| b | n | t | items | fields];
    try (simpl; repeat case_match; reflexivity).
  change (truthy (Some (JObj fields))) with true. cbn [negb prop].
  destruct (lookupField "results" fields) as [results|]; [|reflexivity].
  destruct (truthy (Some results)); cbn [negb]; [|reflexivity].
  destruct (orElse (lookupField "query" fields) (Some (JStr ""))) as [[| b | n | q | qi | qf]|];
    reflexivity.
Qed.

Lemma nicheLoop_effect (q : string) (results : json) (ns : list string) :
  forall s : State,
    (forall n, In n ns -> is_Some (Obj.get (niches (trendData s)) n)) ->
    exists s',
      forEach (fun niche => when (matchesNiche niche q results)
                              (updateNiche oracle niche results)) ns s = (Ret tt, s') /\
      sameButNiches s s' /\ keepsNiches s s' /\
      forall m, popularityOf s' m = popularityOf s m + Z.of_nat (bumps m q results ns).
Proof.
  set (F := fun niche => when (matchesNiche niche q results)
                          (updateNiche oracle niche results)).
  induction ns as [|n rest IH]; intros s Hall.
  - exists s. split; [reflexivity|]. split; [apply sameButNiches_refl|].
    split; [intros m Hm; exact Hm|]. intros m. unfold bumps. simpl. lia.
  - cbn [forEach]. unfold bind.
    assert (forall s1 : State, keepsNiches s s1 ->
              forall k, In k rest -> is_Some (Obj.get (niches (trendData s1)) k)) as Hrest.
    { intros s1 Hk k Hin. apply Hk, Hall. right. exact Hin. }
    unfold bumps. cbn [List.filter]. fold (bumps).
    unfold F at 1.
    destruct (matchesNiche n q results) eqn:Hmatch; cbn [when].
    + destruct (updateNiche_effect n results s (Hall n (or_introl eq_refl)))
        as (s1 & -> & Hsame1 & Hkeep1 & Hpop1 & Hother1).
      destruct (IH s1 (Hrest s1 Hkeep1)) as (s' & -> & Hsame & Hkeep & Hpop).
      exists s'. split; [reflexivity|].
      split; [eapply sameButNiches_trans; eassumption|].
      split; [intros k Hk; apply Hkeep, Hkeep1, Hk|].
      intros m. rewrite Hpop. unfold bumps.
      destruct (String.eqb_spec n m) as [<-|Hne]; cbn [andb length].
      * rewrite Hpop1. lia.
      * rewrite Hother1 by exact Hne. reflexivity.
    + destruct (IH s (Hrest s (fun k Hk => Hk))) as (s' & Hrun & Hsame & Hkeep & Hpop).
      exists s'. unfold ret. split; [exact Hrun|]. split; [exact Hsame|].
      split; [exact Hkeep|].
      intros m. rewrite Hpop. rewrite andb_false_r. reflexivity.
Qed.

Lemma matchesNiche_preferred (m q : string) (results : json) :
  matchesNiche m q results = true -> In m preferredNiches.
Proof.
  unfold matchesNiche, getNicheKeywords, preferredNiches.
  repeat match goal with
         | |- context [String.eqb m ?c] =>
             destruct (String.eqb_spec m c) as [->|?]; [intros _; simpl; tauto|]
         end.
  simpl. discriminate.
Qed.

Lemma bumps_preferred (m q : string) (results : json) :
  bumps m q results preferredNiches = if matchesNiche m q results then 1%nat else 0%nat.
Proof.
  destruct (matchesNiche m q results) eqn:Hm.
  - apply matchesNiche_preferred in Hm as Hin.
    unfold preferredNiches in Hin. simpl in Hin.
    unfold bumps, preferredNiches.
    repeat (destruct Hin as [<-|Hin]; [cbn [List.filter String.eqb Ascii.eqb Bool.eqb andb];
                                       rewrite ?Hm; reflexivity|]).
    contradiction.
  - unfold bumps. induction preferredNiches as [|n rest IH]; [reflexivity|].
    cbn [List.filter]. destruct (String.eqb_spec n m) as [->|Hne]; cbn [andb].
    + rewrite Hm. exact IH.
    + exact IH.
Qed.

Lemma nicheHits_cons (m : string) (item : StoredRecord) (rest : list StoredRecord) :
  nicheHits m (item :: rest) =
  match nicheHandling item with
  | Skipped => nicheHits m rest
  | Fails => []
  | Handled (q, results) =>
      if matchesNiche m q results then (q, results) :: nicheHits m rest
      else nicheHits m rest
  end.
Proof.
  unfold nicheHits. simpl.
  destruct (nicheHandling item) as [| |[q results]]; reflexivity.
Qed.

Lemma nicheItems_effect (data : list StoredRecord) :
  forall s : State,
    hasPreferred s ->
    exists s',
      forEach (nicheItem oracle) data s =
        ((if aborted nicheHandling data then Throw TypeError_toLowerCase else Ret tt), s') /\
      sameButNiches s s' /\ keepsNiches s s' /\
      forall m, popularityOf s' m = popularityOf s m + Z.of_nat (length (nicheHits m data)).
Proof.
  induction data as [|item rest IH]; intros s Hpref.
  - exists s. split; [reflexivity|]. split; [apply sameButNiches_refl|].
    split; [intros m Hm; exact Hm|]. intros m. unfold nicheHits. simpl. lia.
  - cbn [forEach]. unfold bind. rewrite nicheItem_handling.
    unfold aborted. cbn [existsb]. fold (aborted nicheHandling rest).
    destruct (nicheHandling item) as [| |[q results]] eqn:Hh; cbn [failing orb].
    + destruct (IH s Hpref) as (s' & Hrun & Hsame & Hkeep & Hpop).
      exists s'. split; [exact Hrun|]. split; [exact Hsame|]. split; [exact Hkeep|].
      intros m. rewrite nicheHits_cons, Hh. apply Hpop.
    + exists s. split; [reflexivity|]. split; [apply sameButNiches_refl|].
      split; [intros m Hm; exact Hm|].
      intros m. rewrite nicheHits_cons, Hh. simpl. lia.
    + destruct (nicheLoop_effect q results preferredNiches s Hpref)
        as (s1 & -> & Hsame1 & Hkeep1 & Hpop1).
      destruct (IH s1 (fun n Hn => Hkeep1 n (Hpref n Hn)))
        as (s' & -> & Hsame & Hkeep & Hpop).
      exists s'. split; [reflexivity|].
      split; [eapply sameButNiches_trans; eassumption|].
      split; [intros k Hk; apply Hkeep, Hkeep1, Hk|].
      intros m. rewrite Hpop, Hpop1, bumps_preferred, nicheHits_cons, Hh.
      destruct (matchesNiche m q results); cbn [length]; lia.
Qed.

Lemma initNiches_effect (ns : list string) :
  forall s : State,
    exists s',
      forEach (initNiche oracle) ns s = (Ret tt, s') /\
      sameButNiches s s' /\ keepsNiches s s' /\
      (forall n, In n ns -> is_Some (Obj.get (niches (trendData s')) n)) /\
      forall m, popularityOf s' m = popularityOf s m.
Proof.
  induction ns as [|n rest IH]; intros s.
  - exists s. split; [reflexivity|]. split; [apply sameButNiches_refl|].
    split; [intros m Hm; exact Hm|]. split; [intros n []|]. reflexivity.
  - cbn [forEach]. unfold bind.
    destruct (initNiche_effect n s) as (s1 & -> & Hsame1 & Hkeep1 & Hn1 & Hpop1).
    destruct (IH s1) as (s' & -> & Hsame & Hkeep & Hall & Hpop).
    exists s'. split; [reflexivity|].
    split; [eapply sameButNiches_trans; eassumption|].
    split; [intros k Hk; apply Hkeep, Hkeep1, Hk|].
    split.
    + intros k [<-|Hin]; [apply Hkeep, Hn1|apply Hall, Hin].
    + intros m. rewrite Hpop. apply Hpop1.
Qed.

Lemma growNiche_effect (n : string) (s : State) :
  is_Some (Obj.get (niches (trendData s)) n) ->
  exists s',
    growNiche oracle n s = (Ret tt, s') /\
    sameButNiches s s' /\ keepsNiches s s' /\
    forall m, popularityOf s' m = popularityOf s m.
Proof.
  intros [nd Hget]. unfold growNiche, bind, get, modify, readOracle. rewrite Hget.
  cbn [trendData]. eexists. split; [reflexivity|].
  match goal with |- sameButNiches s ?s' /\ _ =>
    destruct (niche_written s s' n
                {| popularity := popularity nd;
                   growth := toFixed2
                               (inject_Z (popularity nd) *
                                (random oracle (tick s) * (2 # 10) + (9 # 10)) -
                                inject_Z (popularity nd));
                   n_keywords := n_keywords nd; n_products := n_products nd;
                   n_lastUpdated := n_lastUpdated nd |} eq_refl)
      as (Hkeep & Hpop & Hother)
  end.
  split; [repeat split|]. split; [exact Hkeep|].
  intros m. destruct (String.eqb_spec n m) as [<-|Hne].
  - rewrite Hpop. unfold popularityOf. rewrite Hget. reflexivity.
  - apply Hother, Hne.
Qed.

Lemma growNiches_effect (ns : list string) :
  forall s : State,
    (forall n, In n ns -> is_Some (Obj.get (niches (trendData s)) n)) ->
    exists s',
      forEach (growNiche oracle) ns s = (Ret tt, s') /\
      sameButNiches s s' /\ keepsNiches s s' /\
      forall m, popularityOf s' m = popularityOf s m.
Proof.
  induction ns as [|n rest IH]; intros s Hall.
  - exists s. split; [reflexivity|]. split; [apply sameButNiches_refl|].
    split; [intros m Hm; exact Hm|]. reflexivity.
  - cbn [forEach]. unfold bind.
    destruct (growNiche_effect n s (Hall n (or_introl eq_refl)))
      as (s1 & -> & Hsame1 & Hkeep1 & Hpop1).
    destruct (IH s1) as (s' & -> & Hsame & Hkeep & Hpop).
    { intros k Hk. apply Hkeep1, Hall. right. exact Hk. }
    exists s'. split; [reflexivity|].
    split; [eapply sameButNiches_trans; eassumption|].
    split; [intros k Hk; apply Hkeep, Hkeep1, Hk|].
    intros m. rewrite Hpop. apply Hpop1.
Qed.

Lemma calculateNicheGrowth_effect (s : State) :
  exists s',
    calculateNicheGrowth oracle s = (Ret true, s') /\
    sameButNiches s s' /\ keepsNiches s s' /\
    forall m, popularityOf s' m = popularityOf s m.
Proof.
  unfold calculateNicheGrowth, tryCatch, bind, get.
  destruct (growNiches_effect (Obj.keys (niches (trendData s))) s)
    as (s' & -> & Hsame & Hkeep & Hpop).
  { intros n Hn. apply get_keys, Hn. }
  exists s'. split; [reflexivity|]. split; [exact Hsame|]. split; assumption.
Qed.

(** The by-niche pass never throws; it counts, for every niche, the
    records it reached that match the niche. *)
Lemma analyzeByNiche_effect (data : list StoredRecord) (s : State) :
  exists r s',
    analyzeByNiche oracle data s = (Ret r, s') /\
    success r = negb (aborted nicheHandling data) /\
    sameButNiches s s' /\ keepsNiches s s' /\ hasPreferred s' /\
    forall m, popularityOf s' m = popularityOf s m + Z.of_nat (length (nicheHits m data)).
Proof.
  unfold analyzeByNiche, tryCatch, bind.
  destruct (initNiches_effect preferredNiches s) as (s1 & -> & Hsame1 & Hkeep1 & Hall1 & Hpop1).
  destruct (nicheItems_effect data s1 Hall1) as (s2 & -> & Hsame2 & Hkeep2 & Hpop2).
  assert (hasPreferred s2) as Hall2 by (intros n Hn; apply Hkeep2, Hall1, Hn).
  assert (forall m, popularityOf s2 m
                    = popularityOf s m + Z.of_nat (length (nicheHits m data))) as Hpop.
  { intros m. rewrite Hpop2, Hpop1. reflexivity. }
  assert (sameButNiches s s2) as Hsame by (eapply sameButNiches_trans; eassumption).
  assert (keepsNiches s s2) as Hkeep by (intros k Hk; apply Hkeep2, Hkeep1, Hk).
  destruct (aborted nicheHandling data).
  - exists {| success := false;
              message := ("Failed to analyze data by niche: " ++ TypeError_toLowerCase)%string |}, s2.
    repeat split; try assumption; try reflexivity; apply Hsame.
  - destruct (calculateNicheGrowth_effect s2) as (s3 & -> & Hsame3 & Hkeep3 & Hpop3).
    eexists _, s3. split; [reflexivity|]. split; [reflexivity|].
    split; [eapply sameButNiches_trans; eassumption|].
    split; [intros k Hk; apply Hkeep3, Hkeep, Hk|].
    split; [intros n Hn; apply Hkeep3, Hall2, Hn|].
    intros m. rewrite Hpop3. apply Hpop.
Qed.

(** *** The by-product pass *)

Lemma sameButProducts_refl (s : State) : sameButProducts s s.
Proof. repeat split. Qed.

Lemma sameButProducts_trans (s1 s2 s3 : State) :
  sameButProducts s1 s2 -> sameButProducts s2 s3 -> sameButProducts s1 s3.
Proof.
  unfold sameButProducts. intros (a1 & a2 & a3 & a4 & a5) (b1 & b2 & b3 & b4 & b5).
  repeat split; congruence.
Qed.

Lemma sameButTick_products (s s' : State) : sameButTick s s' -> sameButProducts s s'.
Proof.
  unfold sameButTick, sameButProducts. intros (Hd & Hi & Hl). rewrite Hd.
  repeat split; assumption.
Qed.

Lemma sentimentAfter_app (l1 l2 : list json) (before : option Q) :
  sentimentAfter (l1 ++ l2) before = sentimentAfter l2 (sentimentAfter l1 before).
Proof.
  revert before. induction l1 as [|r l1 IH]; intros before; [reflexivity|].
  cbn [app]. rewrite !sentimentAfter_cons. apply IH.
Qed.

Lemma productHits_app (key : string) (l1 l2 : list (string * json)) :
  productHits key (l1 ++ l2) = productHits key l1 ++ productHits key l2.
Proof. unfold productHits. rewrite List.filter_app, map_app. reflexivity. Qed.

Lemma failingProduct_sameHeld (held held' : gmap string ProductData) (p : Product) :
  sameHeld held held' -> failingProduct held p = failingProduct held' p.
Proof.
  intros H. unfold failingProduct.
  destruct (inherited (productKey p)) eqn:Hk; [|reflexivity].
  rewrite (held_decide held held' _ H Hk). reflexivity.
Qed.

Lemma touched_sameHeld (held held' : gmap string ProductData) (ps : list Product) :
  sameHeld held held' ->
  touched held ps = touched held' ps /\
  existsb (failingProduct held) ps = existsb (failingProduct held') ps.
Proof.
  intros H. induction ps as [|p rest [IH1 IH2]]; [split; reflexivity|].
  cbn [touched existsb]. rewrite (failingProduct_sameHeld held held' p H), IH1, IH2.
  split; reflexivity.
Qed.

Lemma touchProduct_fails (source : string) (results : json) (p : Product) (s : State) :
  failingProduct (products (trendData s)) p = true ->
  touchProduct oracle source results p s = (Throw TypeError_undefined, s).
Proof.
  unfold failingProduct. intros H. apply andb_prop in H as [Hk Hown].
  apply negb_true_iff, bool_decide_eq_false in Hown.
  destruct (products (trendData s) !! productKey p) as [d|] eqn:Hq; [exfalso; eauto|].
  unfold touchProduct, bind, get, ret. rewrite Hq, Hk. cbn. rewrite Hq. reflexivity.
Qed.

Lemma touchProduct_effect (source : string) (results : json) (p : Product) (s : State) :
  failingProduct (products (trendData s)) p = false ->
  exists s' d',
    touchProduct oracle source results p s = (Ret tt, s') /\
    products (trendData s') = <[productKey p := d']> (products (trendData s)) /\
    pd_sentiment d' = calculateSentiment results /\
    sameButProducts s s' /\
    sameHeld (products (trendData s)) (products (trendData s')).
Proof.
  intros Hheld.
  assert (inherited (productKey p) = false \/
          is_Some (products (trendData s) !! productKey p)) as Hown.
  { unfold failingProduct in Hheld. apply andb_false_iff in Hheld as [H|H]; [left; exact H|].
    right. apply negb_false_iff, bool_decide_eq_true in H. exact H. }
  unfold touchProduct, sameButProducts, bind, get, modify, ret, newDate, readOracle.
  destruct (products (trendData s) !! productKey p) as [d|] eqn:Hq; simpl.
  - rewrite Hq. simpl. eexists _, _. split; [reflexivity|]. simpl.
    split; [reflexivity|]. split; [reflexivity|]. split; [repeat split|].
    apply sameHeld_insert. right. rewrite Hq. eauto.
  - destruct Hown as [Hk|[? ?]]; [|discriminate]. rewrite Hk.
    simpl. rewrite lookup_insert_eq. simpl. eexists _, _. split; [reflexivity|]. simpl.
    rewrite insert_insert_eq.
    split; [reflexivity|]. split; [reflexivity|]. split; [repeat split|].
    apply sameHeld_insert. left. exact Hk.
Qed.

Lemma touchProducts_effect (source : string) (results : json) (ps : list Product) :
  forall s : State, exists s' e,
    let held := products (trendData s) in
    forEach (touchProduct oracle source results) ps s
    = ((if existsb (failingProduct held) ps then Throw e else Ret tt), s') /\
    sameButProducts s s' /\
    sameHeld held (products (trendData s')) /\
    forall key,
      productSentimentOf s' key =
      sentimentAfter
        (productHits key (map (fun p => (productKey p, results)) (touched held ps)))
        (productSentimentOf s key).
Proof.
  induction ps as [|p rest IH]; intros s; cbv zeta.
  - exists s, EmptyString. split; [reflexivity|]. split; [apply sameButProducts_refl|].
    split; [apply sameHeld_refl|]. reflexivity.
  - cbn [forEach existsb touched]. unfold bind.
    destruct (failingProduct (products (trendData s)) p) eqn:Hf; cbn [orb].
    + rewrite (touchProduct_fails source results p s Hf).
      exists s, TypeError_undefined. split; [reflexivity|].
      split; [apply sameButProducts_refl|]. split; [apply sameHeld_refl|]. reflexivity.
    + destruct (touchProduct_effect source results p s Hf)
        as (s1 & d' & -> & Hp & Hs & Hsame1 & Hheld1).
      destruct (IH s1) as (s' & e & Hrun & Hsame & Hheld & Hkey).
      cbv zeta in Hrun, Hheld, Hkey.
      destruct (touched_sameHeld _ _ rest Hheld1) as [Ht He].
      rewrite <- He in Hrun. rewrite <- Ht in Hkey.
      exists s', e. split; [exact Hrun|].
      split; [eapply sameButProducts_trans; eassumption|].
      split; [eapply sameHeld_trans; eassumption|].
      intros key. rewrite Hkey. cbn [map]. unfold productHits at 2. cbn [List.filter fst].
      unfold productSentimentOf at 1. rewrite Hp.
      destruct (String.eqb_spec (productKey p) key) as [<-|Hne].
      * rewrite lookup_insert_eq. cbn [map snd]. rewrite sentimentAfter_cons.
        cbn [fmap option_fmap option_map]. rewrite Hs. reflexivity.
      * rewrite lookup_insert_ne by exact Hne. reflexivity.
Qed.

Lemma productItem_handling (item : StoredRecord) (s : State) :
  productItem oracle item s =
  match productHandling item with
  | Handled (source, results) =>
      bind (extractProducts oracle results)
        (fun extracted => forEach (touchProduct oracle source results) extracted) s
  | _ => (Ret tt, s)
  end.
Proof.
  unfold productItem, productHandling.
  destruct (r_data item) as [d|]; [|reflexivity].
  destruct d as [| b | n | t | items | fields];
    try (simpl; repeat case_match; reflexivity).
  change (truthy (Some (JObj fields))) with true. cbn [negb prop].
  destruct (lookupField "results" fields) as [results|]; [|reflexivity].
  destruct (truthy (Some results)); reflexivity.
Qed.

Lemma productItems_effect (data : list StoredRecord) :
  forall s : State, exists s' e,
    forEach (productItem oracle) data s
    = ((if productsAborted oracle data s then Throw e else Ret tt), s') /\
    sameButProducts s s' /\
    forall key,
      productSentimentOf s' key =
      sentimentAfter (productHits key (productLog oracle data s)) (productSentimentOf s key).
Proof.
  induction data as [|item rest IH]; intros s.
  - exists s, EmptyString. split; [reflexivity|]. split; [apply sameButProducts_refl|].
    reflexivity.
  - cbn [forEach productLog productsAborted]. unfold bind at 1. rewrite productItem_handling.
    destruct (productHandling item) as [| |[source results]] eqn:Hh.
    + apply IH.
    + apply IH.
    + unfold bind.
      destruct (extractProducts_tick results s) as (ps & s1 & -> & Htick).
      destruct (touchProducts_effect source results ps s1)
        as (s2 & e2 & Hrun2 & Hsame2 & _ & Hkey2).
      cbv zeta in Hrun2, Hkey2. rewrite Hrun2. cbn [snd].
      assert (sameButProducts s s2) as Hsame12.
      { eapply sameButProducts_trans; [apply sameButTick_products, Htick|exact Hsame2]. }
      assert (forall key, productSentimentOf s1 key = productSentimentOf s key) as Hs1.
      { intros key. unfold productSentimentOf. destruct Htick as (-> & _). reflexivity. }
      destruct (existsb (failingProduct (products (trendData s1))) ps); cbn [orb].
      * exists s2, e2. split; [reflexivity|]. split; [exact Hsame12|].
        intros key. rewrite Hkey2, app_nil_r, Hs1. reflexivity.
      * destruct (IH s2) as (s' & e & -> & Hsame & Hkey).
        exists s', e. split; [reflexivity|].
        split; [eapply sameButProducts_trans; eassumption|].
        intros key. rewrite Hkey, Hkey2, productHits_app, sentimentAfter_app, Hs1.
        reflexivity.
Qed.

Lemma analyzeByProduct_effect (data : list StoredRecord) (s : State) :
  exists r s',
    analyzeByProduct oracle data s = (Ret r, s') /\
    success r = negb (productsAborted oracle data s) /\
    sameButProducts s s' /\
    forall key,
      productSentimentOf s' key =
      sentimentAfter (productHits key (productLog oracle data s)) (productSentimentOf s key).
Proof.
  destruct (productItems_effect data s) as (s' & e & Hrun & Hsame & Hkey).
  unfold analyzeByProduct, tryCatch, bind. rewrite Hrun.
  destruct (productsAborted oracle data s); eexists _, s';
    (split; [reflexivity|]); (split; [reflexivity|]); split; assumption.
Qed.

(** *** The top-level call *)

Lemma initialize_returns (s : State) : exists b, initialize s = (Ret b, snd (initialize s)).
Proof.
  unfold initialize.
  destruct (available (localStorage s)); [|eexists; reflexivity].
  destruct (slot (localStorage s)); eexists; reflexivity.
Qed.

Lemma ensureInitialized_settled (s : State) :
  settled s -> trendData (ensureInitialized s) = trendData s.
Proof.
  unfold settled, ensureInitialized, initialize.
  intros [Hi|[Ha Hs]].
  - rewrite Hi. reflexivity.
  - rewrite Ha, Hs. destruct (initialized s); reflexivity.
Qed.

Lemma ensureInitialized_storage (s : State) :
  localStorage (ensureInitialized s) = localStorage s /\
  tick (ensureInitialized s) = tick s.
Proof.
  unfold ensureInitialized, initialize.
  destruct (initialized s); [split; reflexivity|].
  destruct (available (localStorage s)); [|split; reflexivity].
  destruct (slot (localStorage s)); split; reflexivity.
Qed.

(** With no record the call reports the failure and runs no pass. *)
Lemma analyzeAllData_empty (s : State) :
  analyzeAllData analyzeByTimeframeOn oracle [] s =
  (Ret {| report := {| success := false; message := "No data available for analysis" |};
          trends := None |},
   ensureInitialized s).
Proof.
  unfold analyzeAllData, ensureInitialized, tryCatch, bind, get, ret.
  destruct (initialized s); [reflexivity|].
  destruct (initialize_returns s) as [b ->]. reflexivity.
Qed.

(** With records the four passes run in sequence and the call reports
    success, whatever the passes report. *)
Lemma analyzeAllData_run (item : StoredRecord) (rest : list StoredRecord) (s : State) :
  let data := item :: rest in
  exists r1 s1 r2 s2 r3 s3 r4 s',
    analyzeByNiche oracle data (ensureInitialized s) = (Ret r1, s1) /\
    analyzeByKeyword oracle data s1 = (Ret r2, s2) /\
    analyzeByProduct oracle data s2 = (Ret r3, s3) /\
    analyzeByTimeframeOn data (timeframes (trendData s3)) = (r4, timeframes (trendData s')) /\
    niches (trendData s') = niches (trendData s3) /\
    keywords (trendData s') = keywords (trendData s3) /\
    products (trendData s') = products (trendData s3) /\
    settled s' /\
    analyzeAllData analyzeByTimeframeOn oracle data s =
    (Ret {| report := {| success := true;
                         message := "Successfully analyzed all data for trends" |};
            trends := Some (trendData s') |}, s').
Proof.
  intros data.
  destruct (analyzeByNiche_effect data (ensureInitialized s)) as (r1 & s1 & H1 & _ & Hs1 & _).
  destruct (analyzeByKeyword_effect data s1) as (r2 & s2 & H2 & _ & Hs2 & _).
  destruct (analyzeByProduct_effect data s2) as (r3 & s3 & H3 & _ & Hs3 & _).
  destruct (analyzeByTimeframeOn data (timeframes (trendData s3))) as [r4 t4] eqn:H4.
  exists r1, s1, r2, s2, r3, s3, r4, (snd (saveToStorage (setTimeframes t4 s3))).
  assert (initialized s3 = initialized (ensureInitialized s) /\
          available (localStorage s3) = available (localStorage (ensureInitialized s))) as [Hi Ha].
  { destruct Hs1 as (_ & _ & _ & a1 & b1). destruct Hs2 as (_ & _ & _ & a2 & b2).
    destruct Hs3 as (_ & _ & _ & a3 & b3). split; congruence. }
  assert (initialized (ensureInitialized s) = true \/
          available (localStorage (ensureInitialized s)) = true) as Hinit.
  { unfold ensureInitialized, initialize. destruct (initialized s) eqn:E; [left; exact E|].
    destruct (available (localStorage s)) eqn:Hav; [|left; reflexivity].
    destruct (slot (localStorage s)); simpl; rewrite ?E, ?Hav; auto. }
  split; [exact H1|]. split; [exact H2|]. split; [exact H3|].
  unfold saveToStorage, setTimeframes, setTrendData.
  cbn [localStorage trendData initialized tick niches keywords products timeframes].
  split; [rewrite H4; destruct (available (localStorage s3)); reflexivity|].
  split; [destruct (available (localStorage s3)); reflexivity|].
  split; [destruct (available (localStorage s3)); reflexivity|].
  split; [destruct (available (localStorage s3)); reflexivity|].
  split.
  { unfold settled. destruct (available (localStorage s3)) eqn:Hav;
      cbn [snd localStorage trendData initialized available slot].
    - right. split; reflexivity.
    - left. destruct Hinit as [Hinit|Hinit]; congruence. }
  unfold analyzeAllData, tryCatch, bind, get.
  assert ((if initialized s then ret true else initialize) s
          = (Ret (match fst ((if initialized s then ret true else initialize) s) with
                  | Ret b => b | Throw _ => true end), ensureInitialized s)) as ->.
  { unfold ensureInitialized. destruct (initialized s); [reflexivity|].
    destruct (initialize_returns s) as [b Hb]. rewrite Hb. reflexivity. }
  subst data. cbv beta iota. rewrite H1, H2, H3.
  unfold analyzeByTimeframe. rewrite H4. unfold saveToStorage, setTimeframes, setTrendData.
  cbn [localStorage trendData initialized tick niches keywords products timeframes].
  destruct (available (localStorage s3)); reflexivity.
Qed.

Lemma settled_steady (s : State) : settled s -> steady s.
Proof. apply ensureInitialized_settled. Qed.

Lemma readers_trendData (a b : State) :
  trendData a = trendData b ->
  (forall m, popularityOf a m = popularityOf b m) /\
  (forall q, mentionsOf a q = mentionsOf b q /\
             sentimentOf a q = sentimentOf b q /\
             relatedOf a q = relatedOf b q) /\
  (forall key, productSentimentOf a key = productSentimentOf b key).
Proof.
  intros H. unfold popularityOf, mentionsOf, sentimentOf, relatedOf, productSentimentOf.
  rewrite H. repeat split.
Qed.

Abbreviation after := (stateAfter analyzeByTimeframeOn oracle).

Lemma after_empty (s : State) : after [] s = ensureInitialized s.
Proof. unfold stateAfter. rewrite analyzeAllData_empty. reflexivity. Qed.

Lemma after_summary (item : StoredRecord) (rest : list StoredRecord) (s : State) :
  let data := item :: rest in
  let s0 := ensureInitialized s in
  let held := keywords (trendData s0) in
  settled (after data s) /\
  (forall m, popularityOf (after data s) m
             = popularityOf s0 m + Z.of_nat (length (nicheHits m data))) /\
  sameHeld held (keywords (trendData (after data s))) /\
  (forall q,
      mentionsOf (after data s) q
      = mentionsOf s0 q + Z.of_nat (length (keywordHits held q data)) /\
      sentimentOf (after data s) q
      = sentimentAfter (keywordHits held q data) (sentimentOf s0 q) /\
      relatedOf (after data s) q
      = relatedAfter q (keywordHits held q data) (relatedOf s0 q)).
Proof.
  intros data s0 held.
  destruct (analyzeAllData_run item rest s)
    as (r1 & s1 & r2 & s2 & r3 & s3 & r4 & s' & H1 & H2 & H3 & _ & Hn & Hk & Hp & Hset & Hrun).
  fold data in H1, H2, H3, Hrun. fold s0 in H1.
  unfold stateAfter. rewrite Hrun. cbn [snd].
  destruct (analyzeByNiche_effect data s0) as (r1' & s1' & H1' & _ & Hs1 & _ & _ & Hpop).
  rewrite H1 in H1'. injection H1' as <- <-.
  destruct (analyzeByKeyword_effect data s1) as (r2' & s2' & H2' & _ & Hs2 & Hheld & Hkey).
  rewrite H2 in H2'. injection H2' as <- <-.
  destruct (analyzeByProduct_effect data s2) as (r3' & s3' & H3' & _ & Hs3 & _).
  rewrite H3 in H3'. injection H3' as <- <-.
  destruct Hs1 as (Hk1 & _). destruct Hs2 as (Hn2 & _). destruct Hs3 as (Hn3 & Hk3 & _).
  rewrite Hk1 in Hheld, Hkey. fold held in Hheld, Hkey.
  split; [exact Hset|]. split; [|split].
  - intros m. rewrite <- Hpop. unfold popularityOf. rewrite Hn, Hn3, Hn2. reflexivity.
  - rewrite Hk, Hk3. exact Hheld.
  - intros q. destruct (Hkey q) as (Hq1 & Hq2 & Hq3).
    unfold mentionsOf, sentimentOf, relatedOf in *.
    rewrite Hk, Hk3, Hq1, Hq2, Hq3, Hk1. repeat split.
Qed.

(** *** Related keywords are a set *)

Lemma pushRelated_snoc (q k : string) (acc ks : list string) :
  pushRelated q acc (k :: ks) =
  pushRelated q (if negb (String.eqb k q) && negb (existsb (String.eqb k) acc)
                 then acc ++ [k] else acc) ks.
Proof. reflexivity. Qed.

Lemma existsb_eqb_In (k : string) (acc : list string) :
  existsb (String.eqb k) acc = true <-> In k acc.
Proof.
  rewrite existsb_exists. split.
  - intros (x & Hin & Heq). apply String.eqb_eq in Heq. subst. exact Hin.
  - intros Hin. exists k. split; [exact Hin|apply String.eqb_refl].
Qed.

Lemma pushRelated_keeps (q : string) (ks : list string) :
  forall acc x, In x acc -> In x (pushRelated q acc ks).
Proof.
  induction ks as [|k ks IH]; intros acc x Hx; [exact Hx|].
  rewrite pushRelated_snoc. apply IH.
  destruct (negb (String.eqb k q) && negb (existsb (String.eqb k) acc)); [|exact Hx].
  apply in_or_app. left. exact Hx.
Qed.

Lemma pushRelated_covers (q : string) (ks : list string) :
  forall acc k, In k ks -> k <> q -> In k (pushRelated q acc ks).
Proof.
  induction ks as [|k0 ks IH]; intros acc k Hin Hne; [destruct Hin|].
  rewrite pushRelated_snoc. destruct Hin as [->|Hin]; [|apply IH; assumption].
  apply pushRelated_keeps.
  destruct (String.eqb_spec k q) as [|_]; [contradiction|]. cbn [negb andb].
  destruct (existsb (String.eqb k) acc) eqn:E; cbn [negb].
  - apply existsb_eqb_In, E.
  - apply in_or_app. right. left. reflexivity.
Qed.

Lemma pushRelated_fixed (q : string) (ks : list string) :
  forall acc, (forall k, In k ks -> k <> q -> In k acc) -> pushRelated q acc ks = acc.
Proof.
  induction ks as [|k0 ks IH]; intros acc Hall; [reflexivity|].
  rewrite pushRelated_snoc.
  destruct (String.eqb_spec k0 q) as [Heq|Hne]; cbn [negb andb].
  - apply IH. intros k Hk. apply Hall. right. exact Hk.
  - assert (existsb (String.eqb k0) acc = true) as ->.
    { apply existsb_eqb_In, Hall; [left; reflexivity|exact Hne]. }
    cbn [negb]. apply IH. intros k Hk. apply Hall. right. exact Hk.
Qed.

Lemma relatedAfter_cons (q : string) (r : json) (hits : list json) (acc : list string) :
  relatedAfter q (r :: hits) acc
  = relatedAfter q hits (pushRelated q acc (extractKeywords r)).
Proof. reflexivity. Qed.

Lemma relatedAfter_keeps (q : string) (hits : list json) :
  forall acc x, In x acc -> In x (relatedAfter q hits acc).
Proof.
  induction hits as [|r hits IH]; intros acc x Hx; [exact Hx|].
  rewrite relatedAfter_cons. apply IH, pushRelated_keeps, Hx.
Qed.

Lemma relatedAfter_covers (q : string) (hits : list json) :
  forall acc r k, In r hits -> In k (extractKeywords r) -> k <> q ->
                  In k (relatedAfter q hits acc).
Proof.
  induction hits as [|r0 hits IH]; intros acc r k Hr Hk Hne; [destruct Hr|].
  rewrite relatedAfter_cons. destruct Hr as [->|Hr].
  - apply relatedAfter_keeps, pushRelated_covers; assumption.
  - eapply IH; eassumption.
Qed.

Lemma relatedAfter_fixed (q : string) (hits : list json) :
  forall acc,
    (forall r k, In r hits -> In k (extractKeywords r) -> k <> q -> In k acc) ->
    relatedAfter q hits acc = acc.
Proof.
  induction hits as [|r0 hits IH]; intros acc Hall; [reflexivity|].
  rewrite relatedAfter_cons, pushRelated_fixed.
  - apply IH. intros r k Hr. apply Hall. right. exact Hr.
  - intros k Hk. apply (Hall r0 k). left. reflexivity. exact Hk.
Qed.

(** Handling the same records again adds no related keyword. *)
Lemma relatedAfter_idempotent (q : string) (hits : list json) (acc : list string) :
  relatedAfter q hits (relatedAfter q hits acc) = relatedAfter q hits acc.
Proof.
  apply relatedAfter_fixed. intros r k Hr Hk Hne.
  eapply relatedAfter_covers; eassumption.
Qed.

Lemma sentimentAfter_idempotent (hits : list json) (before : option Q) :
  sentimentAfter hits (sentimentAfter hits before) = sentimentAfter hits before.
Proof. unfold sentimentAfter. destruct (last hits); reflexivity. Qed.

(** A second call over the same snapshot. *)
Lemma after_twice (item : StoredRecord) (rest : list StoredRecord) (s : State) :
  let data := item :: rest in
  let s1 := after data s in
  let s2 := after data s1 in
  let held := keywords (trendData s1) in
  (forall q,
      sentimentOf s2 q = sentimentOf s1 q /\
      relatedOf s2 q = relatedOf s1 q /\
      mentionsOf s2 q = mentionsOf s1 q + Z.of_nat (length (keywordHits held q data))) /\
  (forall m,
      popularityOf s2 m = popularityOf s1 m + Z.of_nat (length (nicheHits m data))).
Proof.
  intros data s1 s2 held.
  destruct (after_summary item rest s) as (Hset1 & Hpop1 & Hheld1 & Hkey1).
  destruct (after_summary item rest s1) as (_ & Hpop2 & _ & Hkey2).
  fold data in Hset1, Hpop1, Hheld1, Hkey1, Hpop2, Hkey2.
  fold s1 in Hset1, Hpop1, Hheld1, Hkey1, Hpop2, Hkey2.
  fold s2 in Hpop2, Hkey2.
  rewrite (ensureInitialized_settled s1 Hset1) in Hkey2. fold held in Hkey2, Hheld1.
  destruct (readers_trendData _ _ (ensureInitialized_settled s1 Hset1)) as (Hp & Hk & _).
  split.
  - intros q. destruct (Hkey2 q) as (Hm2 & Hs2 & Hr2). destruct (Hkey1 q) as (Hm1 & Hs1 & Hr1).
    destruct (Hk q) as (Hkm & Hks & Hkr).
    destruct (keywordHits_sameHeld _ _ q data Hheld1) as [Hhits _].
    rewrite Hhits in Hs1, Hr1.
    rewrite Hm2, Hs2, Hr2, Hkm, Hks, Hkr. split; [|split; [|reflexivity]].
    + rewrite Hs1. apply sentimentAfter_idempotent.
    + rewrite Hr1. apply relatedAfter_idempotent.
  - intros m. rewrite Hpop2, Hp. reflexivity.
Qed.

(** *** Popularity only grows *)

Lemma ensureInitialized_steady (s : State) : steady (ensureInitialized s).
Proof.
  unfold steady, ensureInitialized, initialize.
  destruct (initialized s) eqn:Hi; [rewrite Hi; reflexivity|].
  destruct (available (localStorage s)) eqn:Ha; cbn [snd initialized]; [|reflexivity].
  destruct (slot (localStorage s)) eqn:Hs; cbn [snd initialized]; try reflexivity.
  rewrite Hi, Ha, Hs. reflexivity.
Qed.

Lemma after_steady (data : list StoredRecord) (s : State) : steady (after data s).
Proof.
  destruct data as [|item rest].
  - rewrite after_empty. apply ensureInitialized_steady.
  - apply settled_steady. apply (after_summary item rest s).
Qed.

Lemma after_popularity (data : list StoredRecord) (s : State) (m : string) :
  steady s ->
  popularityOf (after data s) m = popularityOf s m + Z.of_nat (length (nicheHits m data)).
Proof.
  intros Hs. destruct (readers_trendData _ _ Hs) as (Hp & _).
  destruct data as [|item rest].
  - rewrite after_empty, Hp. unfold nicheHits. simpl. lia.
  - destruct (after_summary item rest s) as (_ & Hpop & _). rewrite Hpop, Hp. reflexivity.
Qed.

Lemma fresh_steady (t0 : Timeframes) (a corrupt : bool) :
  steady (fresh t0 {| available := a; slot := if corrupt then Corrupt else NoItem |}).
Proof. destruct a, corrupt; reflexivity. Qed.

Lemma afterAll_invariant (snapshots : list (list StoredRecord)) :
  forall s : State,
    steady s -> (forall m, 0 <= popularityOf s m) ->
    steady (stateAfterAll analyzeByTimeframeOn oracle snapshots s) /\
    forall m, 0 <= popularityOf (stateAfterAll analyzeByTimeframeOn oracle snapshots s) m.
Proof.
  induction snapshots as [|data rest IH]; intros s Hs Hpos; [split; assumption|].
  cbn [stateAfterAll fold_left]. apply IH.
  - apply after_steady.
  - intros m. rewrite after_popularity by exact Hs. specialize (Hpos m). lia.
Qed.

End TrendFacts.

(** ** The competitor engine *)

Arguments Competitor.determineNiche : simpl never.

Section EffTotal.
Import Eff.
Context {S : Type}.

(** A handler that returns makes the whole [try] return. *)
Lemma tryCatch_returns {A} (c : M S A) (h : string -> M S A) :
  (forall e s, exists a s', h e s = (Ret a, s')) ->
  forall s, exists a s', tryCatch c h s = (Ret a, s').
Proof.
  intros Hh s. unfold tryCatch. destruct (c s) as [[a|e] s1].
  - eexists _, _. reflexivity.
  - apply Hh.
Qed.

Lemma forEach_returns {X} (f : X -> M S unit) (xs : list X) :
  (forall x s, exists s', f x s = (Ret tt, s')) ->
  forall s, exists s', forEach f xs s = (Ret tt, s').
Proof.
  intros Hf. induction xs as [|x rest IH]; intros s.
  - eexists. reflexivity.
  - cbn [forEach]. unfold bind. destruct (Hf x s) as [s1 ->]. apply IH.
Qed.

Lemma bind_returns {A B} (c : M S A) (k : A -> M S B) :
  (forall s, exists a s', c s = (Ret a, s')) ->
  (forall a s, exists b s', k a s = (Ret b, s')) ->
  forall s, exists b s', bind c k s = (Ret b, s').
Proof.
  intros Hc Hk s. unfold bind. destruct (Hc s) as (a & s1 & ->). apply Hk.
Qed.
End EffTotal.

Section CompetitorFacts.
Import Eff Competitor Reading.
Context {Engagement Insights : Type}.
Variable calculateEngagement : json -> Engagement.
Variable analyzeDerived :
  DerivedPass -> Obj.t (@CompetitorProfile Engagement) -> Insights -> Report * Insights.
Variable stringToNumber : string -> option Q.
Variable oracle : Oracle.
Variable extractGenericCompetitors :
  json -> string -> @State Engagement Insights -> @State Engagement Insights.

Abbreviation CState := (@Competitor.State Engagement Insights).

(** *** Mutations that name an unknown id *)

Lemma updateCompetitor_unknown (id : string) (updates : Updates) (s : CState) :
  Obj.get (competitors (competitorData s)) id = None ->
  updateCompetitor oracle id updates s = (Ret false, s).
Proof.
  intros Hnone. unfold updateCompetitor, updateCompetitor_try, tryCatch, bind, get.
  rewrite Hnone. reflexivity.
Qed.

Lemma updateCompetitor_try_unknown (id : string) (updates : Updates) (s : CState) :
  Obj.get (competitors (competitorData s)) id = None ->
  updateCompetitor_try oracle id updates s = (Throw (notFound id), s).
Proof.
  intros Hnone. unfold updateCompetitor_try, bind, get. rewrite Hnone. reflexivity.
Qed.

Lemma removeCompetitor_try_unknown (id : string) (s : CState) :
  Obj.get (competitors (competitorData s)) id = None ->
  removeCompetitor_try id s = (Throw (notFound id), s).
Proof.
  intros Hnone. unfold removeCompetitor_try, bind, get. rewrite Hnone. reflexivity.
Qed.

Lemma removeCompetitor_unknown (id : string) (s : CState) :
  Obj.get (competitors (competitorData s)) id = None ->
  removeCompetitor id s = (Ret false, s).
Proof.
  intros Hnone. unfold removeCompetitor, removeCompetitor_try, tryCatch, bind, get.
  rewrite Hnone. reflexivity.
Qed.

(** *** The passes return *)

Lemma extractTwitterCompetitors_returns (results : json) (s : CState) :
  exists r s', extractTwitterCompetitors calculateEngagement stringToNumber oracle results s
               = (Ret r, s').
Proof.
  apply tryCatch_returns. intros e s0. eexists _, _. reflexivity.
Qed.

Lemma extractPinterestCompetitors_returns (results : json) (s : CState) :
  exists r s', extractPinterestCompetitors stringToNumber oracle results s = (Ret r, s').
Proof.
  apply tryCatch_returns. intros e s0. eexists _, _. reflexivity.
Qed.

Lemma extractTikTokCompetitors_returns (results : json) (s : CState) :
  exists r s', extractTikTokCompetitors calculateEngagement stringToNumber oracle results s
               = (Ret r, s').
Proof.
  apply tryCatch_returns. intros e s0. eexists _, _. reflexivity.
Qed.

Lemma identifyItem_returns (item : StoredRecord) (s : CState) :
  exists s', identifyItem calculateEngagement stringToNumber oracle extractGenericCompetitors
               item s = (Ret tt, s').
Proof.
  unfold identifyItem.
  destruct (r_data item) as [d|]; [|eexists; reflexivity].
  destruct (negb (truthy (Some d))); [eexists; reflexivity|].
  destruct (prop d "results") as [results|]; [|eexists; reflexivity].
  destruct (negb (truthy (Some results))); [eexists; reflexivity|].
  unfold bind.
  destruct (String.eqb (r_source item) "twitter").
  { destruct (extractTwitterCompetitors_returns results s) as (r & s' & ->).
    eexists. reflexivity. }
  destruct (String.eqb (r_source item) "pinterest").
  { destruct (extractPinterestCompetitors_returns results s) as (r & s' & ->).
    eexists. reflexivity. }
  destruct (String.eqb (r_source item) "tiktok").
  { destruct (extractTikTokCompetitors_returns results s) as (r & s' & ->).
    eexists. reflexivity. }
  eexists. reflexivity.
Qed.

Lemma identifyCompetitors_returns (data : list StoredRecord) (s : CState) :
  exists s', identifyCompetitors calculateEngagement stringToNumber oracle
               extractGenericCompetitors data s = (Ret true, s').
Proof.
  unfold identifyCompetitors, tryCatch, bind.
  destruct (forEach_returns
              (identifyItem calculateEngagement stringToNumber oracle extractGenericCompetitors)
              (List.filter isSocialMedia data) identifyItem_returns s) as [s' ->].
  eexists. reflexivity.
Qed.

(** *** Identification on Twitter *)

Lemma lessThan_number (n k : Z) :
  lessThan stringToNumber (Some (JNum n)) k = (n <? k).
Proof.
  unfold lessThan, toNumber, Qle_bool. cbn [Qnum Qden inject_Z].
  rewrite !Z.mul_1_r. symmetry. apply Z.ltb_antisym.
Qed.

(** A profile stored by [addCompetitor] has no [platformId], whatever the
    candidate carried. *)
Lemma addCompetitor_effect (c : Candidate) (s : CState) :
  cand_id c = None ->
  exists s' p,
    addCompetitor oracle c s = (Ret (Some (generatedId oracle (tick s))), s') /\
    competitors (competitorData s')
    = Obj.set (competitors (competitorData s)) (generatedId oracle (tick s)) p /\
    id p = generatedId oracle (tick s) /\
    platform p = cand_platform c /\
    niche p = cand_niche c /\
    name p = cand_name c /\
    platformId p = None /\
    content p = [] /\
    tick s' = (tick s + 4)%nat.
Proof.
  intros Hid.
  unfold addCompetitor, tryCatch, bind, get, modify, ret, newDate, readOracle,
    Competitor.saveToStorage, setCompetitors.
  rewrite Hid. cbn [tick competitorData competitors insights localStorage initialized].
  destruct (available (localStorage s));
    eexists _, _; (split; [reflexivity|]);
    cbn [tick competitorData competitors insights localStorage initialized];
    (split; [reflexivity|]); cbn [id platform niche name platformId content];
    repeat split; lia.
Qed.

Lemma twitterItem_new (tf uf : list (string * json)) (n : Z) (s : CState) :
  lookupField "user" tf = Some (JObj uf) ->
  lookupField "followers_count" uf = Some (JNum n) ->
  1000 <= n ->
  List.find (fun competitor =>
               String.eqb (platform competitor) "twitter" &&
               strictEq (platformId competitor) (lookupField "id" uf))
    (Obj.values (competitors (competitorData s))) = None ->
  exists s' p,
    twitterItem calculateEngagement stringToNumber oracle (JObj tf) s = (Ret tt, s') /\
    competitors (competitorData s')
    = Obj.set (competitors (competitorData s)) (generatedId oracle (tick s)) p /\
    id p = generatedId oracle (tick s) /\
    platform p = "twitter"%string /\
    niche p = determineNiche (lookupField "text" tf) /\
    platformId p = None /\
    tick s' = (tick s + 4)%nat.
Proof.
  intros Huser Hf Hn Hfind.
  unfold twitterItem, bind, Competitor.member, ret, findCompetitor, get.
  cbn [prop]. rewrite Huser. cbn [truthy negb field prop]. rewrite Hf, lessThan_number.
  destruct (Z.ltb_spec n 1000) as [|_]; [lia|].
  unfold bind, get, ret. rewrite Hfind.
  match goal with
  | |- context [addCompetitor oracle ?c s] =>
      destruct (addCompetitor_effect c s eq_refl)
        as (s' & p & -> & Hc & Hid & Hp & Hni & _ & Hpid & _ & Ht)
  end.
  exists s', p. cbn [cand_platform cand_niche] in Hp, Hni.
  repeat split; assumption.
Qed.

Lemma identify_single_tweet (item : StoredRecord) (fields tf uf : list (string * json))
    (n : Z) (s : CState) :
  r_source item = "twitter"%string ->
  r_data item = Some (JObj fields) ->
  lookupField "results" fields = Some (JArr [JObj tf]) ->
  lookupField "user" tf = Some (JObj uf) ->
  lookupField "followers_count" uf = Some (JNum n) ->
  1000 <= n ->
  competitors (competitorData s) = [] ->
  exists s' p,
    identifyCompetitors calculateEngagement stringToNumber oracle extractGenericCompetitors
      [item] s = (Ret true, s') /\
    competitors (competitorData s') = [(id p, p)] /\
    platform p = "twitter"%string /\
    niche p = determineNiche (lookupField "text" tf).
Proof.
  intros Hsrc Hdata Hres Huser Hf Hn Hempty.
  destruct (twitterItem_new tf uf n s Huser Hf Hn) as (s' & p & Hrun & Hc & Hid & Hp & Hni & _).
  { rewrite Hempty. reflexivity. }
  exists s', p.
  unfold identifyCompetitors, tryCatch, bind. cbn [List.filter].
  unfold isSocialMedia. rewrite Hsrc.
  replace (String.eqb (r_category item) "socialMedia" ||
           existsb (String.eqb "twitter") ["twitter"; "pinterest"; "tiktok"])%string
    with true by (rewrite orb_true_r; reflexivity).
  cbn [forEach]. unfold bind, identifyItem. rewrite Hdata.
  change (truthy (Some (JObj fields))) with true. cbn [negb prop]. rewrite Hres.
  change (truthy (Some (JArr [JObj tf]))) with true. cbn [negb]. rewrite Hsrc.
  change (String.eqb "twitter" "twitter") with true. cbv iota.
  unfold bind, extractTwitterCompetitors, tryCatch. cbn [forEach]. unfold bind.
  rewrite Hrun. unfold ret.
  split; [reflexivity|]. rewrite Hc, Hempty, <- Hid.
  split; [reflexivity|]. split; assumption.
Qed.

(** *** The top-level call *)

Abbreviation analyzeAll :=
  (Competitor.analyzeAllData calculateEngagement analyzeDerived stringToNumber oracle
     extractGenericCompetitors).

Lemma initializeC_returns (s : CState) :
  exists b, Competitor.initialize s = (Ret b, snd (Competitor.initialize s)).
Proof.
  unfold Competitor.initialize.
  destruct (available (localStorage s)); [|eexists; reflexivity].
  destruct (slot (localStorage s)); eexists; reflexivity.
Qed.

Lemma ensureC_run (s : CState) :
  (if initialized s then ret true else Competitor.initialize) s
  = (Ret (match fst ((if initialized s then ret true else Competitor.initialize) s) with
          | Ret b => b | Throw _ => true end), ensureInitializedC s).
Proof.
  unfold ensureInitializedC. destruct (initialized s); [reflexivity|].
  destruct (initializeC_returns s) as [b Hb]. rewrite Hb. reflexivity.
Qed.

Lemma analyzeAllC_empty (s : CState) :
  analyzeAll [] s =
  (Ret {| report := {| success := false; message := "No data available for analysis" |};
          result_competitors := None |},
   ensureInitializedC s).
Proof.
  unfold Competitor.analyzeAllData, tryCatch, bind, get. rewrite ensureC_run. reflexivity.
Qed.

(** With records the call reports success whatever its passes report, and
    after the identification the profiles are not touched any more. *)
Lemma analyzeAllC_run (item : StoredRecord) (rest : list StoredRecord) (s : CState) :
  let data := item :: rest in
  exists s1 s',
    identifyCompetitors calculateEngagement stringToNumber oracle extractGenericCompetitors
      data (ensureInitializedC s) = (Ret true, s1) /\
    competitors (competitorData s') = competitors (competitorData s1) /\
    analyzeAll data s =
    (Ret {| report := {| success := true;
                         message := "Successfully analyzed all data for competitor insights" |};
            result_competitors := Some (competitorData s') |}, s').
Proof.
  intros data.
  destruct (identifyCompetitors_returns data (ensureInitializedC s)) as [s1 H1].
  exists s1.
  assert (exists s',
             analyzeAll data s =
             (Ret {| report := {| success := true;
                                  message := "Successfully analyzed all data for competitor insights" |};
                     result_competitors := Some (competitorData s') |}, s') /\
             competitors (competitorData s') = competitors (competitorData s1))
    as (s' & Hrun & Hc).
  { unfold Competitor.analyzeAllData, tryCatch, bind, get.
    rewrite ensureC_run. subst data. cbv beta iota. rewrite H1.
    unfold runDerived, setInsights. cbn [competitorData competitors insights].
    repeat match goal with
           | |- context [analyzeDerived ?p ?c ?i] =>
               destruct (analyzeDerived p c i) as [? ?];
               cbn [competitorData competitors insights]
           end.
    unfold Competitor.saveToStorage. cbn [localStorage competitorData].
    destruct (available (localStorage s1)); eexists; split; reflexivity. }
  exists s'. split; [exact H1|]. split; [exact Hc|exact Hrun].
Qed.

End CompetitorFacts.

(** ** The budget facet *)

Section BudgetFacts.
Import Strategy Reading.

Lemma roundToCents_near (x : Q) : (Qabs (roundToCents x - x) <= 1 # 200)%Q.
Proof.
  unfold roundToCents, mathRound.
  pose proof (Qfloor_le (x * 100 + (1 # 2))) as H1.
  pose proof (Qlt_floor (x * 100 + (1 # 2))) as H2.
  rewrite inject_Z_plus in H2. change (inject_Z 1) with 1%Q in H2.
  revert H1 H2. generalize (inject_Z (Qfloor (x * 100 + (1 # 2)))). intros q H1 H2.
  apply Qabs_case; intros _; unfold Qdiv;
    change (/ 100)%Q with (1 # 100)%Q; lra.
Qed.

Lemma totalPriority_sum (l : list PrioritizedNiche) :
  (totalPriority l == Qsum (map priority l))%Q.
Proof.
  unfold totalPriority.
  assert (forall a, fold_left (fun sum niche => sum + priority niche) l a
                    == a + Qsum (map priority l))%Q as H.
  { induction l as [|n rest IH]; intros a; simpl.
    - ring.
    - rewrite IH. ring. }
  rewrite H. ring.
Qed.

Lemma Qsum_scaled (k : Q) (l : list Q) :
  (Qsum (map (fun p => p * k) l) == Qsum l * k)%Q.
Proof.
  induction l as [|p rest IH]; simpl; [ring|]. rewrite IH. ring.
Qed.

(** Before rounding the shares add up to the budget. *)
Lemma shares_sum (l : list PrioritizedNiche) (B : Q) :
  ~ (totalPriority l == 0)%Q ->
  (Qsum (map (share (totalPriority l) B) l) == B)%Q.
Proof.
  intros Hnz.
  assert (Qsum (map (share (totalPriority l) B) l)
          == Qsum (map (fun p => p * (/ totalPriority l * B)) (map priority l)))%Q as ->.
  { rewrite map_map. unfold share.
    generalize (totalPriority l). clear Hnz. intros t.
    induction l as [|n rest IH]; simpl; [reflexivity|].
    rewrite IH. unfold Qdiv. ring. }
  rewrite Qsum_scaled, <- totalPriority_sum. field. exact Hnz.
Qed.

Lemma rounded_sum_near (xs : list Q) :
  (Qabs (Qsum (map roundToCents xs) - Qsum xs)
   <= inject_Z (Z.of_nat (length xs)) * (1 # 200))%Q.
Proof.
  induction xs as [|x rest IH].
  - vm_compute. discriminate.
  - cbn [map Qsum foldr length]. fold (Qsum (map roundToCents rest)). fold (Qsum rest).
    rewrite Nat2Z.inj_succ. unfold Z.succ. rewrite inject_Z_plus.
    change (inject_Z 1) with 1%Q.
    pose proof (roundToCents_near x) as Hx.
    revert IH Hx.
    generalize (inject_Z (Z.of_nat (length rest))) (roundToCents x)
      (Qsum (map roundToCents rest)) (Qsum rest).
    intros n rx rs s IH Hx.
    apply Qabs_Qle_condition in IH. apply Qabs_Qle_condition in Hx.
    apply Qabs_Qle_condition. destruct IH, Hx. split; lra.
Qed.

Lemma get_app_None {V} (o : Obj.t V) (k k' : string) (v : V) :
  Obj.get o k = None -> k <> k' -> Obj.get (o ++ [(k', v)]) k = None.
Proof.
  intros Hnone Hne. induction o as [|[k0 v0] rest IH]; simpl in *.
  - destruct (String.eqb_spec k k'); [contradiction|reflexivity].
  - destruct (String.eqb k k0); [discriminate|apply IH, Hnone].
Qed.

Lemma fold_set_distinct {V} (f : PrioritizedNiche -> V) (l : list PrioritizedNiche) :
  forall acc : Obj.t V,
    List.NoDup (map pn_niche l) ->
    (forall n, In n l -> Obj.get acc (pn_niche n) = None) ->
    fold_left (fun o n => Obj.set o (pn_niche n) (f n)) l acc
    = acc ++ map (fun n => (pn_niche n, f n)) l.
Proof.
  induction l as [|n rest IH]; intros acc Hnd Hfresh; simpl.
  - rewrite app_nil_r. reflexivity.
  - apply List.NoDup_cons_iff in Hnd as [Hn Hnd].
    rewrite set_fresh by (apply Hfresh; left; reflexivity).
    rewrite IH; [rewrite <- app_assoc; reflexivity|exact Hnd|].
    intros m Hm. apply get_app_None.
    + apply Hfresh. right. exact Hm.
    + intros Heq. apply Hn. rewrite <- Heq. apply in_map, Hm.
Qed.

(** With distinct niches the allocation object has one rounded share per
    niche, in order. *)
Lemma allocate_distinct (l : list PrioritizedNiche) (B : Q) :
  List.NoDup (map pn_niche l) ->
  ~ (totalPriority l == 0)%Q ->
  allocate l B
  = map (fun n => (pn_niche n, Some (roundToCents (share (totalPriority l) B n)))) l.
Proof.
  intros Hnd Hnz. unfold allocate. cbv zeta.
  assert (Qeq_bool (totalPriority l) 0 = false) as ->.
  { destruct (Qeq_bool (totalPriority l) 0) eqn:E; [|reflexivity].
    apply Qeq_bool_iff in E. contradiction. }
  apply (fold_set_distinct
           (fun n => Some (roundToCents (share (totalPriority l) B n))) l [] Hnd).
  reflexivity.
Qed.

Lemma sumAllocation_finite (f : PrioritizedNiche -> Q) (l : list PrioritizedNiche) :
  sumAllocation (map (fun n => (pn_niche n, Some (f n))) l) = Some (Qsum (map f l)).
Proof.
  unfold sumAllocation, Obj.values. induction l as [|n rest IH]; [reflexivity|].
  cbn [map foldr snd] in *. rewrite IH. reflexivity.
Qed.

(** The allocations add up to the budget within half a cent per niche. *)
Lemma allocate_sum (l : list PrioritizedNiche) (B : Q) :
  List.NoDup (map pn_niche l) ->
  ~ (totalPriority l == 0)%Q ->
  exists sum,
    sumAllocation (allocate l B) = Some sum /\
    (Qabs (sum - B) <= inject_Z (Z.of_nat (length l)) * (1 # 200))%Q.
Proof.
  intros Hnd Hnz. rewrite allocate_distinct by assumption.
  rewrite (sumAllocation_finite (fun n => roundToCents (share (totalPriority l) B n))).
  eexists. split; [reflexivity|].
  pose proof (rounded_sum_near (map (share (totalPriority l) B) l)) as Hnear.
  rewrite map_map, length_map in Hnear.
  pose proof (shares_sum l B Hnz) as Hsum.
  revert Hnear Hsum.
  generalize (Qsum (map (fun x => roundToCents (share (totalPriority l) B x)) l))
    (Qsum (map (share (totalPriority l) B) l))
    (inject_Z (Z.of_nat (length l))).
  intros r x n Hnear Hsum.
  apply Qabs_Qle_condition in Hnear. apply Qabs_Qle_condition. destruct Hnear. split; lra.
Qed.

End BudgetFacts.

(** * The claims of the specification *)

Section TrendClaims.
Import Eff Trend Reading.
Context {Timeframes : Type}.
Variable analyzeByTimeframeOn : list StoredRecord -> Timeframes -> Report * Timeframes.
Variable oracle : Oracle.

Abbreviation TState := (@Trend.State Timeframes).

(** C1, as amended.  A second call of [analyzeAllData] over the same,
    non-empty snapshot leaves the sentiment and the related keywords of
    every keyword as the first call left them; the mentions of a keyword
    grow by the number of records the by-keyword pass handles under it
    before the first record it fails on, and the popularity of a niche by
    the number of records that match it before the first record the
    by-niche pass fails on. *)
Theorem second_call_keeps_sentiment_and_related
    (item : StoredRecord) (rest : list StoredRecord) (s : TState) :
  let data := item :: rest in
  let s1 := stateAfter analyzeByTimeframeOn oracle data s in
  let s2 := stateAfter analyzeByTimeframeOn oracle data s1 in
  let held := keywords (trendData s1) in
  (forall q,
      sentimentOf s2 q = sentimentOf s1 q /\
      relatedOf s2 q = relatedOf s1 q /\
      mentionsOf s2 q = mentionsOf s1 q + Z.of_nat (length (keywordHits held q data))) /\
  (forall m,
      popularityOf s2 m = popularityOf s1 m + Z.of_nat (length (nicheHits m data))).
Proof. apply after_twice. Qed.

(** C6.  From the service as constructed, with no saved document to load,
    the popularity of every niche is non-negative after any series of
    calls, and one more call over any snapshot adds to it the number of
    matching records, so that it never decreases. *)
Theorem popularity_nonnegative_and_monotone
    (t0 : Timeframes) (storageAvailable corrupt : bool)
    (snapshots : list (list StoredRecord)) (data : list StoredRecord) (n : string) :
  let s := stateAfterAll analyzeByTimeframeOn oracle snapshots
             (fresh t0 {| available := storageAvailable;
                          slot := if corrupt then Corrupt else NoItem |}) in
  let s' := stateAfter analyzeByTimeframeOn oracle data s in
  0 <= popularityOf s n /\
  popularityOf s' n = popularityOf s n + Z.of_nat (length (nicheHits n data)) /\
  popularityOf s n <= popularityOf s' n.
Proof.
  intros s s'.
  destruct (afterAll_invariant analyzeByTimeframeOn oracle snapshots
              (fresh t0 {| available := storageAvailable;
                           slot := if corrupt then Corrupt else NoItem |}))
    as [Hsteady Hpos].
  - apply fresh_steady.
  - intros m. reflexivity.
  - fold s in Hsteady, Hpos.
    pose proof (after_popularity analyzeByTimeframeOn oracle data s n Hsteady) as Hstep.
    fold s' in Hstep. split; [apply Hpos|]. split; [exact Hstep|]. lia.
Qed.

(** C10.  After the by-keyword pass the sentiment of a keyword is the
    sentiment of the last record handled under it, and after the
    by-product pass the sentiment of a product is the sentiment of the
    last record it was handled for: the earlier records and the value
    stored before leave no trace.  The records handled are those before
    the first one the pass fails on: in the by-keyword pass a record whose
    query is not a string, or names a member of [Object.prototype] that
    is no keyword yet; in the by-product pass a product whose id names
    such a member and is no product yet. *)
Theorem sentiment_is_that_of_last_record (data : list StoredRecord) (s : TState) :
  (forall q,
      sentimentOf (snd (analyzeByKeyword oracle data s)) q =
      match last (keywordHits (keywords (trendData s)) q data) with
      | Some results => Some (calculateSentiment results)
      | None => sentimentOf s q
      end) /\
  (forall key,
      productSentimentOf (snd (analyzeByProduct oracle data s)) key =
      match last (productHits key (productLog oracle data s)) with
      | Some results => Some (calculateSentiment results)
      | None => productSentimentOf s key
      end).
Proof.
  split.
  - intros q.
    destruct (analyzeByKeyword_effect oracle data s) as (r & s' & -> & _ & _ & _ & Hq).
    apply Hq.
  - intros key. destruct (analyzeByProduct_effect oracle data s) as (r & s' & -> & _ & _ & Hk).
    apply Hk.
Qed.
End TrendClaims.

(** C1, refuted as stated: the second call over the sample record counts
    the record again, for its keyword and for its niche. *)
Lemma second_call_counts_again :
  let s1 := Sample.trendsAfter [Sample.aiRecord] Sample.trendService in
  let s2 := Sample.trendsAfter [Sample.aiRecord] s1 in
  Reading.mentionsOf s1 "ai" = 1 /\
  Reading.mentionsOf s2 "ai" = 2 /\
  Reading.popularityOf s1 "AI & Automation Tools" = 1 /\
  Reading.popularityOf s2 "AI & Automation Tools" = 2 /\
  Reading.mentionsOf s2 "ai" <> Reading.mentionsOf s1 "ai" /\
  Reading.popularityOf s2 "AI & Automation Tools"
  <> Reading.popularityOf s1 "AI & Automation Tools".
Proof. vm_compute. repeat split; congruence. Qed.

Section CompetitorClaims.
Import Eff Competitor Reading.
Context {Engagement Insights : Type}.
Variable oracle : Oracle.

(** C8, as amended.  [updateCompetitor] and [removeCompetitor] called with
    an id that has no profile throw the error inside their own [try]
    block, catch it themselves and return [false]; the competitor map,
    and the rest of the state, are left as they were. *)
Theorem unknown_id_returns_false
    (id : string) (updates : Updates) (s : @Competitor.State Engagement Insights) :
  Obj.get (competitors (competitorData s)) id = None ->
  updateCompetitor_try oracle id updates s = (Throw (notFound id), s) /\
  updateCompetitor oracle id updates s = (Ret false, s) /\
  removeCompetitor_try id s = (Throw (notFound id), s) /\
  removeCompetitor id s = (Ret false, s).
Proof.
  intros Hnone. split; [|split; [|split]].
  - apply updateCompetitor_try_unknown, Hnone.
  - apply updateCompetitor_unknown, Hnone.
  - apply removeCompetitor_try_unknown, Hnone.
  - apply removeCompetitor_unknown, Hnone.
Qed.
End CompetitorClaims.

Lemma unknown_id_returns_false_witness :
  Obj.get (Competitor.competitors (Competitor.competitorData Sample.competitorService)) "ghost"
  = None /\
  Competitor.updateCompetitor Sample.oracle "ghost" Competitor.noUpdates Sample.competitorService
  = (Eff.Ret false, Sample.competitorService).
Proof.
  split; [reflexivity|].
  apply (unknown_id_returns_false Sample.oracle "ghost" Competitor.noUpdates
           Sample.competitorService).
  reflexivity.
Defined.

(** C8, refuted as stated: no error reaches the caller of the two
    mutations, and what the caller gets is the boolean [false]. *)
Lemma unknown_id_error_stays_inside :
  fst (Competitor.updateCompetitor Sample.oracle "ghost" Competitor.noUpdates
         Sample.competitorService) = Eff.Ret false /\
  fst (Competitor.updateCompetitor Sample.oracle "ghost" Competitor.noUpdates
         Sample.competitorService) <> Eff.Throw (Competitor.notFound "ghost") /\
  fst (Competitor.removeCompetitor "ghost" Sample.competitorService) = Eff.Ret false /\
  fst (Competitor.removeCompetitor "ghost" Sample.competitorService)
  <> Eff.Throw (Competitor.notFound "ghost").
Proof. vm_compute. repeat split; congruence. Qed.

(** C4, evaluated on the sample records.  The engine is run twice over a
    snapshot with one tweet, one video and one pin.  The author of the tweet
    and the author of the video are each filed a second time; the creator of
    the pin, recognised by name, is not. *)
Lemma same_record_twice_two_profiles :
  let data := [Sample.aiRecord; Sample.tiktokRecord; Sample.pinterestRecord] in
  let s1 := Sample.competitorsAfter data Sample.competitorService in
  let s2 := Sample.competitorsAfter data s1 in
  map (fun c => (Competitor.platform c, Competitor.name c)) (Competitor.getAllCompetitors s1)
  = [("twitter"%string, Some (JStr "Top Affiliate"));
     ("tiktok"%string, Some (JStr "affiliateguru"));
     ("pinterest"%string, Some (JStr "Unknown Creator"))] /\
  map (fun c => (Competitor.platform c, Competitor.name c)) (Competitor.getAllCompetitors s2)
  = [("twitter"%string, Some (JStr "Top Affiliate"));
     ("tiktok"%string, Some (JStr "affiliateguru"));
     ("pinterest"%string, Some (JStr "Unknown Creator"));
     ("twitter"%string, Some (JStr "Top Affiliate"));
     ("tiktok"%string, Some (JStr "affiliateguru"))] /\
  Forall (fun c => Competitor.platformId c = None) (Competitor.getAllCompetitors s2).
Proof. vm_compute. repeat split; repeat constructor. Qed.

Section BudgetClaims.
Import Strategy.
Variable prioritizeNiches : list string -> list PrioritizedNiche.

(** C2, as amended.  When the prioritised niches are distinct and their
    total priority is not zero, [generateBudgetStrategy] pushes a strategy
    whose allocations sum to the budget within half a cent per niche. *)
Theorem budget_allocations_sum_within_half_cent_each
    (options : Options) (budgetStrategies : list BudgetStrategy) :
  let prioritized := prioritizeNiches (focusNiches options) in
  NoDup (map pn_niche prioritized) ->
  ~ (totalPriority prioritized == 0)%Q ->
  exists strategy sum,
    generateBudgetStrategy prioritizeNiches options budgetStrategies
    = (true, budgetStrategies ++ [strategy]) /\
    initialBudget strategy = budget options /\
    sumAllocation (allocation strategy) = Some sum /\
    (Qabs (sum - budget options)
     <= inject_Z (Z.of_nat (length prioritized)) * (1 # 200))%Q.
Proof.
  intros prioritized Hnd Hnz.
  destruct (allocate_sum prioritized (budget options)) as (sum & Hsum & Hnear).
  - apply NoDup_ListNoDup, Hnd.
  - exact Hnz.
  - eexists _, sum. split; [reflexivity|]. cbn [initialBudget allocation].
    split; [reflexivity|]. split; assumption.
Qed.
End BudgetClaims.

Lemma budget_allocations_sum_witness :
  exists strategy sum,
    Strategy.generateBudgetStrategy (fun _ => Sample.evenNiches)
      {| Strategy.budget := 20; Strategy.focusNiches := preferredNiches;
         Strategy.goalIncome := 10000 |} []
    = (true, [strategy]) /\
    Strategy.initialBudget strategy = 20%Q /\
    Strategy.sumAllocation (Strategy.allocation strategy) = Some sum /\
    (Qabs (sum - 20) <= inject_Z (Z.of_nat 5) * (1 # 200))%Q.
Proof.
  apply (budget_allocations_sum_within_half_cent_each (fun _ => Sample.evenNiches)
           {| Strategy.budget := 20; Strategy.focusNiches := preferredNiches;
              Strategy.goalIncome := 10000 |} []).
  - apply (@bool_decide_unpack _ (NoDup_dec _)). vm_compute. reflexivity.
  - vm_compute. discriminate.
Defined.

(** C2, refuted as stated: a budget of 20.02 over five niches of equal
    priority gives each niche 4.00, two cents short in total. *)
Lemma budget_allocations_two_cents_short :
  exists sum,
    Strategy.sumAllocation (Strategy.allocate Sample.evenNiches (2002 # 100)) = Some sum /\
    (sum == 20)%Q /\
    ~ (Qabs (sum - (2002 # 100)) <= 1 # 100)%Q.
Proof.
  eexists. split; [vm_compute; reflexivity|]. split; [vm_compute; reflexivity|].
  vm_compute. intros H. apply H. reflexivity.
Qed.

Section PipelineClaims.
Import Eff Reading.
Context {Timeframes Engagement Insights : Type}.
Variable analyzeByTimeframeOn : list StoredRecord -> Timeframes -> Report * Timeframes.
Variable calculateEngagement : json -> Engagement.
Variable analyzeDerived :
  Competitor.DerivedPass -> Obj.t (@Competitor.CompetitorProfile Engagement) ->
  Insights -> Report * Insights.
Variable stringToNumber : string -> option Q.
Variable extractGenericCompetitors :
  json -> string -> @Competitor.State Engagement Insights ->
  @Competitor.State Engagement Insights.
Variable oracle : Oracle.

Abbreviation trendAnalyzeAllData := (Trend.analyzeAllData analyzeByTimeframeOn oracle).
Abbreviation competitorAnalyzeAllData :=
  (Competitor.analyzeAllData calculateEngagement analyzeDerived stringToNumber oracle
     extractGenericCompetitors).

(** C5.  With an empty snapshot both engines return the failure report
    ["No data available for analysis"] and throw nothing.  No pass runs:
    the state is the one the lazy [initialize] leaves, that is the state
    before the call when the service was initialised, and otherwise the
    saved document when there is one that parses; the store itself is not
    written. *)
Theorem empty_snapshot_is_reported_not_thrown
    (st : @Trend.State Timeframes) (sc : @Competitor.State Engagement Insights) :
  trendAnalyzeAllData [] st
  = (Ret {| Trend.report := {| success := false;
                               message := "No data available for analysis" |};
            Trend.trends := None |},
     ensureInitialized st) /\
  competitorAnalyzeAllData [] sc
  = (Ret {| Competitor.report := {| success := false;
                                    message := "No data available for analysis" |};
            Competitor.result_competitors := None |},
     ensureInitializedC sc) /\
  Trend.trendData (ensureInitialized st)
  = (if Trend.initialized st then Trend.trendData st
     else match available (Trend.localStorage st), slot (Trend.localStorage st) with
          | true, Saved doc => doc
          | _, _ => Trend.trendData st
          end) /\
  Competitor.competitorData (ensureInitializedC sc)
  = (if Competitor.initialized sc then Competitor.competitorData sc
     else match available (Competitor.localStorage sc),
                slot (Competitor.localStorage sc) with
          | true, Saved doc => doc
          | _, _ => Competitor.competitorData sc
          end) /\
  Trend.localStorage (ensureInitialized st) = Trend.localStorage st /\
  Competitor.localStorage (ensureInitializedC sc) = Competitor.localStorage sc.
Proof.
  split; [apply analyzeAllData_empty|]. split; [apply analyzeAllC_empty|].
  unfold ensureInitialized, ensureInitializedC, Trend.initialize, Competitor.initialize.
  repeat split.
  - destruct (Trend.initialized st); [reflexivity|].
    destruct (available (Trend.localStorage st)); [|reflexivity].
    destruct (slot (Trend.localStorage st)); reflexivity.
  - destruct (Competitor.initialized sc); [reflexivity|].
    destruct (available (Competitor.localStorage sc)); [|reflexivity].
    destruct (slot (Competitor.localStorage sc)); reflexivity.
  - destruct (Trend.initialized st); [reflexivity|].
    destruct (available (Trend.localStorage st)); [|reflexivity].
    destruct (slot (Trend.localStorage st)); reflexivity.
  - destruct (Competitor.initialized sc); [reflexivity|].
    destruct (available (Competitor.localStorage sc)); [|reflexivity].
    destruct (slot (Competitor.localStorage sc)); reflexivity.
Qed.

(** C9.  With a non-empty snapshot both engines return a success report,
    whatever their passes report.  The three passes of the trend engine
    that are in the sources return normally and report a failure exactly
    when a record makes their loop throw; the derived passes of the
    competitor engine may report anything; none of it shows in the result
    of the call. *)
Theorem analyzeAllData_reports_success_whatever_the_passes_report
    (item : StoredRecord) (rest : list StoredRecord)
    (st : @Trend.State Timeframes) (sc : @Competitor.State Engagement Insights) :
  let data := item :: rest in
  (exists trends,
      fst (trendAnalyzeAllData data st)
      = Ret {| Trend.report := {| success := true;
                                  message := "Successfully analyzed all data for trends" |};
               Trend.trends := Some trends |}) /\
  (exists competitors,
      fst (competitorAnalyzeAllData data sc)
      = Ret {| Competitor.report :=
                 {| success := true;
                    message := "Successfully analyzed all data for competitor insights" |};
               Competitor.result_competitors := Some competitors |}) /\
  (exists r, fst (Trend.analyzeByNiche oracle data (ensureInitialized st)) = Ret r /\
             success r = negb (aborted nicheHandling data)) /\
  (forall s : @Trend.State Timeframes,
      exists r, fst (Trend.analyzeByKeyword oracle data s) = Ret r /\
                success r
                = negb (aborted (keywordHandling (Trend.keywords (Trend.trendData s))) data)) /\
  (forall s : @Trend.State Timeframes,
      exists r, fst (Trend.analyzeByProduct oracle data s) = Ret r /\
                success r = negb (productsAborted oracle data s)) /\
  aborted nicheHandling [Sample.numberedRecord] = true /\
  aborted (keywordHandling ∅) [Sample.numberedRecord] = true /\
  aborted (keywordHandling ∅) [Sample.constructorRecord] = true.
Proof.
  intros data. split; [|split; [|split; [|split; [|split]]]].
  - destruct (analyzeAllData_run analyzeByTimeframeOn oracle item rest st)
      as (r1 & s1 & r2 & s2 & r3 & s3 & r4 & s' & _ & _ & _ & _ & _ & _ & _ & _ & Hrun).
    fold data in Hrun. rewrite Hrun. eexists. reflexivity.
  - destruct (analyzeAllC_run calculateEngagement analyzeDerived stringToNumber oracle
                extractGenericCompetitors item rest sc) as (s1 & s' & _ & _ & Hrun).
    fold data in Hrun. rewrite Hrun. eexists. reflexivity.
  - destruct (analyzeByNiche_effect oracle data (ensureInitialized st))
      as (r & s' & Hrun & Hs & _).
    exists r. rewrite Hrun. split; [reflexivity|exact Hs].
  - intros s. destruct (analyzeByKeyword_effect oracle data s) as (r & s' & Hrun & Hs & _).
    exists r. rewrite Hrun. split; [reflexivity|exact Hs].
  - intros s. destruct (analyzeByProduct_effect oracle data s) as (r & s' & Hrun & Hs & _).
    exists r. rewrite Hrun. split; [reflexivity|exact Hs].
  - repeat split; reflexivity.
Qed.

Lemma determineNiche_only_ai (text : string) :
  includes (toLowerCase (chars text)) (chars "ai") = true ->
  forallb (fun niche =>
             String.eqb niche "AI & Automation Tools" ||
             negb (Competitor.matchesNicheText niche (chars text)))
    preferredNiches = true ->
  Competitor.determineNiche (Some (JStr text)) = "AI & Automation Tools"%string.
Proof.
  intros Hai Hothers.
  unfold preferredNiches in Hothers. cbn [forallb] in Hothers.
  repeat (apply andb_prop in Hothers as [?H Hothers]).
  repeat match goal with
         | H : (String.eqb ?a ?b || negb ?m)%bool = true |- _ =>
             change (String.eqb a b) with false in H;
             cbn [orb] in H; apply negb_true_iff in H
         end.
  assert (Competitor.matchesNicheText "AI & Automation Tools" (chars text) = true) as Hm.
  { unfold Competitor.matchesNicheText.
    change (getNicheKeywords "AI & Automation Tools")
      with ["ai"; "artificial intelligence"; "automation"; "machine learning";
            "chatbot"; "ai writing"; "ai tools"; "automation software"; "workflow";
            "productivity tools"; "ai assistant"; "data analysis"]%string.
    cbn [existsb]. change (toLowerCase (chars "ai")) with (chars "ai").
    rewrite Hai. reflexivity. }
  unfold Competitor.determineNiche, preferredNiches. cbn [List.find].
  repeat match goal with
         | H : Competitor.matchesNicheText _ _ = _ |- _ => rewrite H; clear H
         end.
  reflexivity.
Qed.

Lemma matchesNiche_ai (query : string) (results : json) :
  includes (toLowerCase (stringify results)) (chars "ai") = true ->
  Trend.matchesNiche "AI & Automation Tools" query results = true.
Proof.
  intros Hai. unfold Trend.matchesNiche.
  change (getNicheKeywords "AI & Automation Tools")
    with ["ai"; "artificial intelligence"; "automation"; "machine learning";
          "chatbot"; "ai writing"; "ai tools"; "automation software"; "workflow";
          "productivity tools"; "ai assistant"; "data analysis"]%string.
  cbn [existsb]. change (toLowerCase (chars "ai")) with (chars "ai").
  rewrite Hai, orb_true_r. reflexivity.
Qed.

(** C7.  The store holds one Twitter record: its query is a string, its
    results are one tweet, the user of the tweet has 5000 followers, and
    the text of the tweet contains "ai", the keyword of "AI & Automation
    Tools", and no keyword of another niche.  Both services are as
    constructed, with no saved document to load.  Then the competitor
    engine ends with exactly one profile, on platform "twitter" and in
    niche "AI & Automation Tools", and the trend engine ends with
    popularity 1 for that niche.  The niche of the profile is what
    [determineNiche] returns, which is read from the specification; with
    no other niche matched, the order in which it tries the niches plays
    no part. *)
Theorem single_ai_tweet_end_to_end
    (item : StoredRecord) (fields tf uf : list (string * json)) (query text : string)
    (t0 : Timeframes) (i0 : Insights) (a1 c1 a2 c2 : bool) :
  r_source item = "twitter"%string ->
  r_data item = Some (JObj fields) ->
  lookupField "query" fields = Some (JStr query) ->
  lookupField "results" fields = Some (JArr [JObj tf]) ->
  lookupField "user" tf = Some (JObj uf) ->
  lookupField "followers_count" uf = Some (JNum 5000) ->
  lookupField "text" tf = Some (JStr text) ->
  includes (toLowerCase (chars text)) (chars "ai") = true ->
  forallb (fun niche =>
             String.eqb niche "AI & Automation Tools" ||
             negb (Competitor.matchesNicheText niche (chars text)))
    preferredNiches = true ->
  let sc := snd (competitorAnalyzeAllData [item]
                   (Competitor.fresh i0 {| available := a1;
                                           slot := if c1 then Corrupt else NoItem |})) in
  let st := stateAfter analyzeByTimeframeOn oracle [item]
              (Trend.fresh t0 {| available := a2;
                                 slot := if c2 then Corrupt else NoItem |}) in
  (exists profile,
      Competitor.getAllCompetitors sc = [profile] /\
      Competitor.platform profile = "twitter"%string /\
      Competitor.niche profile = "AI & Automation Tools"%string) /\
  popularityOf st "AI & Automation Tools" = 1.
Proof.
  intros Hsrc Hdata Hquery Hres Huser Hf Htext Hai Hothers sc st. split.
  - set (s0 := Competitor.fresh i0 {| available := a1;
                                      slot := if c1 then Corrupt else NoItem |}) in *.
    assert (Competitor.competitors (Competitor.competitorData (ensureInitializedC s0)) = [])
      as Hempty by (destruct a1, c1; reflexivity).
    destruct (analyzeAllC_run calculateEngagement analyzeDerived stringToNumber oracle
                extractGenericCompetitors item [] s0) as (s1 & s' & H1 & Hc & Hrun).
    destruct (identify_single_tweet calculateEngagement stringToNumber oracle
                extractGenericCompetitors item fields tf uf 5000 (ensureInitializedC s0)
                Hsrc Hdata Hres Huser Hf ltac:(lia) Hempty)
      as (s1' & p & H1' & Hp & Hplat & Hniche).
    rewrite H1 in H1'. injection H1' as <-.
    exists p. subst sc. rewrite Hrun. cbn [snd].
    unfold Competitor.getAllCompetitors. rewrite Hc, Hp.
    split; [reflexivity|]. split; [exact Hplat|].
    rewrite Hniche, Htext. apply determineNiche_only_ai; assumption.
  - subst st.
    rewrite (after_popularity analyzeByTimeframeOn oracle) by apply fresh_steady.
    rewrite nicheHits_cons.
    assert (exists q, nicheHandling item = Handled (q, JArr [JObj tf])) as [q ->].
    { unfold nicheHandling. rewrite Hdata, Hres, Hquery.
      change (truthy (Some (JArr [JObj tf]))) with true. cbv iota.
      unfold orElse. destruct (truthy (Some (JStr query))); eexists; reflexivity. }
    rewrite matchesNiche_ai.
    + reflexivity.
    + apply (includes_element (JObj tf)); [left; reflexivity|].
      apply (includes_field "text" (JStr text)); [exact Htext|].
      cbn [stringify]. apply includes_quote; [reflexivity|exact Hai].
Qed.

End PipelineClaims.

Lemma single_ai_tweet_end_to_end_witness :
  (exists profile,
      Competitor.getAllCompetitors
        (Sample.competitorsAfter [Sample.aiRecord] Sample.competitorService) = [profile] /\
      Competitor.platform profile = "twitter"%string /\
      Competitor.niche profile = "AI & Automation Tools"%string) /\
  Reading.popularityOf (Sample.trendsAfter [Sample.aiRecord] Sample.trendService)
    "AI & Automation Tools" = 1.
Proof.
  eapply (single_ai_tweet_end_to_end Sample.analyzeByTimeframeOn Sample.calculateEngagement
            Sample.analyzeDerived Sample.stringToNumber Sample.extractGenericCompetitors
            Sample.oracle Sample.aiRecord _ _ _ "AI"
            "Check out this amazing AI product! #affiliate #marketing" tt tt
            true false true false).
  all: first [reflexivity | vm_compute; reflexivity].
Defined.

(** * Further properties of the code *)

(** ** The record store *)

Section Enumeration.
Import JS DataStorage StoreReading.
Context {V : Type}.

Lemma insertSorted_perm {A} (before : A -> A -> bool) (x : A) (l : list A) :
  Permutation (Trend.insertSorted before x l) (x :: l).
Proof.
  induction l as [|y l IH]; cbn [Trend.insertSorted]; [reflexivity|].
  destruct (before x y); [reflexivity|].
  rewrite IH. apply perm_swap.
Qed.

Lemma stableSort_perm {A} (before : A -> A -> bool) (l : list A) :
  Permutation (Trend.stableSort before l) l.
Proof.
  unfold Trend.stableSort. induction l as [|x l IH]; cbn [foldr]; [reflexivity|].
  rewrite insertSorted_perm, IH. reflexivity.
Qed.

Lemma filter_split_perm {A} (f : A -> bool) (l : list A) :
  Permutation (List.filter f l ++ List.filter (fun x => negb (f x)) l) l.
Proof.
  induction l as [|x l IH]; cbn [List.filter]; [reflexivity|].
  destruct (f x); cbn [negb app].
  - rewrite IH. reflexivity.
  - rewrite <- Permutation_middle, IH. reflexivity.
Qed.

Lemma forIn_perm (o : Obj.t V) : Permutation (forIn o) o.
Proof.
  unfold forIn. rewrite stableSort_perm.
  apply (filter_split_perm (fun kv => Trend.isArrayIndex (fst kv))).
Qed.

Lemma forIn_In (o : Obj.t V) (kv : string * V) : In kv (forIn o) <-> In kv o.
Proof.
  split; apply Permutation_in; [apply forIn_perm | symmetry; apply forIn_perm].
Qed.

Lemma forIn_from (o : Obj.t V) (kv : string * V) : In kv (forIn o) -> In kv o.
Proof. apply forIn_In. Qed.

Lemma forIn_to (o : Obj.t V) (kv : string * V) : In kv o -> In kv (forIn o).
Proof. apply forIn_In. Qed.

Lemma forIn_length (o : Obj.t V) : length (forIn o) = length o.
Proof. apply Permutation_length, forIn_perm. Qed.

Lemma forIn_nil : forIn (@nil (string * V)) = [].
Proof. reflexivity. Qed.

End Enumeration.

Section MoreObjFacts.
Import StoreReading.
Context {V : Type}.
Implicit Types (o : Obj.t V) (k : string) (v : V).

Lemma get_In o k v : Obj.get o k = Some v -> In (k, v) o.
Proof.
  induction o as [|[k0 v0] rest IH]; cbn [Obj.get]; [discriminate|].
  destruct (String.eqb_spec k k0) as [->|Hne].
  - intros [= ->]. left. reflexivity.
  - intros H. right. apply IH, H.
Qed.

Lemma In_keys o k v : In (k, v) o -> In k (Obj.keys o).
Proof. intros H. unfold Obj.keys. apply (in_map fst) in H. exact H. Qed.

Lemma existsb_eqb_false k (ks : list string) :
  existsb (String.eqb k) ks = false <-> ~ In k ks.
Proof.
  split.
  - intros H Hin. assert (existsb (String.eqb k) ks = true) as Ht.
    { apply existsb_exists. exists k. split; [exact Hin|apply String.eqb_refl]. }
    congruence.
  - intros H. destruct (existsb (String.eqb k) ks) eqn:E; [|reflexivity].
    apply existsb_exists in E as (x & Hin & Heq). apply String.eqb_eq in Heq. subst x.
    contradiction.
Qed.

Lemma distinct_cons k (ks : list string) :
  distinct (k :: ks) = true <-> ~ In k ks /\ distinct ks = true.
Proof.
  cbn [distinct]. rewrite andb_true_iff, negb_true_iff, existsb_eqb_false. reflexivity.
Qed.

Lemma distinct_app_one (ks : list string) k :
  distinct ks = true -> ~ In k ks -> distinct (ks ++ [k]) = true.
Proof.
  induction ks as [|k0 ks IH]; intros Hd Hn; [reflexivity|].
  apply distinct_cons in Hd as [Hk0 Hd]. cbn [app]. apply distinct_cons. split.
  - rewrite in_app_iff. intros [H|[H|[]]]; [contradiction|]. subst k0. apply Hn. left. reflexivity.
  - apply IH; [exact Hd|]. intros H. apply Hn. right. exact H.
Qed.

Lemma In_get o k v : distinct (Obj.keys o) = true -> In (k, v) o -> Obj.get o k = Some v.
Proof.
  induction o as [|[k0 v0] rest IH]; cbn [Obj.get Obj.keys map fst]; [intros _ []|].
  intros Hd Hin. apply distinct_cons in Hd as [Hk0 Hd].
  destruct Hin as [[= -> ->]|Hin].
  - rewrite String.eqb_refl. reflexivity.
  - destruct (String.eqb_spec k k0) as [->|Hne].
    + exfalso. apply Hk0. apply (In_keys rest k0 v Hin).
    + apply IH; assumption.
Qed.

Lemma keys_set_present o k v :
  is_Some (Obj.get o k) -> Obj.keys (Obj.set o k v) = Obj.keys o.
Proof.
  induction o as [|[k0 v0] rest IH]; cbn [Obj.get Obj.set Obj.keys map fst].
  - intros [? ?]. discriminate.
  - destruct (String.eqb k k0); cbn [map fst]; [reflexivity|].
    intros H. f_equal. apply IH, H.
Qed.

Lemma keys_set_absent o k v :
  Obj.get o k = None -> Obj.keys (Obj.set o k v) = Obj.keys o ++ [k].
Proof.
  intros H. rewrite set_fresh by exact H. unfold Obj.keys. rewrite map_app. reflexivity.
Qed.

Lemma distinct_set o k v :
  distinct (Obj.keys o) = true -> distinct (Obj.keys (Obj.set o k v)) = true.
Proof.
  intros Hd. destruct (Obj.get o k) eqn:E.
  - rewrite keys_set_present by (rewrite E; eauto). exact Hd.
  - rewrite keys_set_absent by exact E. apply distinct_app_one; [exact Hd|].
    apply get_None_keys, E.
Qed.

Lemma keys_remove_subset o k k' : In k' (Obj.keys (Obj.remove o k)) -> In k' (Obj.keys o).
Proof.
  induction o as [|[k0 v0] rest IH]; cbn [Obj.remove Obj.keys map fst]; [tauto|].
  destruct (String.eqb k k0); cbn [map fst In].
  - intros H. right. exact H.
  - intros [H|H]; [left; exact H|right; apply IH, H].
Qed.

Lemma distinct_remove o k :
  distinct (Obj.keys o) = true -> distinct (Obj.keys (Obj.remove o k)) = true.
Proof.
  induction o as [|[k0 v0] rest IH]; cbn [Obj.remove Obj.keys map fst]; [tauto|].
  intros Hd. apply distinct_cons in Hd as [Hk0 Hd].
  destruct (String.eqb k k0); [exact Hd|].
  cbn [map fst]. apply distinct_cons. split; [|apply IH, Hd].
  intros H. apply Hk0. apply (keys_remove_subset rest k k0 H).
Qed.

Lemma get_remove_eq o k :
  distinct (Obj.keys o) = true -> Obj.get (Obj.remove o k) k = None.
Proof.
  induction o as [|[k0 v0] rest IH]; cbn [Obj.remove Obj.get Obj.keys map fst]; [reflexivity|].
  intros Hd. apply distinct_cons in Hd as [Hk0 Hd].
  destruct (String.eqb_spec k k0) as [->|Hne].
  - destruct (Obj.get rest k0) eqn:E; [|reflexivity].
    exfalso. apply Hk0. apply (In_keys rest k0 v), get_In, E.
  - cbn [Obj.get]. destruct (String.eqb_spec k k0); [contradiction|]. apply IH, Hd.
Qed.

Lemma remove_length o k :
  is_Some (Obj.get o k) -> S (length (Obj.remove o k)) = length o.
Proof.
  induction o as [|[k0 v0] rest IH]; cbn [Obj.remove Obj.get length].
  - intros [? ?]. discriminate.
  - destruct (String.eqb k k0); [reflexivity|].
    intros H. cbn [length]. f_equal. apply IH, H.
Qed.

Lemma remove_absent o k : Obj.get o k = None -> Obj.remove o k = o.
Proof.
  induction o as [|[k0 v0] rest IH]; cbn [Obj.remove Obj.get]; [reflexivity|].
  destruct (String.eqb k k0); [discriminate|].
  intros H. f_equal. apply IH, H.
Qed.

(** Overwriting the value just stored. *)
Lemma set_set o k v v' : Obj.set (Obj.set o k v) k v' = Obj.set o k v'.
Proof.
  induction o as [|[k0 v0] rest IH]; cbn [Obj.set].
  - rewrite String.eqb_refl. reflexivity.
  - destruct (String.eqb k k0) eqn:E; cbn [Obj.set]; rewrite E; [reflexivity|].
    f_equal. exact IH.
Qed.

(** Storing under a key moves no other entry and replaces at most one. *)
Lemma In_set o k v k' v' :
  In (k', v') (Obj.set o k v) -> (k' = k /\ v' = v) \/ In (k', v') o.
Proof.
  induction o as [|[k0 v0] rest IH]; cbn [Obj.set In].
  - intros [[= <- <-]|[]]. left. split; reflexivity.
  - destruct (String.eqb_spec k k0) as [->|Hne]; cbn [In].
    + intros [[= <- <-]|H]; [left; split; reflexivity|right; right; exact H].
    + intros [H|H]; [right; left; exact H|].
      destruct (IH H) as [?|?]; [left; assumption|right; right; assumption].
Qed.


End MoreObjFacts.

Section StoreFacts.
Import JS Eff DataStorage StoreReading.
Variable oracle : Oracle.
Variable timeValue : string -> option Z.

Abbreviation SState := DataStorage.State.

Lemma firstHolding_Some (id : string) (cats : list (string * Obj.t StoredRecord))
    (cat : string) (r : StoredRecord) :
  firstHolding id cats = Some (cat, r) ->
  exists records, In (cat, records) cats /\ Obj.get records id = Some r.
Proof.
  induction cats as [|[c recs] rest IH]; cbn [firstHolding]; [discriminate|].
  destruct (Obj.get recs id) eqn:E.
  - intros [= <- <-]. exists recs. split; [left; reflexivity|exact E].
  - intros H. destruct (IH H) as (records & Hin & Hget).
    exists records. split; [right; exact Hin|exact Hget].
Qed.

Lemma firstHolding_None (id : string) (cats : list (string * Obj.t StoredRecord)) :
  firstHolding id cats = None <->
  forall cat records, In (cat, records) cats -> Obj.get records id = None.
Proof.
  induction cats as [|[c recs] rest IH]; cbn [firstHolding].
  - split; [intros _ ? ? []|reflexivity].
  - destruct (Obj.get recs id) eqn:E.
    + split; [discriminate|]. intros H. specialize (H c recs (or_introl eq_refl)). congruence.
    + rewrite IH. split.
      * intros H cat records [[= <- <-]|Hin]; [exact E|apply (H _ _ Hin)].
      * intros H cat records Hin. apply (H cat records). right. exact Hin.
Qed.


Lemma getData_None_iff (id : string) (s : SState) :
  getData id s = None <->
  forall cat records, In (cat, records) (data s) -> Obj.get records id = None.
Proof.
  unfold getData. destruct (firstHolding id (forIn (data s))) as [[cat r]|] eqn:E; cbn.
  - split; [discriminate|]. intros H.
    apply firstHolding_Some in E as (records & Hin & Hget).
    rewrite (H cat records) in Hget; [discriminate|apply forIn_from, Hin].
  - split; [intros _|reflexivity]. rewrite firstHolding_None in E.
    intros cat records Hin. apply (E cat records), forIn_to, Hin.
Qed.

(** *** The indexes *)

Lemma idsUnder_pushId (index : Obj.t (list string)) (key id key' : string) :
  idsUnder (pushId index key id) key' =
  if String.eqb key key' then idsUnder index key ++ [id] else idsUnder index key'.
Proof.
  unfold idsUnder, pushId. rewrite get_set. destruct (String.eqb key key'); reflexivity.
Qed.


Lemma without_idempotent (id : string) (ids : list string) :
  without id (without id ids) = without id ids.
Proof.
  unfold without. induction ids as [|x ids IH]; cbn [List.filter]; [reflexivity|].
  destruct (negb (String.eqb x id)) eqn:E; cbn [List.filter]; [rewrite E; f_equal|]; exact IH.
Qed.


Lemma dropLoop_get (id : string) (es : list (string * list string)) :
  forall (index : Obj.t (list string)) (key : string),
    (forall e, In e es -> is_Some (Obj.get index (fst e))) ->
    Obj.get
      (fold_left
         (fun ix kv =>
            Obj.set ix (fst kv)
              (List.filter (fun itemId => negb (String.eqb itemId id))
                 (default [] (Obj.get ix (fst kv)))))
         es index) key
    = (if existsb (String.eqb key) (map fst es) then without id <$> Obj.get index key
       else Obj.get index key) /\
    Obj.keys
      (fold_left
         (fun ix kv =>
            Obj.set ix (fst kv)
              (List.filter (fun itemId => negb (String.eqb itemId id))
                 (default [] (Obj.get ix (fst kv)))))
         es index) = Obj.keys index.
Proof.
  induction es as [|[k1 v1] es IH]; intros index key Hpresent; cbn [fold_left map existsb fst].
  - split; reflexivity.
  - fold (without id (default [] (Obj.get index k1))).
    set (index1 := Obj.set index k1 (without id (default [] (Obj.get index k1)))).
    assert (is_Some (Obj.get index k1)) as [v Hv].
    { apply (Hpresent (k1, v1)). left. reflexivity. }
    assert (forall e, In e es -> is_Some (Obj.get index1 (fst e))) as Hpresent1.
    { intros e He. unfold index1. rewrite get_set.
      destruct (String.eqb k1 (fst e)); [eauto|]. apply Hpresent. right. exact He. }
    destruct (IH index1 key Hpresent1) as [Hget Hkeys].
    split.
    + rewrite Hget. unfold index1. rewrite get_set, Hv. cbn [default].
      destruct (String.eqb_spec key k1) as [->|Hne].
      * rewrite String.eqb_refl, Hv. cbn [orb fmap option_fmap option_map].
        destruct (existsb (String.eqb k1) (map fst es)); cbn.
        -- f_equal. apply without_idempotent.
        -- reflexivity.
      * destruct (String.eqb_spec k1 key) as [->|_]; [contradiction|]. reflexivity.
    + rewrite Hkeys. unfold index1. apply keys_set_present. rewrite Hv. eauto.
Qed.

Lemma dropId_get (id : string) (index : Obj.t (list string)) (key : string) :
  Obj.get (dropId id index) key = without id <$> Obj.get index key.
Proof.
  unfold dropId.
  destruct (dropLoop_get id (forIn index) index key) as [Hget _].
  - intros [k v] Hin. apply forIn_from in Hin. apply get_keys, (In_keys index k v Hin).
  - rewrite Hget. destruct (existsb (String.eqb key) (map fst (forIn index))) eqn:E;
      [reflexivity|].
    destruct (Obj.get index key) eqn:Hk; [|reflexivity].
    exfalso. apply existsb_eqb_false in E. apply E.
    apply get_In in Hk. apply forIn_to in Hk. apply (in_map fst) in Hk. exact Hk.
Qed.


Lemma idsUnder_dropId (id : string) (index : Obj.t (list string)) (key : string) :
  idsUnder (dropId id index) key = without id (idsUnder index key).
Proof.
  unfold idsUnder. rewrite dropId_get. destruct (Obj.get index key); reflexivity.
Qed.

(** *** [storeData], step by step *)

Lemma ensure_category (d : Data) (category : string) (records : Obj.t StoredRecord) :
  Obj.set (match Obj.get d category with
           | Some _ => d
           | None => Obj.set d category []
           end) category records = Obj.set d category records.
Proof. destruct (Obj.get d category); [reflexivity|apply set_set]. Qed.

Lemma ensure_category_get (d : Data) (category : string) :
  default [] (Obj.get (match Obj.get d category with
                       | Some _ => d
                       | None => Obj.set d category []
                       end) category) = default [] (Obj.get d category).
Proof.
  destruct (Obj.get d category) eqn:E; [rewrite E; reflexivity|].
  rewrite get_set_eq. reflexivity.
Qed.

Lemma updateIndexes_effect (id category source : string) (data' : value) (s : SState) :
  let date := str (beforeT (chars (isoTime oracle (tick s)))) in
  let stuck := unindexed (byKeyword (indexes s)) data' in
  exists o s',
    _updateIndexes oracle id category source data' s = (o, s') /\
    (if badQuery data' || stuck then exists e, o = Throw e else o = Ret tt) /\
    data s' = data s /\
    byDate (indexes s') = pushId (byDate (indexes s)) date id /\
    bySource (indexes s') = pushId (bySource (indexes s)) (category ++ "_" ++ source)%string id /\
    byKeyword (indexes s')
    = match (if stuck then None else keywordOf data') with
      | Some k => pushId (byKeyword (indexes s)) k id
      | None => byKeyword (indexes s)
      end /\
    tick s' = S (tick s) /\
    localStorage s' = localStorage s.
Proof.
  intros date stuck. subst stuck.
  unfold _updateIndexes, newDate, bind, modify, throw, ret, get, unindexed.
  destruct data' as [d|]; [|cbn [badQuery keywordOf orb]; do 2 eexists; split; [reflexivity|]; repeat (match goal with |- _ /\ _ => split end); eauto].
  destruct d as [|b|n|q|items|fields]; cbn [badQuery keywordOf prop truthy orb];
    try (do 2 eexists; split; [reflexivity|]; repeat (match goal with |- _ /\ _ => split end); eauto; fail).
  destruct (lookupField "query" fields) as [[|b|n|q|items|fs]|] eqn:Hq;
    cbn [truthy orb]; try (destruct b); try (destruct (n =? 0));
    try (destruct (negb (String.eqb q EmptyString)));
    cbn [negb orb setByDate setBySource setIndexes indexes byKeyword];
    try (do 2 eexists; (split; [reflexivity|]);
         repeat (match goal with |- _ /\ _ => split end); eauto; fail).
  destruct (inherited (str (toLowerCase (chars q))) &&
            negb (bool_decide (is_Some (Obj.get (byKeyword (indexes s))
                                          (str (toLowerCase (chars q)))))));
    do 2 eexists; (split; [reflexivity|]);
    repeat (match goal with |- _ /\ _ => split end); eauto.
Qed.

Lemma saveToStorage_effect (s : SState) :
  saveToStorage s
  = (Ret true,
     if present (localStorage s)
     then {| data := data s; indexes := indexes s; tick := tick s;
             localStorage := {| present := true; kache_affiliate_data := Saved (data s);
                                kache_affiliate_indexes := Saved (indexes s) |} |}
     else s).
Proof.
  unfold saveToStorage, tryCatch, bind, get, modify, ret.
  destruct (present (localStorage s)); reflexivity.
Qed.

Lemma storeData_effect (category source : string) (data' : value) (s : SState) :
  let timestamp := isoTime oracle (tick s) in
  let record := recordOf category source timestamp data' in
  let date := str (beforeT (chars (isoTime oracle (S (tick s))))) in
  let stuck := unindexed (byKeyword (indexes s)) data' in
  exists s',
    storeData oracle category source data' s
    = (Ret (if badQuery data' || stuck then None else Some (r_id record)), s') /\
    data s' = Obj.set (data s) category
                (Obj.set (getCategoryData category s) (r_id record) record) /\
    byDate (indexes s') = pushId (byDate (indexes s)) date (r_id record) /\
    bySource (indexes s')
    = pushId (bySource (indexes s)) (category ++ "_" ++ source)%string (r_id record) /\
    byKeyword (indexes s')
    = match (if stuck then None else keywordOf data') with
      | Some k => pushId (byKeyword (indexes s)) k (r_id record)
      | None => byKeyword (indexes s)
      end /\
    tick s' = S (S (tick s)) /\
    localStorage s'
    = if badQuery data' || stuck || negb (present (localStorage s)) then localStorage s
      else {| present := true; kache_affiliate_data := Saved (data s');
              kache_affiliate_indexes := Saved (indexes s') |}.
Proof.
  intros timestamp record date stuck.
  unfold storeData, tryCatch.
  unfold bind at 1. unfold newDate at 1. fold timestamp.
  unfold bind at 1. unfold modify at 1.
  unfold bind at 1. unfold modify at 1.
  unfold bind at 1.
  change (category ++ "_" ++ source ++ "_" ++ timestamp)%string with (r_id record).
  change {| r_id := r_id record; r_category := category; r_source := source;
            r_timestamp := timestamp; r_data := data' |} with record.
  match goal with
  | |- context [_updateIndexes oracle _ _ _ _ ?s1] => set (s1' := s1)
  end.
  assert (data s1' = Obj.set (data s) category
                       (Obj.set (getCategoryData category s) (r_id record) record)
          /\ indexes s1' = indexes s /\ tick s1' = S (tick s)
          /\ localStorage s1' = localStorage s) as (Hd1 & Hi1 & Ht1 & Hl1).
  { unfold s1', getCategoryData. cbn [data indexes tick localStorage setData].
    destruct (Obj.get (data s) category) eqn:E; cbn [data indexes tick localStorage setData].
    - rewrite E. repeat split; reflexivity.
    - rewrite get_set_eq, set_set. repeat split; reflexivity. }
  destruct (updateIndexes_effect (r_id record) category source data' s1')
    as (o & s2 & Hrun & Ho & Hd2 & Hbd & Hbs & Hbk & Ht2 & Hl2).
  rewrite Hrun. rewrite Hi1, Ht1 in *. rewrite Hd1 in Hd2. rewrite Hl1 in Hl2.
  fold date in Hbd. fold stuck in Ho, Hbk.
  destruct (badQuery data' || stuck) eqn:Hbad.
  - destruct Ho as [e ->]. exists s2. cbn [orb]. repeat split; assumption.
  - subst o. unfold bind at 1. rewrite saveToStorage_effect. cbn [orb]. unfold ret.
    rewrite Hl2.
    destruct (present (localStorage s)) eqn:Hp; cbn [negb].
    + eexists. split; [reflexivity|]. cbn [data indexes tick localStorage].
      repeat split; assumption.
    + exists s2. repeat split; assumption.
Qed.

Lemma unindexed_inheritedQuery (index : Obj.t (list string)) (data' : value) :
  inheritedQuery data' = false -> unindexed index data' = false.
Proof.
  unfold inheritedQuery, unindexed. destruct (keywordOf data'); [|reflexivity].
  intros ->. reflexivity.
Qed.

Lemma badQuery_keywordOf (data' : value) : badQuery data' = true -> keywordOf data' = None.
Proof.
  destruct data' as [[|b|n|q|items|fields]|]; cbn [badQuery keywordOf prop]; try reflexivity.
  destruct (lookupField "query" fields) as [[|b|n|q|items|fs]|]; try reflexivity.
  discriminate.
Qed.

Lemma keywordOf_query (d : json) (q : string) :
  prop d "query" = Some (JStr q) -> q <> EmptyString ->
  keywordOf (Some d) = Some (str (toLowerCase (chars q))).
Proof.
  intros Hq Hne. cbn [keywordOf]. rewrite Hq. cbn [truthy].
  destruct (String.eqb_spec q EmptyString); [contradiction|reflexivity].
Qed.

(** *** What [searchData] starts from *)

Lemma allData_In (cat : option string) (s : SState) (r : StoredRecord) :
  In r (allData cat s) <->
  exists c records id,
    In (c, records) (data s) /\ In (id, r) records /\
    (given cat = false \/ cat = Some c).
Proof.
  unfold allData. rewrite in_flat_map. split.
  - intros ([c records] & Hin & Hr). cbn [fst snd] in Hr.
    destruct (negb (given cat) || bool_decide (cat = Some c)) eqn:E; [|destruct Hr].
    apply in_map_iff in Hr as ([id r'] & Heq & Hr). cbn [snd] in Heq. subst r'.
    exists c, records, id. split; [apply forIn_from, Hin|]. split; [apply forIn_from, Hr|].
    apply orb_true_iff in E as [E|E].
    + left. apply negb_true_iff, E.
    + right. apply bool_decide_eq_true in E. exact E.
  - intros (c & records & id & Hin & Hr & Hcat).
    exists (c, records). split; [apply forIn_to, Hin|]. cbn [fst snd].
    assert (negb (given cat) || bool_decide (cat = Some c) = true) as ->.
    { destruct Hcat as [->| ->]; [reflexivity|].
      rewrite bool_decide_eq_true_2 by reflexivity. apply orb_true_r. }
    apply in_map_iff. exists (id, r). split; [reflexivity|apply forIn_to, Hr].
Qed.

Lemma allData_lookup (cat : option string) (s : SState) (c id : string) (r : StoredRecord) :
  Obj.get (getCategoryData c s) id = Some r ->
  given cat = false \/ cat = Some c ->
  In r (allData cat s).
Proof.
  unfold getCategoryData. intros Hget Hcat. apply allData_In.
  destruct (Obj.get (data s) c) as [records|] eqn:E; [|discriminate].
  exists c, records, id. split; [apply get_In, E|]. split; [apply get_In, Hget|exact Hcat].
Qed.

Lemma searchData_noCriteria (s : SState) :
  searchData timeValue noCriteria s = Ret (allData None s).
Proof. reflexivity. Qed.

(** *** The keyword filter *)

Lemma filterE_throws {X} (p : X -> outcome bool) (xs : list X) :
  (exists e, filterE p xs = Throw e) <-> exists x e, In x xs /\ p x = Throw e.
Proof.
  induction xs as [|x xs IH]; cbn [filterE].
  - split; [intros [e He]; discriminate|intros (x & e & [] & _)].
  - destruct (p x) as [b|e] eqn:Hp.
    + destruct (filterE p xs) as [kept|e'] eqn:Hrest.
      * split; [intros [e He]; discriminate|].
        intros (y & e & [<-|Hin] & Hy); [congruence|].
        destruct IH as [_ IH]. destruct IH as [e' He']; [eauto|discriminate].
      * split; [intros _|eauto].
        destruct IH as [IH _]. destruct IH as (y & e & Hin & Hy); [eauto|].
        exists y, e. split; [right; exact Hin|exact Hy].
    + split; [intros _|eauto]. exists x, e. split; [left; reflexivity|exact Hp].
Qed.

Lemma filterE_returns {X} (p : X -> outcome bool) (xs kept : list X) :
  filterE p xs = Ret kept ->
  kept = List.filter (fun x => match p x with Ret b => b | Throw _ => false end) xs.
Proof.
  revert kept. induction xs as [|x xs IH]; cbn [filterE List.filter]; intros kept.
  - intros [= <-]. reflexivity.
  - destruct (p x) as [b|e]; [|discriminate].
    destruct (filterE p xs) as [kept'|e']; [|discriminate].
    intros [= <-]. rewrite (IH kept' eq_refl). destruct b; reflexivity.
Qed.

Lemma keywordFilter_throws (kw : text) (item : StoredRecord) :
  (exists e, keywordFilter kw item = Throw e) <-> badQuery (r_data item) = true.
Proof.
  unfold keywordFilter.
  destruct (r_data item) as [[|b|n|q|items|fields]|]; cbn [badQuery prop truthy];
    try (split; [reflexivity|eauto]; fail);
    try (split; [intros [e He]; discriminate|discriminate]; fail).
  destruct (lookupField "query" fields) as [[|b|n|q|items|fs]|]; cbn [truthy];
    try (split; [reflexivity|eauto]; fail);
    try (split; [intros [e He]; discriminate|discriminate]; fail).
  - destruct b; (split; [intros [e He]; (discriminate || reflexivity)|]);
      (discriminate || eauto).
  - destruct (n =? 0); cbn [negb]; (split; [intros [e He]; (discriminate || reflexivity)|]);
      (discriminate || eauto).
  - destruct (negb (String.eqb q EmptyString) && includes (toLowerCase (chars q)) kw);
      (split; [intros [e He]; discriminate|discriminate]).
Qed.

Lemma searchData_throws (criteria : Criteria) (s : SState) :
  (exists e, searchData timeValue criteria s = Throw e) <->
  given (keyword criteria) = true /\
  exists item,
    In item (allData (DataStorage.category criteria) s) /\
    (given (DataStorage.source criteria) = true ->
     Some (r_source item) = DataStorage.source criteria) /\
    badQuery (r_data item) = true.
Proof.
  unfold searchData.
  destruct (given (keyword criteria)) eqn:Hk.
  - set (kw := toLowerCase (chars (default EmptyString (keyword criteria)))).
    set (candidates :=
           if given (DataStorage.source criteria)
           then List.filter
                  (fun item => bool_decide (Some (r_source item) = DataStorage.source criteria))
                  (allData (DataStorage.category criteria) s)
           else allData (DataStorage.category criteria) s).
    assert (forall item,
               In item candidates <->
               In item (allData (DataStorage.category criteria) s) /\
               (given (DataStorage.source criteria) = true ->
                Some (r_source item) = DataStorage.source criteria)) as Hcand.
    { intros item. unfold candidates. destruct (given (DataStorage.source criteria)).
      - rewrite filter_In, bool_decide_eq_true. tauto.
      - split; [intros H; split; [exact H|discriminate]|tauto]. }
    split.
    + intros [e He]. split; [reflexivity|].
      destruct (filterE (keywordFilter kw) candidates) as [kept|e'] eqn:Hf; [discriminate|].
      destruct (proj1 (filterE_throws (keywordFilter kw) candidates)) as (item & e0 & Hin & Hthrow);
        [eauto|].
      exists item. apply Hcand in Hin as [Hin Hsrc]. repeat split; [exact Hin|exact Hsrc|].
      apply (keywordFilter_throws kw). eauto.
    + intros (_ & item & Hin & Hsrc & Hbad).
      destruct (proj2 (filterE_throws (keywordFilter kw) candidates)) as [e He].
      * apply (keywordFilter_throws kw) in Hbad as [e He].
        exists item, e. split; [apply Hcand; split; assumption|exact He].
      * rewrite He. eauto.
  - split; [intros [e He]; discriminate|intros [H _]; discriminate].
Qed.

(** *** Looking a stored record up *)

Lemma getData_stored (cat id : string) (record : StoredRecord) (s s' : SState) :
  getData id s = None ->
  data s' = Obj.set (data s) cat (Obj.set (getCategoryData cat s) id record) ->
  getData id s' = Some record.
Proof.
  intros Hnone Hdata.
  destruct (getData id s') as [r|] eqn:E.
  - unfold getData in E.
    destruct (firstHolding id (forIn (data s'))) as [[c r']|] eqn:Hf; [|discriminate].
    cbn in E. injection E as ->.
    apply firstHolding_Some in Hf as (records & Hin & Hget).
    apply forIn_from in Hin. rewrite Hdata in Hin.
    apply In_set in Hin as [[-> ->]|Hin].
    + rewrite get_set_eq in Hget. congruence.
    + rewrite getData_None_iff in Hnone. rewrite (Hnone c records Hin) in Hget. discriminate.
  - exfalso. rewrite getData_None_iff in E.
    specialize (E cat (Obj.set (getCategoryData cat s) id record)).
    rewrite get_set_eq in E. rewrite Hdata in E.
    discriminate E. apply get_In, get_set_eq.
Qed.

Lemma resolve_In (id : string) (ids : list string) (r : StoredRecord) (s : SState) :
  In id ids -> getData id s = Some r -> In r (resolve ids s).
Proof.
  intros Hin Hget. unfold resolve. apply list_elem_of_In, list_elem_of_omap.
  exists id. split; [apply list_elem_of_In, Hin|exact Hget].
Qed.


(** *** [deleteData], step by step *)

Lemma deleteData_unknown (id : string) (s : SState) :
  getData id s = None -> deleteData id s = (Ret false, s).
Proof.
  unfold getData, deleteData, bind, get.
  destruct (firstHolding id (forIn (data s))) as [[c r]|]; [discriminate|reflexivity].
Qed.

Lemma deleteData_known (id cat : string) (r : StoredRecord) (s : SState) :
  firstHolding id (forIn (data s)) = Some (cat, r) ->
  exists s',
    deleteData id s = (Ret true, s') /\
    data s' = Obj.set (data s) cat (Obj.remove (getCategoryData cat s) id) /\
    byDate (indexes s') = dropId id (byDate (indexes s)) /\
    bySource (indexes s') = dropId id (bySource (indexes s)) /\
    byKeyword (indexes s') = dropId id (byKeyword (indexes s)) /\
    tick s' = tick s /\
    localStorage s'
    = if present (localStorage s)
      then {| present := true; kache_affiliate_data := Saved (data s');
              kache_affiliate_indexes := Saved (indexes s') |}
      else localStorage s.
Proof.
  intros Hf. unfold deleteData. unfold bind at 1. unfold get at 1. rewrite Hf.
  unfold bind, modify. rewrite saveToStorage_effect. unfold ret.
  cbn [data indexes tick localStorage setData setByDate setBySource setByKeyword setIndexes
       byDate bySource byKeyword].
  destruct (present (localStorage s)) eqn:Hp.
  - eexists. split; [reflexivity|]. cbn [data indexes tick localStorage byDate bySource byKeyword].
    repeat split; reflexivity.
  - eexists. split; [reflexivity|]. cbn [data indexes tick localStorage byDate bySource byKeyword].
    repeat split; reflexivity.
Qed.

(** *** Counting the records *)

Lemma list_sum_perm (l l' : list nat) : Permutation l l' -> list_sum l = list_sum l'.
Proof.
  induction 1; simpl; lia.
Qed.

Lemma flat_map_length {A B} (f : A -> list B) (l : list A) :
  length (flat_map f l) = list_sum (map (fun x => length (f x)) l).
Proof.
  induction l as [|x l IH]; simpl; [reflexivity|].
  rewrite length_app, IH. reflexivity.
Qed.

Lemma allData_length (s : SState) :
  length (allData None s) = list_sum (map (fun kv => length (snd kv)) (data s)).
Proof.
  unfold allData. rewrite flat_map_length. cbn [given negb orb].
  rewrite (list_sum_perm _ (map (fun kv => length (snd kv)) (forIn (data s)))).
  - apply list_sum_perm, Permutation_map, forIn_perm.
  - apply Permutation_refl'. apply map_ext. intros [c records]. cbn [snd].
    rewrite length_map. apply forIn_length.
Qed.

Lemma count_set (d : Data) (cat : string) (records records' : Obj.t StoredRecord) :
  Obj.get d cat = Some records ->
  (list_sum (map (fun kv => length (snd kv)) (Obj.set d cat records')) + length records
   = list_sum (map (fun kv => length (snd kv)) d) + length records')%nat.
Proof.
  induction d as [|[c recs] rest IH]; cbn [Obj.get Obj.set]; [discriminate|].
  destruct (String.eqb cat c).
  - intros [= ->]. simpl. lia.
  - intros H. specialize (IH H). simpl in *. lia.
Qed.

(** *** Replacing the value of a key that is there *)

Lemma set_as_map {V} (o : Obj.t V) (k : string) (v : V) :
  distinct (Obj.keys o) = true -> is_Some (Obj.get o k) ->
  Obj.set o k v = map (fun kv => if String.eqb k (fst kv) then (fst kv, v) else kv) o.
Proof.
  induction o as [|[k0 v0] rest IH]; cbn [Obj.get Obj.set Obj.keys map fst].
  - intros _ [? ?]. discriminate.
  - intros Hd Hsome. apply distinct_cons in Hd as [Hk0 Hd].
    destruct (String.eqb_spec k k0) as [->|Hne].
    + f_equal. clear IH Hsome. induction rest as [|[k1 v1] rest IH]; [reflexivity|].
      cbn [map fst]. cbn [Obj.keys map fst] in Hk0, Hd.
      apply distinct_cons in Hd as [_ Hd].
      destruct (String.eqb_spec k0 k1) as [->|_].
      * exfalso. apply Hk0. left. reflexivity.
      * f_equal. apply IH; [|exact Hd]. intros H. apply Hk0. right. exact H.
    + f_equal. apply IH; assumption.
Qed.

Lemma insertSorted_map {A} (before : A -> A -> bool) (g : A -> A) (x : A) (l : list A) :
  (forall a b, before (g a) (g b) = before a b) ->
  Trend.insertSorted before (g x) (map g l) = map g (Trend.insertSorted before x l).
Proof.
  intros Hg. induction l as [|y l IH]; cbn [Trend.insertSorted map]; [reflexivity|].
  rewrite Hg. destruct (before x y); cbn [map]; [reflexivity|]. f_equal. exact IH.
Qed.

Lemma stableSort_map {A} (before : A -> A -> bool) (g : A -> A) (l : list A) :
  (forall a b, before (g a) (g b) = before a b) ->
  Trend.stableSort before (map g l) = map g (Trend.stableSort before l).
Proof.
  intros Hg. unfold Trend.stableSort.
  induction l as [|x l IH]; cbn [foldr map]; [reflexivity|].
  rewrite IH. apply insertSorted_map, Hg.
Qed.

Lemma filter_map_commute {A} (f : A -> bool) (g : A -> A) (l : list A) :
  (forall a, f (g a) = f a) -> List.filter f (map g l) = map g (List.filter f l).
Proof.
  intros Hg. induction l as [|x l IH]; cbn [List.filter map]; [reflexivity|].
  rewrite Hg. destruct (f x); cbn [map]; [f_equal|]; exact IH.
Qed.

Lemma forIn_map {V} (g : string * V -> string * V) (o : Obj.t V) :
  (forall kv, fst (g kv) = fst kv) -> forIn (map g o) = map g (forIn o).
Proof.
  intros Hg. unfold forIn. rewrite map_app.
  rewrite !filter_map_commute by (intros kv; rewrite Hg; reflexivity).
  rewrite stableSort_map by (intros a b; rewrite !Hg; reflexivity).
  reflexivity.
Qed.

Lemma firstHolding_map (id : string) (g : string * Obj.t StoredRecord -> string * Obj.t StoredRecord)
    (cats : list (string * Obj.t StoredRecord)) :
  (forall kv, fst (g kv) = fst kv) ->
  (forall kv, In kv cats -> Obj.get (snd (g kv)) id = Obj.get (snd kv) id) ->
  firstHolding id (map g cats) = firstHolding id cats.
Proof.
  intros Hk Hv. induction cats as [|[c recs] rest IH]; cbn [map firstHolding]; [reflexivity|].
  specialize (Hk (c, recs)). pose proof (Hv (c, recs) (or_introl eq_refl)) as Hv0.
  destruct (g (c, recs)) as [c' recs'] eqn:Hg. cbn [fst snd] in Hk, Hv0. subst c'.
  rewrite Hv0. destruct (Obj.get recs id); [reflexivity|].
  apply IH. intros kv Hin. apply Hv. right. exact Hin.
Qed.

Lemma getData_after_delete (id other cat : string) (s s' : SState) :
  distinct (Obj.keys (data s)) = true ->
  is_Some (Obj.get (data s) cat) ->
  data s' = Obj.set (data s) cat (Obj.remove (getCategoryData cat s) id) ->
  other <> id ->
  getData other s' = getData other s.
Proof.
  intros Hd Hsome Hdata Hne. unfold getData. rewrite Hdata.
  rewrite set_as_map by assumption. rewrite forIn_map.
  - rewrite firstHolding_map; [reflexivity| |].
    + intros [c recs]. cbn [fst]. destruct (String.eqb cat c); reflexivity.
    + intros [c recs] Hin. cbn [fst snd]. destruct (String.eqb_spec cat c) as [->|_];
        [|reflexivity].
      cbn [snd]. unfold getCategoryData.
      apply forIn_from in Hin. rewrite (In_get _ _ _ Hd Hin). cbn [default].
      apply get_remove_ne. congruence.
  - intros [c recs]. cbn [fst]. destruct (String.eqb cat c); reflexivity.
Qed.

(** *** The invariants of the store *)



Lemma category_records (d : Data) (cat : string) :
  wellFormedData d = true ->
  distinct (Obj.keys (default [] (Obj.get d cat))) = true /\
  forall id r, In (id, r) (default [] (Obj.get d cat)) ->
               exists records, In (cat, records) d /\ In (id, r) records.
Proof.
  intros Hwf. apply andb_prop in Hwf as [_ Hall].
  destruct (Obj.get d cat) as [records|] eqn:E; cbn [default].
  - apply get_In in E. split.
    + rewrite forallb_forall in Hall. apply (Hall (cat, records) E).
    + intros id r Hin. exists records. split; assumption.
  - split; [reflexivity|intros ? ? []].
Qed.


















(** *** What the callers of the store can rely on *)

(** X1.  [storeData] with a payload whose [query] it can index (the
    payload is not [null] or [undefined], and its [query] is falsy or a
    string that, lower-cased, names no member of [Object.prototype])
    returns the id made of the category, the source and the time of the
    call; the record is then held under that id in its category,
    [searchData()] returns it, and the store has been written to the
    browser's storage when there is one. *)
Theorem storeData_files_the_record
    (category source : string) (data' : value) (s : SState) :
  badQuery data' = false ->
  inheritedQuery data' = false ->
  let record := recordOf category source (isoTime oracle (tick s)) data' in
  exists s',
    storeData oracle category source data' s = (Ret (Some (r_id record)), s') /\
    Obj.get (getCategoryData category s') (r_id record) = Some record /\
    (exists found, searchData timeValue noCriteria s' = Ret found /\ In record found) /\
    (present (localStorage s) = true ->
     kache_affiliate_data (localStorage s') = Saved (data s') /\
     kache_affiliate_indexes (localStorage s') = Saved (indexes s')) /\
    (present (localStorage s) = false -> localStorage s' = localStorage s).
Proof.
  intros Hgood Hplain record.
  destruct (storeData_effect category source data' s)
    as (s' & Hrun & Hd & _ & _ & _ & _ & Hl).
  fold record in Hrun, Hd.
  rewrite Hgood, (unindexed_inheritedQuery _ data' Hplain) in Hrun, Hl. cbn [orb] in Hrun, Hl.
  assert (Obj.get (getCategoryData category s') (r_id record) = Some record) as Hheld.
  { unfold getCategoryData at 1. rewrite Hd, get_set_eq. cbn [default]. apply get_set_eq. }
  exists s'. split; [exact Hrun|]. split; [exact Hheld|]. split; [|split].
  - exists (allData None s'). split; [apply searchData_noCriteria|].
    apply (allData_lookup None s' category (r_id record) record Hheld). left. reflexivity.
  - intros Hp. rewrite Hl, Hp. cbn [negb kache_affiliate_data kache_affiliate_indexes].
    split; reflexivity.
  - intros Hp. rewrite Hl, Hp. reflexivity.
Qed.

(** X2.  Once [storeData] has filed a record under an id that was not in
    use, [getData] returns the record for that id, and the record is
    among those found by its category and source, by the day of the call
    and, when its payload has a non-empty string [query], by that query in
    any letter case.  The payload is one [storeData] can index: its
    [query], lower-cased, names no member of [Object.prototype]. *)
Theorem stored_record_is_found_through_the_indexes
    (category source : string) (data' : value) (s : SState) :
  badQuery data' = false ->
  inheritedQuery data' = false ->
  let record := recordOf category source (isoTime oracle (tick s)) data' in
  getData (r_id record) s = None ->
  let s' := snd (storeData oracle category source data' s) in
  getData (r_id record) s' = Some record /\
  In record (getDataBySource category source s') /\
  In record (getDataByDate (str (beforeT (chars (isoTime oracle (S (tick s)))))) s') /\
  forall d q k,
    data' = Some d -> prop d "query" = Some (JStr q) -> q <> EmptyString ->
    toLowerCase (chars k) = toLowerCase (chars q) ->
    In record (getDataByKeyword k s').
Proof.
  intros Hgood Hplain record Hnew s'.
  destruct (storeData_effect category source data' s)
    as (s1 & Hrun & Hd & Hbd & Hbs & Hbk & _ & _).
  fold record in Hrun, Hd, Hbd, Hbs, Hbk.
  rewrite (unindexed_inheritedQuery _ data' Hplain) in Hbk.
  assert (s' = s1) as -> by (unfold s'; rewrite Hrun; reflexivity).
  assert (getData (r_id record) s1 = Some record) as Hget.
  { apply (getData_stored category (r_id record) record s s1 Hnew Hd). }
  split; [exact Hget|]. split; [|split].
  - unfold getDataBySource. apply (resolve_In (r_id record)); [|exact Hget].
    rewrite Hbs. fold (idsUnder (pushId (bySource (indexes s)) (category ++ "_" ++ source)
                                   (r_id record)) (category ++ "_" ++ source)).
    rewrite idsUnder_pushId, String.eqb_refl. apply in_app_iff. right. left. reflexivity.
  - unfold getDataByDate. apply (resolve_In (r_id record)); [|exact Hget].
    rewrite Hbd.
    match goal with
    | |- In _ (default [] (Obj.get (pushId ?ix ?key ?id) ?key)) =>
        fold (idsUnder (pushId ix key id) key)
    end.
    rewrite idsUnder_pushId, String.eqb_refl. apply in_app_iff. right. left. reflexivity.
  - intros d q k -> Hq Hne Hk.
    unfold getDataByKeyword. apply (resolve_In (r_id record)); [|exact Hget].
    rewrite Hbk, (keywordOf_query d q Hq Hne), Hk.
    match goal with
    | |- In _ (default [] (Obj.get (pushId ?ix ?key ?id) ?key)) =>
        fold (idsUnder (pushId ix key id) key)
    end.
    rewrite idsUnder_pushId, String.eqb_refl. apply in_app_iff. right. left. reflexivity.
Qed.

(** X3.  [storeData] with a payload that is [null] or [undefined], or
    whose [query] is truthy without being a string, returns [null]; yet
    the record has been put in its category and its id in the indexes by
    date and by source.  The index by keyword and the browser's storage
    are left as they were. *)
Theorem failed_store_leaves_the_record_behind
    (category source : string) (data' : value) (s : SState) :
  badQuery data' = true ->
  let record := recordOf category source (isoTime oracle (tick s)) data' in
  exists s',
    storeData oracle category source data' s = (Ret None, s') /\
    Obj.get (getCategoryData category s') (r_id record) = Some record /\
    In (r_id record)
       (idsUnder (byDate (indexes s')) (str (beforeT (chars (isoTime oracle (S (tick s))))))) /\
    In (r_id record) (idsUnder (bySource (indexes s')) (category ++ "_" ++ source)) /\
    byKeyword (indexes s') = byKeyword (indexes s) /\
    localStorage s' = localStorage s.
Proof.
  intros Hbad record.
  destruct (storeData_effect category source data' s)
    as (s' & Hrun & Hd & Hbd & Hbs & Hbk & _ & Hl).
  fold record in Hrun, Hd, Hbd, Hbs, Hbk. rewrite Hbad in Hrun, Hl. cbn [orb] in Hrun, Hl.
  rewrite (badQuery_keywordOf data' Hbad) in Hbk.
  assert (byKeyword (indexes s') = byKeyword (indexes s)) as Hbk'
    by (rewrite Hbk; destruct (unindexed (byKeyword (indexes s)) data'); reflexivity).
  clear Hbk. rename Hbk' into Hbk.
  exists s'. split; [exact Hrun|]. split; [|split; [|split; [|split]]].
  - unfold getCategoryData at 1. rewrite Hd, get_set_eq. cbn [default]. apply get_set_eq.
  - rewrite Hbd, idsUnder_pushId, String.eqb_refl. apply in_app_iff. right. left. reflexivity.
  - rewrite Hbs, idsUnder_pushId, String.eqb_refl. apply in_app_iff. right. left. reflexivity.
  - exact Hbk.
  - exact Hl.
Qed.

(** X4.  [searchData] throws exactly when a keyword is asked for and one
    of the records that pass the category and source criteria has a
    payload that is [null] or [undefined], or whose [query] is truthy
    without being a string. *)
Theorem searchData_throws_exactly_on_unreadable_queries (criteria : Criteria) (s : SState) :
  (exists e, searchData timeValue criteria s = Throw e) <->
  given (keyword criteria) = true /\
  exists item,
    In item (allData (DataStorage.category criteria) s) /\
    (given (DataStorage.source criteria) = true ->
     Some (r_source item) = DataStorage.source criteria) /\
    badQuery (r_data item) = true.
Proof. apply searchData_throws. Qed.

(** X5.  After a [storeData] that failed on its payload, every search by
    keyword whose category and source criteria let the record through throws. *)
Theorem keyword_search_throws_after_a_failed_store
    (category source : string) (data' : value) (criteria : Criteria) (s : SState) :
  badQuery data' = true ->
  given (keyword criteria) = true ->
  given (DataStorage.category criteria) = false \/
  DataStorage.category criteria = Some category ->
  given (DataStorage.source criteria) = false \/
  DataStorage.source criteria = Some source ->
  exists e,
    searchData timeValue criteria (snd (storeData oracle category source data' s)) = Throw e.
Proof.
  intros Hbad Hk Hcat Hsrc.
  destruct (storeData_effect category source data' s) as (s' & Hrun & Hd & _).
  rewrite Hrun. cbn [snd]. apply searchData_throws. split; [exact Hk|].
  set (record := recordOf category source (isoTime oracle (tick s)) data') in *.
  exists record. split; [|split].
  - apply (allData_lookup _ s' category (r_id record)); [|exact Hcat].
    unfold getCategoryData at 1. rewrite Hd, get_set_eq. cbn [default]. apply get_set_eq.
  - intros Hgiven. destruct Hsrc as [Hsrc| ->]; [congruence|reflexivity].
  - exact Hbad.
Qed.

(** X26.  [storeData] with a payload whose [query], lower-cased, names a
    member of [Object.prototype] ("constructor", say) under which the
    index by keyword has no entry returns [null] as well: the record has
    been put in its category and its id in the indexes by date and by
    source, but the id is filed under no keyword and nothing is written
    to the browser's storage.  A search without criteria still returns
    the record. *)
Theorem store_fails_on_a_query_naming_an_inherited_member
    (category source : string) (data' : value) (s : SState) :
  unindexed (byKeyword (indexes s)) data' = true ->
  let record := recordOf category source (isoTime oracle (tick s)) data' in
  exists s',
    storeData oracle category source data' s = (Ret None, s') /\
    Obj.get (getCategoryData category s') (r_id record) = Some record /\
    In (r_id record)
       (idsUnder (byDate (indexes s')) (str (beforeT (chars (isoTime oracle (S (tick s))))))) /\
    In (r_id record) (idsUnder (bySource (indexes s')) (category ++ "_" ++ source)) /\
    byKeyword (indexes s') = byKeyword (indexes s) /\
    localStorage s' = localStorage s /\
    exists found, searchData timeValue noCriteria s' = Ret found /\ In record found.
Proof.
  intros Hstuck record.
  destruct (storeData_effect category source data' s)
    as (s' & Hrun & Hd & Hbd & Hbs & Hbk & _ & Hl).
  fold record in Hrun, Hd, Hbd, Hbs, Hbk.
  rewrite Hstuck, orb_true_r in Hrun, Hl. cbn [orb] in Hl. rewrite Hstuck in Hbk.
  assert (Obj.get (getCategoryData category s') (r_id record) = Some record) as Hheld.
  { unfold getCategoryData at 1. rewrite Hd, get_set_eq. cbn [default]. apply get_set_eq. }
  exists s'. split; [exact Hrun|]. split; [exact Hheld|].
  split; [|split; [|split; [|split]]].
  - rewrite Hbd, idsUnder_pushId, String.eqb_refl. apply in_app_iff. right. left. reflexivity.
  - rewrite Hbs, idsUnder_pushId, String.eqb_refl. apply in_app_iff. right. left. reflexivity.
  - exact Hbk.
  - exact Hl.
  - exists (allData None s'). split; [apply searchData_noCriteria|].
    apply (allData_lookup None s' category (r_id record) record Hheld). left. reflexivity.
Qed.

Lemma filter_sublist {A} (f : A -> bool) (l : list A) : sublist (List.filter f l) l.
Proof.
  induction l as [|x l IH]; cbn [List.filter]; [constructor|].
  destruct (f x); [apply sublist_skip|apply sublist_cons]; exact IH.
Qed.

Lemma notBefore_spec (a b : option Z) :
  notBefore a b = true <-> exists x y, a = Some x /\ b = Some y /\ y <= x.
Proof.
  unfold notBefore. destruct a as [x|], b as [y|];
    try (split; [discriminate|intros (? & ? & ? & ? & ?); discriminate]).
  rewrite Z.leb_le. split.
  - intros H. exists x, y. repeat split. exact H.
  - intros (x' & y' & [= <-] & [= <-] & H). exact H.
Qed.

Lemma notAfter_spec (a b : option Z) :
  notAfter a b = true <-> exists x y, a = Some x /\ b = Some y /\ x <= y.
Proof.
  unfold notAfter. destruct a as [x|], b as [y|];
    try (split; [discriminate|intros (? & ? & ? & ? & ?); discriminate]).
  rewrite Z.leb_le. split.
  - intros H. exists x, y. repeat split. exact H.
  - intros (x' & y' & [= <-] & [= <-] & H). exact H.
Qed.

Lemma given_Some (o : option string) :
  given o = true <-> exists t, o = Some t /\ t <> EmptyString.
Proof.
  destruct o as [t|]; cbn [given].
  - rewrite negb_true_iff. split.
    + intros H. exists t. split; [reflexivity|]. apply String.eqb_neq, H.
    + intros (t' & [= <-] & H). apply String.eqb_neq, H.
  - split; [discriminate|intros (t & H & _); discriminate].
Qed.

Lemma dateFilter_spec (from to : option string) (item : StoredRecord) :
  dateFilter timeValue from to item = true ->
  (forall f, from = Some f -> f <> EmptyString ->
     exists t x, timeValue (r_timestamp item) = Some t /\ timeValue f = Some x /\ x <= t) /\
  (forall u, to = Some u -> u <> EmptyString ->
     exists t y, timeValue (r_timestamp item) = Some t /\ timeValue u = Some y /\ t <= y).
Proof.
  unfold dateFilter. intros H. split.
  - intros f -> Hf. assert (given (Some f) = true) as Hg by (apply given_Some; eauto).
    rewrite Hg in H. cbn [andb default] in H.
    destruct (given to).
    + apply andb_prop in H as [H _]. apply notBefore_spec in H as (t & x & ? & ? & ?). eauto.
    + apply notBefore_spec in H as (t & x & ? & ? & ?). eauto.
  - intros u -> Hu. assert (given (Some u) = true) as Hg by (apply given_Some; eauto).
    rewrite Hg in H. cbn [default] in H.
    destruct (given from); cbn [andb] in H.
    + apply andb_prop in H as [_ H]. apply notAfter_spec in H as (t & y & ? & ? & ?). eauto.
    + apply notAfter_spec in H as (t & y & ? & ? & ?). eauto.
Qed.

(** X6.  What [searchData] returns is a selection, in the store's order,
    of the records of the category asked for; every record returned has
    the source asked for, passes the keyword test and has a timestamp
    that is a date within the bounds asked for, each bound being a date
    itself.  A bound that is not a date, or a lower bound later than the
    upper one, leaves nothing. *)
Theorem search_results_meet_the_criteria
    (criteria : Criteria) (s : SState) (found : list StoredRecord) :
  searchData timeValue criteria s = Ret found ->
  sublist found (allData (DataStorage.category criteria) s) /\
  (forall item, In item found ->
     (given (DataStorage.source criteria) = true ->
      Some (r_source item) = DataStorage.source criteria) /\
     (given (keyword criteria) = true ->
      keywordFilter (toLowerCase (chars (default EmptyString (keyword criteria)))) item
      = Ret true) /\
     (forall f, dateFrom criteria = Some f -> f <> EmptyString ->
        exists t x, timeValue (r_timestamp item) = Some t /\ timeValue f = Some x /\ x <= t) /\
     (forall u, dateTo criteria = Some u -> u <> EmptyString ->
        exists t y, timeValue (r_timestamp item) = Some t /\ timeValue u = Some y /\ t <= y)) /\
  (forall f u,
     dateFrom criteria = Some f -> f <> EmptyString ->
     dateTo criteria = Some u -> u <> EmptyString ->
     match timeValue f, timeValue u with
     | Some x, Some y => y < x
     | _, _ => True
     end ->
     found = []).
Proof.
  unfold searchData. intros Hrun.
  set (all := allData (DataStorage.category criteria) s) in *.
  set (candidates :=
         if given (DataStorage.source criteria)
         then List.filter
                (fun item => bool_decide (Some (r_source item) = DataStorage.source criteria)) all
         else all) in *.
  set (kw := toLowerCase (chars (default EmptyString (keyword criteria)))) in *.
  assert (exists kept,
             (if given (keyword criteria) then filterE (keywordFilter kw) candidates
              else Ret candidates) = Ret kept /\
             found = if given (dateFrom criteria) || given (dateTo criteria)
                     then List.filter (dateFilter timeValue (dateFrom criteria) (dateTo criteria))
                            kept
                     else kept) as (kept & Hkept & ->).
  { destruct (if given (keyword criteria) then filterE (keywordFilter kw) candidates
              else Ret candidates) as [kept|e]; [|discriminate].
    injection Hrun as <-. exists kept. split; reflexivity. }
  clear Hrun.
  assert (forall item, In item kept ->
                       In item candidates /\
                       (given (keyword criteria) = true -> keywordFilter kw item = Ret true))
    as Hkept_in.
  { destruct (given (keyword criteria)).
    - apply filterE_returns in Hkept. subst kept. intros item Hin.
      apply filter_In in Hin as [Hin Hb]. split; [exact Hin|]. intros _.
      destruct (keywordFilter kw item) as [b|e]; [subst b; reflexivity|discriminate].
    - injection Hkept as <-. intros item Hin. split; [exact Hin|discriminate]. }
  assert (sublist kept candidates) as Hsub1.
  { destruct (given (keyword criteria)).
    - apply filterE_returns in Hkept. subst kept. apply filter_sublist.
    - injection Hkept as <-. reflexivity. }
  assert (sublist candidates all) as Hsub2.
  { unfold candidates. destruct (given (DataStorage.source criteria));
      [apply filter_sublist|reflexivity]. }
  assert (forall item, In item candidates ->
                       given (DataStorage.source criteria) = true ->
                       Some (r_source item) = DataStorage.source criteria) as Hsrc.
  { unfold candidates. destruct (given (DataStorage.source criteria)); [|discriminate].
    intros item Hin _. apply filter_In in Hin as [_ Hb].
    apply bool_decide_eq_true in Hb. exact Hb. }
  split; [|split].
  - etransitivity; [|exact Hsub2]. etransitivity; [|exact Hsub1].
    destruct (given (dateFrom criteria) || given (dateTo criteria));
      [apply filter_sublist|reflexivity].
  - intros item Hin.
    assert (In item kept /\
            (given (dateFrom criteria) || given (dateTo criteria) = true ->
             dateFilter timeValue (dateFrom criteria) (dateTo criteria) item = true))
      as [Hin' Hdate].
    { destruct (given (dateFrom criteria) || given (dateTo criteria)).
      - apply filter_In in Hin as [? ?]. split; [assumption|intros _; assumption].
      - split; [exact Hin|discriminate]. }
    destruct (Hkept_in item Hin') as [Hc Hkw].
    split; [apply Hsrc, Hc|]. split; [exact Hkw|]. split.
    + intros f Hf Hne. assert (given (dateFrom criteria) = true) as Hg
        by (apply given_Some; eauto).
      rewrite Hg in Hdate. apply (dateFilter_spec _ _ item (Hdate eq_refl)); assumption.
    + intros u Hu Hne. assert (given (dateTo criteria) = true) as Hg
        by (apply given_Some; eauto).
      rewrite Hg, orb_true_r in Hdate.
      apply (dateFilter_spec _ _ item (Hdate eq_refl)); assumption.
  - intros f u Hf Hfne Hu Hune Hbad.
    assert (given (dateFrom criteria) = true) as Hg by (apply given_Some; eauto).
    rewrite Hg. cbn [orb].
    destruct (List.filter (dateFilter timeValue (dateFrom criteria) (dateTo criteria)) kept)
      as [|item rest] eqn:E; [reflexivity|].
    exfalso.
    assert (In item (item :: rest)) as Hin by (left; reflexivity).
    rewrite <- E in Hin. apply filter_In in Hin as [_ Hd].
    apply dateFilter_spec in Hd as [H1 H2].
    destruct (H1 f Hf Hfne) as (t & x & Ht & Hx & Hle1).
    destruct (H2 u Hu Hune) as (t' & y & Ht' & Hy & Hle2).
    rewrite Hx, Hy in Hbad. rewrite Ht in Ht'. injection Ht' as <-. lia.
Qed.

(** X7.  [deleteData] returns [false] and leaves the store alone when no
    category holds the id.  Otherwise it returns [true]: one category
    that held the id holds it no more, the store has one record less, the
    id is filtered out of every list of the three indexes, the other ids
    resolve as before, and the store has been written to the browser's
    storage when there is one. *)
Theorem deleteData_deletes_one_record (id : string) (s : SState) :
  wellFormed s = true ->
  exists s',
    deleteData id s
    = (Ret (match getData id s with Some _ => true | None => false end), s') /\
    (getData id s = None -> s' = s) /\
    (is_Some (getData id s) ->
     (exists cat, Obj.get (getCategoryData cat s) id = getData id s /\
                  Obj.get (getCategoryData cat s') id = None) /\
     S (length (allData None s')) = length (allData None s) /\
     (forall key,
        idsUnder (byDate (indexes s')) key = without id (idsUnder (byDate (indexes s)) key) /\
        idsUnder (bySource (indexes s')) key
        = without id (idsUnder (bySource (indexes s)) key) /\
        idsUnder (byKeyword (indexes s')) key
        = without id (idsUnder (byKeyword (indexes s)) key)) /\
     (forall other, other <> id -> getData other s' = getData other s) /\
     (present (localStorage s) = true ->
      kache_affiliate_data (localStorage s') = Saved (data s') /\
      kache_affiliate_indexes (localStorage s') = Saved (indexes s'))).
Proof.
  intros Hwf. apply andb_prop in Hwf as [Hwd _].
  pose proof Hwd as Hwd'. apply andb_prop in Hwd' as [Hkeys _].
  destruct (getData id s) as [r|] eqn:Hget.
  - unfold getData in Hget.
    destruct (firstHolding id (forIn (data s))) as [[cat r']|] eqn:Hf; [|discriminate].
    cbn in Hget. injection Hget as ->.
    destruct (deleteData_known id cat r s Hf) as (s' & Hrun & Hd & Hbd & Hbs & Hbk & _ & Hl).
    apply firstHolding_Some in Hf as (records & Hin & Hr). apply forIn_from in Hin.
    pose proof (In_get _ _ _ Hkeys Hin) as Hcat.
    assert (getCategoryData cat s = records) as Hrecords
      by (unfold getCategoryData; rewrite Hcat; reflexivity).
    rewrite Hrecords in Hd.
    exists s'. split; [exact Hrun|]. split; [discriminate|]. intros _.
    split; [|split; [|split; [|split]]].
    + exists cat. rewrite Hrecords. split; [exact Hr|].
      unfold getCategoryData. rewrite Hd, get_set_eq. cbn [default].
      apply get_remove_eq. destruct (category_records (data s) cat Hwd) as [Hdist _].
      rewrite Hcat in Hdist. exact Hdist.
    + rewrite !allData_length, Hd.
      pose proof (count_set (data s) cat records (Obj.remove records id) Hcat) as Hcount.
      pose proof (remove_length records id) as Hlen. rewrite Hr in Hlen.
      specialize (Hlen (ex_intro _ r eq_refl)). lia.
    + intros key. rewrite Hbd, Hbs, Hbk, !idsUnder_dropId. repeat split.
    + intros other Hne. apply (getData_after_delete id other cat s s'); try assumption.
      * rewrite Hcat. eauto.
      * rewrite Hrecords. exact Hd.
    + intros Hp. rewrite Hl, Hp. split; reflexivity.
  - exists s. split; [apply deleteData_unknown, Hget|]. split; [reflexivity|].
    intros [? ?]. discriminate.
Qed.


(** X9.  What [saveToStorage] writes is what [initialize] reads: a store
    that starts on the browser storage another store has saved to has,
    once initialised, the data and the indexes the other one had. *)
Theorem saved_store_is_read_back (s t : SState) :
  present (localStorage s) = true ->
  localStorage t = localStorage (snd (saveToStorage s)) ->
  exists t',
    initialize t = (Ret true, t') /\
    data t' = data s /\
    indexes t' = indexes s /\
    localStorage t' = localStorage t.
Proof.
  intros Hp Ht. rewrite saveToStorage_effect, Hp in Ht. cbn [snd localStorage] in Ht.
  unfold initialize, tryCatch, bind, get, modify, ret. rewrite Ht.
  cbn [present kache_affiliate_data kache_affiliate_indexes].
  eexists. split; [reflexivity|].
  cbn [data indexes localStorage setData setIndexes]. rewrite Ht. repeat split.
Qed.

(** X10.  [initialize] reads the data item and then the indexes item, and
    stops at the first one that does not parse: it returns [false] when
    there is such an item, having replaced the data already when the
    unreadable item is the one of the indexes.  Without browser storage it
    returns [true] and loads nothing. *)
Theorem initialize_stops_at_the_first_unreadable_item (s : SState) :
  let browser := localStorage s in
  initialize s
  = (Ret (negb (present browser &&
                (match kache_affiliate_data browser with Corrupt => true | _ => false end ||
                 match kache_affiliate_indexes browser with Corrupt => true | _ => false end))),
     {| data := match present browser, kache_affiliate_data browser with
                | true, Saved doc => doc
                | _, _ => data s
                end;
        indexes := match present browser, kache_affiliate_data browser,
                         kache_affiliate_indexes browser with
                   | true, (NoItem | Saved _), Saved doc => doc
                   | _, _, _ => indexes s
                   end;
        tick := tick s;
        localStorage := browser |}).
Proof.
  destruct s as [d i t [p sd si]].
  unfold initialize, tryCatch, bind, get, modify, ret, throw.
  cbn [data indexes tick localStorage present kache_affiliate_data kache_affiliate_indexes].
  destruct p; [|reflexivity]. destruct sd, si; reflexivity.
Qed.


End StoreFacts.

Lemma storeData_files_the_record_witness :
  StoreReading.badQuery StoreSample.scraped = false /\
  StoreReading.inheritedQuery StoreSample.scraped = false /\
  exists s',
    DataStorage.storeData Sample.oracle "twitter" "twitter" StoreSample.scraped
      StoreSample.emptyStore
    = (Eff.Ret (Some "twitter_twitter_2025-01-01T00:00:00.0Z"%string), s').
Proof.
  split; [reflexivity|]. split; [reflexivity|].
  destruct (storeData_files_the_record Sample.oracle StoreSample.timeValue
              "twitter" "twitter" StoreSample.scraped StoreSample.emptyStore)
    as (s' & Hrun & _); [reflexivity|reflexivity|].
  exists s'. exact Hrun.
Defined.

Lemma stored_record_is_found_through_the_indexes_witness :
  StoreReading.badQuery StoreSample.scraped = false /\
  StoreReading.inheritedQuery StoreSample.scraped = false /\
  DataStorage.getData "twitter_twitter_2025-01-01T00:00:00.0Z" StoreSample.emptyStore = None /\
  In (StoreReading.recordOf "twitter" "twitter" "2025-01-01T00:00:00.0Z" StoreSample.scraped)
     (DataStorage.getDataByKeyword "Ai" StoreSample.oneRecord).
Proof.
  split; [reflexivity|]. split; [reflexivity|]. split; [reflexivity|].
  destruct (stored_record_is_found_through_the_indexes Sample.oracle
              "twitter" "twitter" StoreSample.scraped StoreSample.emptyStore)
    as (_ & _ & _ & Hkeyword); [reflexivity|reflexivity|reflexivity|].
  apply (Hkeyword _ "AI"%string "Ai"%string eq_refl); [reflexivity|discriminate|reflexivity].
Defined.

Lemma failed_store_leaves_the_record_behind_witness :
  StoreReading.badQuery StoreSample.numbered = true /\
  exists s',
    DataStorage.storeData Sample.oracle "twitter" "twitter" StoreSample.numbered
      StoreSample.emptyStore = (Eff.Ret None, s') /\
    Obj.get (DataStorage.getCategoryData "twitter" s') "twitter_twitter_2025-01-01T00:00:00.0Z"
    = Some (StoreReading.recordOf "twitter" "twitter" "2025-01-01T00:00:00.0Z"
              StoreSample.numbered).
Proof.
  split; [reflexivity|].
  destruct (failed_store_leaves_the_record_behind Sample.oracle
              "twitter" "twitter" StoreSample.numbered StoreSample.emptyStore)
    as (s' & Hrun & Hheld & _); [reflexivity|].
  exists s'. split; [exact Hrun|exact Hheld].
Defined.

Lemma keyword_search_throws_after_a_failed_store_witness :
  StoreReading.badQuery None = true /\
  exists e,
    DataStorage.searchData StoreSample.timeValue (StoreSample.byKeywordOnly "ai")
      (snd (DataStorage.storeData Sample.oracle "twitter" "twitter" None StoreSample.oneRecord))
    = Eff.Throw e.
Proof.
  split; [reflexivity|].
  apply (keyword_search_throws_after_a_failed_store Sample.oracle StoreSample.timeValue
           "twitter" "twitter" None (StoreSample.byKeywordOnly "ai") StoreSample.oneRecord).
  - reflexivity.
  - reflexivity.
  - left. reflexivity.
  - left. reflexivity.
Defined.

Lemma search_results_meet_the_criteria_witness :
  DataStorage.searchData StoreSample.timeValue StoreSample.during2025 StoreSample.oneRecord
  = Eff.Ret [StoreReading.recordOf "twitter" "twitter" "2025-01-01T00:00:00.0Z"
               StoreSample.scraped] /\
  sublist [StoreReading.recordOf "twitter" "twitter" "2025-01-01T00:00:00.0Z"
             StoreSample.scraped]
    (DataStorage.allData None StoreSample.oneRecord).
Proof.
  assert (DataStorage.searchData StoreSample.timeValue StoreSample.during2025
            StoreSample.oneRecord
          = Eff.Ret [StoreReading.recordOf "twitter" "twitter" "2025-01-01T00:00:00.0Z"
                       StoreSample.scraped]) as Hrun by (vm_compute; reflexivity).
  split; [exact Hrun|].
  apply (search_results_meet_the_criteria StoreSample.timeValue StoreSample.during2025
           StoreSample.oneRecord _ Hrun).
Defined.

Lemma deleteData_deletes_one_record_witness :
  StoreReading.wellFormed StoreSample.oneRecord = true /\
  exists s',
    DataStorage.deleteData "twitter_twitter_2025-01-01T00:00:00.0Z" StoreSample.oneRecord
    = (Eff.Ret true, s').
Proof.
  split; [vm_compute; reflexivity|].
  destruct (deleteData_deletes_one_record "twitter_twitter_2025-01-01T00:00:00.0Z"
              StoreSample.oneRecord) as (s' & Hrun & _); [vm_compute; reflexivity|].
  exists s'. rewrite Hrun. reflexivity.
Defined.

Lemma saved_store_is_read_back_witness :
  DataStorage.present (DataStorage.localStorage StoreSample.oneRecord) = true /\
  exists t',
    DataStorage.initialize
      (DataStorage.fresh (DataStorage.localStorage StoreSample.oneRecord))
    = (Eff.Ret true, t') /\
    DataStorage.data t' = DataStorage.data StoreSample.oneRecord.
Proof.
  split; [reflexivity|].
  destruct (saved_store_is_read_back StoreSample.oneRecord
              (DataStorage.fresh (DataStorage.localStorage StoreSample.oneRecord)))
    as (t' & Hrun & Hdata & _); [reflexivity|vm_compute; reflexivity|].
  exists t'. split; [exact Hrun|exact Hdata].
Defined.

Lemma store_fails_on_a_query_naming_an_inherited_member_witness :
  StoreReading.unindexed
    (DataStorage.byKeyword (DataStorage.indexes StoreSample.oneRecord))
    (r_data Sample.constructorRecord) = true /\
  exists s',
    DataStorage.storeData Sample.oracle "socialMedia" "twitter"
      (r_data Sample.constructorRecord) StoreSample.oneRecord = (Eff.Ret None, s') /\
    DataStorage.localStorage s' = DataStorage.localStorage StoreSample.oneRecord.
Proof.
  split; [reflexivity|].
  destruct (store_fails_on_a_query_naming_an_inherited_member Sample.oracle
              StoreSample.timeValue "socialMedia" "twitter"
              (r_data Sample.constructorRecord) StoreSample.oneRecord)
    as (s' & Hrun & _ & _ & _ & _ & Hl & _); [reflexivity|].
  exists s'. split; [exact Hrun|exact Hl].
Defined.

(** ** Keyword and product extraction *)

Section KeywordFacts.
Import JS Trend TrendReading StoreReading.

Lemma chars_str (t : text) : chars (str t) = t.
Proof. apply list_ascii_of_string_of_list_ascii. Qed.

Lemma length_str (t : text) : String.length (str t) = length t.
Proof.
  unfold str. induction t as [|c t IH]; cbn; [reflexivity|]. rewrite IH. reflexivity.
Qed.

(** Every word is made of characters of the text that are not blank. *)
Lemma splitWords_chars (P : ascii -> Prop) (t : text) :
  forall current : text,
    (forall c, In c t -> isSpace c = false -> P c) ->
    (forall c, In c current -> P c) ->
    forall w, In w (splitWords t current) -> forall c, In c w -> P c.
Proof.
  induction t as [|x t IH]; intros current Ht Hcur w Hw c Hc; cbn [splitWords] in Hw.
  - destruct current as [|y current]; [destruct Hw|].
    destruct Hw as [<-|[]]. apply Hcur. apply in_rev. exact Hc.
  - destruct (isSpace x) eqn:Hx.
    + assert (forall w', In w' (splitWords t []) -> forall c', In c' w' -> P c') as Hrest.
      { apply IH; [|intros ? []]. intros c' Hin. apply Ht. right. exact Hin. }
      destruct current as [|y current]; [apply (Hrest w Hw c Hc)|].
      destruct Hw as [<-|Hw]; [|apply (Hrest w Hw c Hc)].
      apply Hcur. apply in_rev. exact Hc.
    + apply (IH (x :: current)) with (w := w); [| |exact Hw|exact Hc].
      * intros c' Hin. apply Ht. right. exact Hin.
      * intros c' [<-|Hin]; [apply Ht; [left; reflexivity|exact Hx]|apply Hcur, Hin].
Qed.

Lemma lowered_word_char (x : ascii) :
  isWordChar (lowerChar x) = true -> isKeywordChar (lowerChar x) = true.
Proof. destruct x as [[] [] [] [] [] [] [] []]; vm_compute; intros H; congruence. Qed.

Lemma stripped_chars (t : text) (c : ascii) :
  In c (stripPunctuation (toLowerCase t)) -> isSpace c = false -> isKeywordChar c = true.
Proof.
  unfold stripPunctuation, toLowerCase. rewrite map_map. intros Hin Hns.
  apply in_map_iff in Hin as (x & <- & _).
  destruct (isWordChar (lowerChar x) || isSpace (lowerChar x)) eqn:E.
  - apply orb_true_iff in E as [E|E]; [apply lowered_word_char, E|congruence].
  - vm_compute in Hns. discriminate.
Qed.

Lemma wordsOf_shape (results : json) (k : string) :
  In k (wordsOf results) ->
  (3 < String.length k)%nat /\ forallb isKeywordChar (chars k) = true.
Proof.
  unfold wordsOf. intros Hin. apply in_map_iff in Hin as (w & <- & Hw).
  apply filter_In in Hw as [Hw Hlen]. apply Nat.ltb_lt in Hlen.
  split; [rewrite length_str; exact Hlen|].
  rewrite chars_str. apply forallb_forall. intros c Hc.
  apply (splitWords_chars (fun c => isKeywordChar c = true)
           (stripPunctuation (toLowerCase (stringify results))) []) with (w := w);
    [apply stripped_chars|intros ? []|exact Hw|exact Hc].
Qed.

(** *** Counting *)

Lemma countWord_get (counts : Obj.t Z) (word w : string) :
  Obj.get (countWord counts word) w
  = if String.eqb word w then Some (default 0 (Obj.get counts word) + 1)
    else Obj.get counts w.
Proof. unfold countWord. apply get_set. Qed.

Lemma counted (ws : list string) :
  forall counts : Obj.t Z,
    distinct (Obj.keys counts) = true ->
    distinct (Obj.keys (fold_left countWord ws counts)) = true /\
    forall w,
      Obj.get (fold_left countWord ws counts) w
      = match count_occ string_dec ws w with
        | O => Obj.get counts w
        | S n => Some (default 0 (Obj.get counts w) + Z.of_nat (S n))
        end.
Proof.
  induction ws as [|x ws IH]; intros counts Hd; cbn [fold_left].
  - split; [exact Hd|]. intros w. reflexivity.
  - destruct (IH (countWord counts x)) as [Hd' Hget].
    { unfold countWord. apply distinct_set, Hd. }
    split; [exact Hd'|]. intros w. rewrite Hget, countWord_get. cbn [count_occ].
    destruct (string_dec x w) as [->|Hne].
    + rewrite String.eqb_refl. cbn [default].
      destruct (count_occ string_dec ws w) as [|n]; f_equal; unfold id; lia.
    + destruct (String.eqb_spec x w); [contradiction|]. reflexivity.
Qed.

Lemma wordCounts_spec (ws : list string) :
  distinct (Obj.keys (fold_left countWord ws [])) = true /\
  forall w n,
    In (w, n) (fold_left countWord ws []) <->
    (n = Z.of_nat (count_occ string_dec ws w) /\ In w ws).
Proof.
  destruct (counted ws []) as [Hd Hget]; [reflexivity|]. split; [exact Hd|].
  intros w n. split.
  - intros Hin. apply (In_get _ _ _ Hd) in Hin. rewrite Hget in Hin.
    destruct (count_occ string_dec ws w) eqn:E; [discriminate|].
    cbn [Obj.get default] in Hin. injection Hin as <-. split; [lia|].
    apply (count_occ_In string_dec). lia.
  - intros [-> Hin]. apply get_In. rewrite Hget.
    apply (count_occ_In string_dec) in Hin.
    destruct (count_occ string_dec ws w); [lia|]. cbn [Obj.get default]. f_equal.
Qed.

(** *** Sorting *)

Lemma insertSorted_sorted (x : string * Z) (l : list (string * Z)) :
  StronglySorted (fun a b => snd b <= snd a) l ->
  StronglySorted (fun a b => snd b <= snd a)
    (insertSorted (fun a b => snd b <=? snd a) x l).
Proof.
  induction 1 as [|y l Hl IH Hy]; cbn [insertSorted].
  - constructor; constructor.
  - destruct (snd y <=? snd x) eqn:E.
    + apply Z.leb_le in E. constructor; [constructor; assumption|].
      constructor; [exact E|]. rewrite List.Forall_forall in *. intros z Hz.
      specialize (Hy z Hz). lia.
    + apply Z.leb_gt in E. constructor; [exact IH|].
      rewrite List.Forall_forall in *. intros z Hz.
      apply (Permutation_in _ (insertSorted_perm _ x l)) in Hz.
      destruct Hz as [<-|Hz]; [lia|apply Hy, Hz].
Qed.

Lemma stableSort_sorted (l : list (string * Z)) :
  StronglySorted (fun a b => snd b <= snd a) (stableSort (fun a b => snd b <=? snd a) l).
Proof.
  unfold stableSort. induction l as [|x l IH]; cbn [foldr]; [constructor|].
  apply insertSorted_sorted, IH.
Qed.

Lemma sorted_take_drop (l : list (string * Z)) (n : nat) (a b : string * Z) :
  StronglySorted (fun a b => snd b <= snd a) l ->
  In a (take n l) -> In b (drop n l) -> snd b <= snd a.
Proof.
  intros Hs. revert n. induction Hs as [|x l Hl IH Hx]; intros n Ha Hb.
  - destruct n; destruct Ha.
  - destruct n as [|n]; [destruct Ha|]. cbn [take drop] in Ha, Hb.
    destruct Ha as [<-|Ha]; [|apply (IH n Ha Hb)].
    rewrite List.Forall_forall in Hx. apply Hx.
    rewrite <- (take_drop n l). apply in_app_iff. right. exact Hb.
Qed.

Lemma sorted_take (l : list (string * Z)) (n : nat) :
  StronglySorted (fun a b => snd b <= snd a) l ->
  StronglySorted (fun a b => snd b <= snd a) (take n l).
Proof.
  intros Hs. revert n. induction Hs as [|x l Hl IH Hx]; intros n.
  - destruct n; constructor.
  - destruct n as [|n]; [constructor|]. cbn [take]. constructor; [apply IH|].
    rewrite List.Forall_forall in *. intros y Hy. apply Hx.
    rewrite <- (take_drop n l). apply in_app_iff. left. exact Hy.
Qed.

Lemma distinct_NoDup (ks : list string) : distinct ks = true -> List.NoDup ks.
Proof.
  induction ks as [|k ks IH]; intros H; [constructor|].
  apply distinct_cons in H as [Hk Hd]. constructor; [exact Hk|apply IH, Hd].
Qed.

Lemma sorted_keys (f : string -> nat) (l : list (string * Z)) :
  (forall kv, In kv l -> snd kv = Z.of_nat (f (fst kv))) ->
  StronglySorted (fun a b => snd b <= snd a) l ->
  StronglySorted (fun k k' => (f k' <= f k)%nat) (map fst l).
Proof.
  intros Hf Hs. induction Hs as [|x l Hl IH Hx]; cbn [map]; [constructor|].
  constructor.
  - apply IH. intros kv Hin. apply Hf. right. exact Hin.
  - rewrite List.Forall_forall in *. intros k Hk.
    apply in_map_iff in Hk as (kv & <- & Hkv).
    specialize (Hx kv Hkv). rewrite (Hf kv), (Hf x) in Hx; [lia|left; reflexivity|right; exact Hkv].
Qed.

Lemma extractKeywords_words (results : json) (k : string) :
  In k (extractKeywords results) -> In k (wordsOf results).
Proof.
  set (wc := fold_left countWord (wordsOf results) []).
  set (sorted := stableSort (fun a b : string * Z => snd b <=? snd a) (entries wc)).
  change (extractKeywords results) with (map fst (take 10 sorted)).
  intros Hk. apply in_map_iff in Hk as ([k' n] & <- & Hin).
  assert (In (k', n) sorted) as Hs
    by (rewrite <- (take_drop 10 sorted); apply in_app_iff; left; exact Hin).
  unfold sorted in Hs. apply (Permutation_in _ (stableSort_perm _ _)) in Hs.
  change (entries wc) with (DataStorage.forIn wc) in Hs. apply forIn_from in Hs.
  apply (wordCounts_spec (wordsOf results)) in Hs. apply Hs.
Qed.

Lemma extractKeywords_ranked (results : json) :
  let ks := extractKeywords results in
  (length ks <= 10)%nat /\
  List.NoDup ks /\
  StronglySorted (fun k k' => (frequency results k' <= frequency results k)%nat) ks /\
  (forall k, In k ks ->
     (0 < frequency results k)%nat /\ (3 < String.length k)%nat /\
     forallb isKeywordChar (chars k) = true) /\
  (forall w, (0 < frequency results w)%nat -> ~ In w ks ->
     length ks = 10%nat /\
     forall k, In k ks -> (frequency results w <= frequency results k)%nat).
Proof.
  intros ks.
  set (wc := fold_left countWord (wordsOf results) []).
  set (sorted := stableSort (fun a b : string * Z => snd b <=? snd a) (entries wc)).
  assert (ks = map fst (take 10 sorted)) as Hks by reflexivity.
  destruct (wordCounts_spec (wordsOf results)) as [Hd Hwc]. fold wc in Hd, Hwc.
  assert (Permutation sorted wc) as Hperm.
  { unfold sorted. rewrite stableSort_perm.
    change (entries wc) with (DataStorage.forIn wc). apply forIn_perm. }
  assert (forall kv, In kv sorted ->
                     snd kv = Z.of_nat (frequency results (fst kv)) /\
                     In (fst kv) (wordsOf results)) as Hsorted.
  { intros [k n] Hin. apply (Permutation_in _ Hperm) in Hin. apply Hwc in Hin. exact Hin. }
  assert (StronglySorted (fun a b : string * Z => snd b <= snd a) sorted) as Hs
    by apply stableSort_sorted.
  assert (forall kv, In kv (take 10 sorted) -> In kv sorted) as Htake.
  { intros kv Hin. rewrite <- (take_drop 10 sorted). apply in_app_iff. left. exact Hin. }
  split; [|split; [|split; [|split]]].
  - rewrite Hks, length_map, length_take. lia.
  - rewrite Hks. rewrite <- (take_drop 10 sorted) in Hperm.
    apply (Permutation_map fst) in Hperm. rewrite map_app in Hperm.
    apply distinct_NoDup in Hd. unfold Obj.keys in Hd.
    apply (Permutation_NoDup (Permutation_sym Hperm)) in Hd.
    apply NoDup_app_remove_r in Hd. exact Hd.
  - rewrite Hks. apply sorted_keys; [|apply sorted_take, Hs].
    intros kv Hin. apply Hsorted, Htake, Hin.
  - intros k Hk. rewrite Hks in Hk. apply in_map_iff in Hk as (kv & <- & Hin).
    destruct (Hsorted kv (Htake kv Hin)) as [_ Hw].
    split; [apply (count_occ_In string_dec), Hw|apply (wordsOf_shape results), Hw].
  - intros w Hw Hnot.
    assert (In w (wordsOf results)) as Hin by (apply (count_occ_In string_dec); exact Hw).
    assert (In (w, Z.of_nat (frequency results w)) sorted) as Hws.
    { apply (Permutation_in _ (Permutation_sym Hperm)). apply Hwc. split; [reflexivity|exact Hin]. }
    assert (In (w, Z.of_nat (frequency results w)) (drop 10 sorted)) as Hdrop.
    { rewrite <- (take_drop 10 sorted) in Hws. apply in_app_iff in Hws as [Hws|Hws]; [|exact Hws].
      exfalso. apply Hnot. rewrite Hks. apply in_map_iff.
      exists (w, Z.of_nat (frequency results w)). split; [reflexivity|exact Hws]. }
    split.
    + rewrite Hks, length_map, length_take.
      assert (10 < length sorted)%nat; [|lia].
      destruct (Nat.le_gt_cases (length sorted) 10) as [Hle|Hgt]; [|exact Hgt].
      rewrite drop_ge in Hdrop by exact Hle. destruct Hdrop.
    + intros k Hk. rewrite Hks in Hk. apply in_map_iff in Hk as (kv & <- & Hkv).
      pose proof (sorted_take_drop sorted 10 kv _ Hs Hkv Hdrop) as Hle. cbn [snd] in Hle.
      destruct (Hsorted kv (Htake kv Hkv)) as [Hn _]. rewrite Hn in Hle. lia.
Qed.

(** X12.  Over a payload whose numbers are safe integers and none of whose
    words names a member of [Object.prototype], [extractKeywords] returns
    at most ten words, all different, each longer than three characters
    and made of lower-case letters, digits and underscores only, each
    occurring in the serialized results; they come in the order of
    decreasing frequency, and a word left out is no more frequent than
    any word returned, ten words being returned then. *)
Theorem extractKeywords_ranks_the_words (results : json) :
  safeNumbers results = true ->
  plainWords results = true ->
  let ks := extractKeywords results in
  (length ks <= 10)%nat /\
  List.NoDup ks /\
  StronglySorted (fun k k' => (frequency results k' <= frequency results k)%nat) ks /\
  (forall k, In k ks ->
     (0 < frequency results k)%nat /\ (3 < String.length k)%nat /\
     forallb isKeywordChar (chars k) = true) /\
  (forall w, (0 < frequency results w)%nat -> ~ In w ks ->
     length ks = 10%nat /\
     forall k, In k ks -> (frequency results w <= frequency results k)%nat).
Proof. intros _ _. apply extractKeywords_ranked. Qed.

End KeywordFacts.

Lemma extractKeywords_ranks_the_words_witness :
  TrendReading.safeNumbers (JS.JArr [Sample.aiTweet; Sample.aiTweet; Sample.aiVideo]) = true /\
  TrendReading.plainWords (JS.JArr [Sample.aiTweet; Sample.aiTweet; Sample.aiVideo]) = true /\
  (length (Trend.extractKeywords (JS.JArr [Sample.aiTweet; Sample.aiTweet; Sample.aiVideo]))
   <= 10)%nat /\
  List.NoDup (Trend.extractKeywords (JS.JArr [Sample.aiTweet; Sample.aiTweet; Sample.aiVideo])).
Proof.
  split; [vm_compute; reflexivity|]. split; [vm_compute; reflexivity|].
  destruct (extractKeywords_ranks_the_words
              (JS.JArr [Sample.aiTweet; Sample.aiTweet; Sample.aiVideo]))
    as (Hlen & Hnd & _); [vm_compute; reflexivity|vm_compute; reflexivity|].
  split; [exact Hlen|exact Hnd].
Defined.

Section ProductFacts.
Import JS Eff Trend Reading TrendReading.
Context {Timeframes : Type}.
Variable oracle : Oracle.

Abbreviation PState := (@Trend.State Timeframes).

Lemma member_present (result : json) (k : string) (s : PState) :
  result <> JNull -> Trend.member result k s = (Ret (prop result k), s).
Proof. destruct result; [contradiction|reflexivity..]. Qed.

Lemma titled_title (result : json) :
  titled result = true ->
  orElse (prop result "title") (orElse (prop result "name") (Some (JStr "Unknown Product")))
  = orElse (prop result "title") (prop result "name").
Proof.
  unfold titled, orElse. destruct (truthy (prop result "title")); [reflexivity|].
  intros ->. reflexivity.
Qed.

Lemma productOf_made (result : json) (s : PState) :
  result <> JNull -> titled result = true ->
  exists p s',
    productOf oracle result s = (Ret p, s') /\ sameButTick s s' /\
    p_title p = orElse (prop result "title") (prop result "name") /\
    p_description p = orElse (prop result "description") (Some (JStr "")) /\
    p_price p = orElse (prop result "price") (Some (JNum 0)) /\
    p_url p = orElse (prop result "url") (orElse (prop result "link") (Some (JStr ""))) /\
    p_image p = orElse (prop result "image") (Some (JStr "")) /\
    p_source p = orElse (prop result "source") (Some (JStr "unknown")) /\
    (truthy (prop result "id") = true -> p_id p = prop result "id").
Proof.
  intros Hnn Ht. unfold productOf, bind.
  rewrite (member_present result "id" s Hnn).
  destruct (truthy (prop result "id")) eqn:Hid.
  - unfold ret at 1. rewrite !(member_present result _ s Hnn).
    unfold newDate, readOracle, ret.
    eexists _, _. split; [reflexivity|]. split; [repeat split|].
    cbn [p_title p_description p_price p_url p_image p_source p_id].
    rewrite (titled_title result Ht). repeat split.
  - unfold readOracle at 1 2, ret at 1.
    match goal with
    | |- context [Trend.member result "title" ?s1] =>
        rewrite !(member_present result _ s1 Hnn)
    end.
    unfold newDate, readOracle, ret.
    eexists _, _. split; [reflexivity|]. split; [repeat split|].
    cbn [p_title p_description p_price p_url p_image p_source p_id].
    rewrite (titled_title result Ht). repeat split. discriminate.
Qed.

Lemma json_null_dec (result : json) : result = JNull \/ result <> JNull.
Proof. destruct result; [left; reflexivity|right; discriminate..]. Qed.

Lemma collectProducts_null (items : list json) :
  In JNull items ->
  forall acc (s : PState),
    exists e s', collectProducts oracle items acc s = (Throw e, s') /\ sameButTick s s'.
Proof.
  induction items as [|result rest IH]; intros Hin acc s; [destruct Hin|].
  cbn [collectProducts]. unfold bind.
  destruct (json_null_dec result) as [->|Hnn].
  - eexists _, _. split; [reflexivity|apply sameButTick_refl].
  - destruct Hin as [Hin|Hin]; [congruence|].
    rewrite !(member_present result _ s Hnn).
    destruct (truthy (orElse (prop result "title") (prop result "name"))) eqn:Ht.
    + destruct (productOf_made result s Hnn Ht) as (p & s1 & -> & H1 & _).
      destruct (IH Hin (acc ++ [p]) s1) as (e & s' & -> & H2).
      eexists _, _. split; [reflexivity|]. eapply sameButTick_trans; eassumption.
    + apply IH, Hin.
Qed.

Lemma collectProducts_made (items : list json) :
  ~ In JNull items ->
  forall acc (s : PState),
    exists ps s',
      collectProducts oracle items acc s = (Ret (acc ++ ps), s') /\ sameButTick s s' /\
      Forall2
        (fun p result =>
           p_title p = orElse (prop result "title") (prop result "name") /\
           p_description p = orElse (prop result "description") (Some (JStr "")) /\
           p_price p = orElse (prop result "price") (Some (JNum 0)) /\
           p_url p = orElse (prop result "url") (orElse (prop result "link") (Some (JStr ""))) /\
           p_image p = orElse (prop result "image") (Some (JStr "")) /\
           p_source p = orElse (prop result "source") (Some (JStr "unknown")) /\
           (truthy (prop result "id") = true -> p_id p = prop result "id"))
        ps (List.filter titled items).
Proof.
  induction items as [|result rest IH]; intros Hnot acc s.
  - exists [], s. rewrite app_nil_r. split; [reflexivity|].
    split; [apply sameButTick_refl|constructor].
  - assert (result <> JNull) as Hnn by (intros ->; apply Hnot; left; reflexivity).
    assert (~ In JNull rest) as Hrest by (intros H; apply Hnot; right; exact H).
    cbn [collectProducts List.filter]. unfold bind.
    rewrite !(member_present result _ s Hnn). fold (titled result).
    destruct (titled result) eqn:Ht.
    + destruct (productOf_made result s Hnn Ht) as (p & s1 & -> & H1 & Hp).
      destruct (IH Hrest (acc ++ [p]) s1) as (ps & s' & -> & H2 & Hps).
      exists (p :: ps), s'. rewrite <- app_assoc. split; [reflexivity|].
      split; [eapply sameButTick_trans; eassumption|]. constructor; assumption.
    + apply IH, Hrest.
Qed.

(** X13.  [extractProducts] makes one product of every result that has a
    truthy title or name, in the order of the results: its title is the
    result's title or else its name, its other fields are the result's or
    the defaults, and its id is the result's when that is truthy.  Only
    the clock and the random source are read.  This holds when no result
    is [null]. *)
Theorem extractProducts_makes_a_product_of_each_titled_result
    (items : list json) (s : PState) :
  ~ In JNull items ->
  exists products s',
    extractProducts oracle (JArr items) s = (Ret products, s') /\
    sameButTick s s' /\
    Forall2
      (fun p result =>
         p_title p = orElse (prop result "title") (prop result "name") /\
         p_description p = orElse (prop result "description") (Some (JStr "")) /\
         p_price p = orElse (prop result "price") (Some (JNum 0)) /\
         p_url p = orElse (prop result "url") (orElse (prop result "link") (Some (JStr ""))) /\
         p_image p = orElse (prop result "image") (Some (JStr "")) /\
         p_source p = orElse (prop result "source") (Some (JStr "unknown")) /\
         (truthy (prop result "id") = true -> p_id p = prop result "id"))
      products (List.filter titled items).
Proof.
  intros Hnot. unfold extractProducts, tryCatch.
  destruct (collectProducts_made items Hnot [] s) as (ps & s' & -> & Hs & Hps).
  exists ps, s'. split; [reflexivity|]. split; assumption.
Qed.

(** X14.  One [null] among the results makes [extractProducts] return no
    product at all, whatever the other results are. *)
Theorem extractProducts_gives_up_on_a_null_result (items : list json) (s : PState) :
  In JNull items ->
  exists s', extractProducts oracle (JArr items) s = (Ret [], s') /\ sameButTick s s'.
Proof.
  intros Hnull. unfold extractProducts, tryCatch.
  destruct (collectProducts_null items Hnull [] s) as (e & s' & -> & Hs).
  exists s'. split; [reflexivity|exact Hs].
Qed.

End ProductFacts.

Lemma extractProducts_makes_a_product_of_each_titled_result_witness :
  ~ In JS.JNull [Sample.aiPin] /\
  exists products s',
    Trend.extractProducts Sample.oracle (JS.JArr [Sample.aiPin]) Sample.trendService
    = (Eff.Ret products, s') /\
    map Trend.p_title products = [Some (JS.JStr "Best AI Products for 2025")].
Proof.
  assert (~ In JS.JNull [Sample.aiPin]) as Hnot by (intros [H|[]]; discriminate).
  split; [exact Hnot|].
  destruct (extractProducts_makes_a_product_of_each_titled_result Sample.oracle
              [Sample.aiPin] Sample.trendService Hnot) as (products & s' & Hrun & _ & Hmade).
  exists products, s'. split; [exact Hrun|].
  change (List.filter TrendReading.titled [Sample.aiPin]) with [Sample.aiPin] in Hmade.
  inversion Hmade as [|p r ps rs Hp Hrest]; subst. inversion Hrest; subst.
  destruct Hp as [Htitle _]. cbn [map]. rewrite Htitle. reflexivity.
Defined.

Lemma extractProducts_gives_up_on_a_null_result_witness :
  In JS.JNull [Sample.aiPin; JS.JNull] /\
  exists s',
    Trend.extractProducts Sample.oracle (JS.JArr [Sample.aiPin; JS.JNull]) Sample.trendService
    = (Eff.Ret [], s').
Proof.
  assert (In JS.JNull [Sample.aiPin; JS.JNull]) as Hnull by (right; left; reflexivity).
  split; [exact Hnull|].
  destruct (extractProducts_gives_up_on_a_null_result Sample.oracle
              [Sample.aiPin; JS.JNull] Sample.trendService Hnull) as (s' & Hrun & _).
  exists s'. exact Hrun.
Defined.

(** ** The growth of a niche *)

Lemma growth_bound (p : Z) (r : Q) :
  (0 <= r)%Q -> (r < 1)%Q ->
  (Qabs (toFixed2 (inject_Z p * (r * (2 # 10) + (9 # 10)) - inject_Z p))
   <= Qabs (inject_Z p) * (1 # 10) + (1 # 200))%Q.
Proof.
  intros Hr0 Hr1.
  set (g := (inject_Z p * (r * (2 # 10) + (9 # 10)) - inject_Z p)%Q).
  assert (Qabs g <= Qabs (inject_Z p) * (1 # 10))%Q as Hg.
  { assert (g == inject_Z p * (r * (2 # 10) - (1 # 10)))%Q as -> by (unfold g; ring).
    rewrite Qabs_Qmult.
    assert (Qabs (r * (2 # 10) - (1 # 10)) <= 1 # 10)%Q as Hx
      by (apply Qabs_case; intros; lra).
    pose proof (Qabs_nonneg (inject_Z p)) as Hp.
    pose proof (Qabs_nonneg (r * (2 # 10) - (1 # 10))) as Hx0.
    revert Hx Hp Hx0. generalize (Qabs (inject_Z p)), (Qabs (r * (2 # 10) - (1 # 10))).
    intros A B HB HA HB0. nra. }
  pose proof (toFixed2_near g) as Hnear.
  assert (toFixed2 g == (toFixed2 g - g) + g)%Q as -> by ring.
  eapply Qle_trans; [apply Qabs_triangle|]. lra.
Qed.

Section GrowthFacts.
Import JS Eff Trend Reading.
Context {Timeframes : Type}.
Variable oracle : Oracle.
Hypothesis random_range : forall t, (0 <= random oracle t)%Q /\ (random oracle t < 1)%Q.

Abbreviation GState := (@Trend.State Timeframes).

Lemma growNiche_growth (n : string) (nd : NicheData) (s : GState) :
  Obj.get (niches (trendData s)) n = Some nd ->
  exists s' nd',
    growNiche oracle n s = (Ret tt, s') /\
    niches (trendData s') = Obj.set (niches (trendData s)) n nd' /\
    popularity nd' = popularity nd /\
    (Qabs (growth nd') <= Qabs (inject_Z (popularity nd')) * (1 # 10) + (1 # 200))%Q.
Proof.
  intros Hget. unfold growNiche, bind, get, modify, readOracle. rewrite Hget.
  cbn [trendData]. eexists _, _. split; [reflexivity|].
  cbn [trendData setNiches setTrendData niches popularity growth].
  split; [reflexivity|]. split; [reflexivity|].
  destruct (random_range (tick s)) as [H0 H1]. apply growth_bound; assumption.
Qed.

Lemma growNiches_growth (ks : list string) :
  forall s : GState,
    (forall n, In n ks -> is_Some (Obj.get (niches (trendData s)) n)) ->
    exists s',
      forEach (growNiche oracle) ks s = (Ret tt, s') /\
      forall n nd',
        Obj.get (niches (trendData s')) n = Some nd' ->
        exists nd,
          Obj.get (niches (trendData s)) n = Some nd /\
          popularity nd' = popularity nd /\
          (In n ks ->
           (Qabs (growth nd') <= Qabs (inject_Z (popularity nd')) * (1 # 10) + (1 # 200))%Q) /\
          (~ In n ks -> nd' = nd).
Proof.
  induction ks as [|k ks IH]; intros s Hpresent.
  - exists s. split; [reflexivity|]. intros n nd' Hget. exists nd'.
    split; [exact Hget|]. split; [reflexivity|]. split; [intros []|reflexivity].
  - destruct (Hpresent k (or_introl eq_refl)) as [nd0 Hk].
    destruct (growNiche_growth k nd0 s Hk) as (s1 & nd1 & Hrun & Hset & Hpop & Hbound).
    destruct (IH s1) as (s' & Hloop & Hafter).
    { intros n Hn. rewrite Hset, get_set. destruct (String.eqb k n); [eauto|].
      apply Hpresent. right. exact Hn. }
    exists s'. cbn [forEach]. unfold bind. rewrite Hrun. split; [exact Hloop|].
    intros n nd' Hget. destruct (Hafter n nd' Hget) as (nd & Hnd & Hp & Hin & Hout).
    rewrite Hset, get_set in Hnd.
    destruct (String.eqb_spec k n) as [->|Hne].
    + injection Hnd as <-. exists nd0. split; [exact Hk|]. split; [congruence|].
      split.
      * intros _. destruct (in_dec string_dec n ks) as [Hi|Hi]; [apply Hin, Hi|].
        rewrite (Hout Hi). exact Hbound.
      * intros Hno. exfalso. apply Hno. left. reflexivity.
    + exists nd. split; [exact Hnd|]. split; [exact Hp|]. split.
      * intros [Heq|Hi]; [contradiction|apply Hin, Hi].
      * intros Hno. apply Hout. intros Hi. apply Hno. right. exact Hi.
Qed.

(** X15.  When the random source stays in [0, 1), [calculateNicheGrowth]
    returns [true] and leaves, for every niche, the popularity as it was
    and a growth within a tenth of the popularity, give or take the half
    cent of the rounding to two decimals. *)
Theorem growth_stays_within_a_tenth_of_popularity (s : GState) :
  exists s',
    calculateNicheGrowth oracle s = (Ret true, s') /\
    forall n nd',
      Obj.get (niches (trendData s')) n = Some nd' ->
      exists nd,
        Obj.get (niches (trendData s)) n = Some nd /\
        popularity nd' = popularity nd /\
        (Qabs (growth nd') <= Qabs (inject_Z (popularity nd')) * (1 # 10) + (1 # 200))%Q.
Proof.
  destruct (growNiches_growth (Obj.keys (niches (trendData s))) s) as (s' & Hloop & Hafter).
  { intros n Hn. apply get_keys, Hn. }
  exists s'. unfold calculateNicheGrowth, tryCatch, bind, get. rewrite Hloop.
  split; [reflexivity|]. intros n nd' Hget.
  destruct (Hafter n nd' Hget) as (nd & Hnd & Hp & Hin & _).
  exists nd. split; [exact Hnd|]. split; [exact Hp|]. apply Hin.
  apply (In_keys _ n nd), get_In, Hnd.
Qed.

End GrowthFacts.

Lemma growth_stays_within_a_tenth_of_popularity_witness :
  (forall t, (0 <= random Sample.oracle t)%Q /\ (random Sample.oracle t < 1)%Q) /\
  exists s',
    Trend.calculateNicheGrowth Sample.oracle
      (Sample.trendsAfter [Sample.aiRecord] Sample.trendService) = (Eff.Ret true, s').
Proof.
  assert (forall t, (0 <= random Sample.oracle t)%Q /\ (random Sample.oracle t < 1)%Q) as Hr
    by (intros t; split; [apply Qle_bool_imp_le; reflexivity|reflexivity]).
  split; [exact Hr|].
  destruct (growth_stays_within_a_tenth_of_popularity Sample.oracle Hr
              (Sample.trendsAfter [Sample.aiRecord] Sample.trendService)) as (s' & Hrun & _).
  exists s'. exact Hrun.
Defined.

(** ** The related keywords of a keyword *)

Section RelatedFacts.
Import JS Eff Trend Reading TrendReading.
Context {Timeframes : Type}.
Variable analyzeByTimeframeOn : list StoredRecord -> Timeframes -> Report * Timeframes.
Variable oracle : Oracle.

Abbreviation RState := (@Trend.State Timeframes).

Lemma pushRelated_inOrder (q : string) (results : json) (ks : list string) :
  (forall k, In k ks -> In k (wordsOf results)) ->
  forall acc, inOrder q acc -> inOrder q (pushRelated q acc ks).
Proof.
  unfold pushRelated. induction ks as [|k ks IH]; intros Hks acc Hacc; [exact Hacc|].
  cbn [fold_left]. apply IH; [intros k' Hk'; apply Hks; right; exact Hk'|].
  destruct (negb (String.eqb k q) && negb (existsb (String.eqb k) acc)) eqn:E; [|exact Hacc].
  apply andb_prop in E as [Hq Hnew].
  apply negb_true_iff, String.eqb_neq in Hq.
  apply negb_true_iff, existsb_eqb_false in Hnew.
  destruct Hacc as (Hnq & Hnd & Hshape). split; [|split].
  - rewrite in_app_iff. intros [H|[H|[]]]; [contradiction|congruence].
  - apply List.NoDup_app; [exact Hnd|constructor; [intros []|constructor]|].
    intros x Hx [<-|[]]. contradiction.
  - intros x Hx. apply in_app_iff in Hx as [Hx|[<-|[]]]; [apply Hshape, Hx|].
    apply (wordsOf_shape results), Hks. left. reflexivity.
Qed.

Lemma relatedAfter_inOrder (q : string) (hits : list json) :
  forall acc, inOrder q acc -> inOrder q (relatedAfter q hits acc).
Proof.
  unfold relatedAfter. induction hits as [|r hits IH]; intros acc Hacc; [exact Hacc|].
  cbn [fold_left]. apply IH. apply (pushRelated_inOrder q r); [|exact Hacc].
  intros k. apply extractKeywords_words.
Qed.

Lemma inOrder_after (data : list StoredRecord) (s : RState) :
  steady s ->
  (forall q, inOrder q (relatedOf s q)) ->
  forall q, inOrder q (relatedOf (stateAfter analyzeByTimeframeOn oracle data s) q).
Proof.
  intros Hsteady Hs q.
  assert (relatedOf (ensureInitialized s) q = relatedOf s q) as Hinit.
  { destruct (readers_trendData (ensureInitialized s) s Hsteady) as (_ & H & _).
    apply (H q). }
  destruct data as [|item rest].
  - rewrite after_empty, Hinit. apply Hs.
  - destruct (after_summary analyzeByTimeframeOn oracle item rest s) as (_ & _ & _ & H).
    destruct (H q) as (_ & _ & ->). rewrite Hinit. apply relatedAfter_inOrder, Hs.
Qed.

Lemma inOrder_afterAll (snapshots : list (list StoredRecord)) :
  forall s : RState,
    steady s ->
    (forall q, inOrder q (relatedOf s q)) ->
    forall q, inOrder q (relatedOf (stateAfterAll analyzeByTimeframeOn oracle snapshots s) q).
Proof.
  induction snapshots as [|data snapshots IH]; intros s Hsteady Hs; [exact Hs|].
  cbn [stateAfterAll fold_left]. apply IH.
  - apply after_steady.
  - apply inOrder_after; assumption.
Qed.

(** X16.  From the service as constructed, with no saved document to load,
    and after any series of calls of [analyzeAllData], the related
    keywords of a keyword never list the keyword itself, list no word
    twice, and list only words longer than three characters made of
    lower-case letters, digits and underscores. *)
Theorem related_keywords_never_list_the_keyword_itself
    (t0 : Timeframes) (storageAvailable corrupt : bool)
    (snapshots : list (list StoredRecord)) (q : string) :
  let s := stateAfterAll analyzeByTimeframeOn oracle snapshots
             (fresh t0 {| available := storageAvailable;
                          slot := if corrupt then Corrupt else NoItem |}) in
  ~ In q (relatedOf s q) /\
  List.NoDup (relatedOf s q) /\
  forall k, In k (relatedOf s q) ->
            (3 < String.length k)%nat /\ forallb isKeywordChar (chars k) = true.
Proof.
  intros s. apply (inOrder_afterAll snapshots).
  - apply fresh_steady.
  - intros q'. split; [intros []|]. split; [constructor|intros k []].
Qed.

End RelatedFacts.

(** ** A query that is not a string *)

Section AbortFacts.
Import JS Eff Trend Reading.
Context {Timeframes : Type}.
Variable analyzeByTimeframeOn : list StoredRecord -> Timeframes -> Report * Timeframes.
Variable oracle : Oracle.

Abbreviation AState := (@Trend.State Timeframes).

Lemma reached_stops {X A} (handling : X -> Handling A) (earlier later : list X) (bad : X) :
  handling bad = Fails ->
  reached handling (earlier ++ bad :: later) = reached handling (earlier ++ [bad]).
Proof.
  intros Hbad. induction earlier as [|x earlier IH]; cbn [app reached].
  - rewrite Hbad. reflexivity.
  - destruct (handling x); [exact IH|reflexivity|f_equal; exact IH].
Qed.

Lemma unreadable_query_fails (bad : StoredRecord) (fields : list (string * json))
    (results query : json) :
  r_data bad = Some (JObj fields) ->
  lookupField "results" fields = Some results -> truthy (Some results) = true ->
  lookupField "query" fields = Some query -> truthy (Some query) = true ->
  (forall q, query <> JStr q) ->
  (forall held, keywordHandling held bad = Fails) /\ nicheHandling bad = Fails.
Proof.
  intros Hd Hr Htr Hq Htq Hns. unfold keywordHandling, nicheHandling.
  rewrite Hd, Hr, Hq, Htr. unfold orElse. rewrite Htq. cbn [andb].
  destruct query as [|b|n|q|items|members]; try (split; [intros held|]; reflexivity).
  exfalso. apply (Hns q). reflexivity.
Qed.

(** X17.  A record whose payload has truthy results and a truthy [query]
    that is not a string stops the by-niche and the by-keyword pass: the
    call of [analyzeAllData] still reports success, and the popularity of
    every niche and the mentions, sentiment and related keywords of every
    keyword come out as if the records after that one were not in the
    snapshot. *)
Theorem unreadable_query_hides_the_later_records
    (earlier later : list StoredRecord) (bad : StoredRecord)
    (fields : list (string * json)) (results query : json) (s : AState) :
  r_data bad = Some (JObj fields) ->
  lookupField "results" fields = Some results -> truthy (Some results) = true ->
  lookupField "query" fields = Some query -> truthy (Some query) = true ->
  (forall q, query <> JStr q) ->
  let run := analyzeAllData analyzeByTimeframeOn oracle (earlier ++ bad :: later) s in
  let s1 := snd run in
  let s2 := stateAfter analyzeByTimeframeOn oracle (earlier ++ [bad]) s in
  (exists result, fst run = Ret result /\ success (report result) = true) /\
  (forall m, popularityOf s1 m = popularityOf s2 m) /\
  (forall q,
     mentionsOf s1 q = mentionsOf s2 q /\
     sentimentOf s1 q = sentimentOf s2 q /\
     relatedOf s1 q = relatedOf s2 q).
Proof.
  intros Hd Hr Htr Hq Htq Hns run s1 s2.
  destruct (unreadable_query_fails bad fields results query Hd Hr Htr Hq Htq Hns)
    as [Hk Hn].
  assert (exists item rest, earlier ++ bad :: later = item :: rest) as (i1 & r1 & E1)
    by (destruct earlier; cbn [app]; eauto).
  assert (exists item rest, earlier ++ [bad] = item :: rest) as (i2 & r2 & E2)
    by (destruct earlier; cbn [app]; eauto).
  assert (forall held q,
             keywordHits held q (earlier ++ bad :: later)
             = keywordHits held q (earlier ++ [bad]))
    as Hkh by (intros held q; unfold keywordHits;
               rewrite (reached_stops _ _ later bad (Hk held)); reflexivity).
  assert (forall m, nicheHits m (earlier ++ bad :: later) = nicheHits m (earlier ++ [bad]))
    as Hnh by (intros m; unfold nicheHits; rewrite (reached_stops _ _ later bad Hn);
               reflexivity).
  pose proof (after_summary analyzeByTimeframeOn oracle i1 r1 s) as (_ & Hp1 & _ & Hq1).
  pose proof (after_summary analyzeByTimeframeOn oracle i2 r2 s) as (_ & Hp2 & _ & Hq2).
  rewrite <- E1 in Hp1, Hq1. rewrite <- E2 in Hp2, Hq2.
  fold s2 in Hp2, Hq2.
  change (stateAfter analyzeByTimeframeOn oracle (earlier ++ bad :: later) s) with s1
    in Hp1, Hq1.
  split; [|split].
  - destruct (analyzeAllData_run analyzeByTimeframeOn oracle i1 r1 s)
      as (? & ? & ? & ? & ? & ? & ? & s' & _ & _ & _ & _ & _ & _ & _ & _ & Hrun).
    unfold run. rewrite E1, Hrun. eexists. split; reflexivity.
  - intros m. rewrite Hp1, Hp2, Hnh. reflexivity.
  - intros q. destruct (Hq1 q) as (-> & -> & ->). destruct (Hq2 q) as (-> & -> & ->).
    rewrite Hkh. repeat split.
Qed.

(** X27.  A record whose [query], lower-cased, names a member of
    [Object.prototype] ("constructor", say) that is no keyword yet stops
    the by-keyword pass as well: the call of [analyzeAllData] still
    reports success, and the mentions, sentiment and related keywords of
    every keyword come out as if the records after that one were not in
    the snapshot, while the by-niche pass counts them all. *)
Theorem query_naming_an_inherited_member_stops_the_keyword_pass
    (earlier later : list StoredRecord) (bad : StoredRecord)
    (fields : list (string * json)) (results : json) (query : string) (s : AState) :
  r_data bad = Some (JObj fields) ->
  lookupField "results" fields = Some results -> truthy (Some results) = true ->
  lookupField "query" fields = Some (JStr query) -> query <> EmptyString ->
  inherited (str (toLowerCase (chars query))) = true ->
  keywords (trendData (ensureInitialized s)) !! str (toLowerCase (chars query)) = None ->
  let run := analyzeAllData analyzeByTimeframeOn oracle (earlier ++ bad :: later) s in
  let s1 := snd run in
  let s2 := stateAfter analyzeByTimeframeOn oracle (earlier ++ [bad]) s in
  (exists result, fst run = Ret result /\ success (report result) = true) /\
  (forall q,
     mentionsOf s1 q = mentionsOf s2 q /\
     sentimentOf s1 q = sentimentOf s2 q /\
     relatedOf s1 q = relatedOf s2 q) /\
  (forall m,
     popularityOf s1 m
     = popularityOf (ensureInitialized s) m
       + Z.of_nat (length (nicheHits m (earlier ++ bad :: later)))) /\
  nicheHandling bad = Handled (query, results).
Proof.
  intros Hd Hr Htr Hq Hne Hin Hnone run s1 s2.
  set (held := keywords (trendData (ensureInitialized s))) in *.
  assert (keywordHandling held bad = Fails) as Hk.
  { unfold keywordHandling. rewrite Hd, Hr, Hq, Htr. cbn [truthy andb].
    destruct (String.eqb_spec query EmptyString) as [|_]; [contradiction|]. cbn [negb].
    cbv zeta. rewrite Hin, Hnone.
    rewrite bool_decide_eq_false_2 by (intros [? ?]; discriminate). reflexivity. }
  assert (exists item rest, earlier ++ bad :: later = item :: rest) as (i1 & r1 & E1)
    by (destruct earlier; cbn [app]; eauto).
  assert (exists item rest, earlier ++ [bad] = item :: rest) as (i2 & r2 & E2)
    by (destruct earlier; cbn [app]; eauto).
  assert (forall q,
             keywordHits held q (earlier ++ bad :: later)
             = keywordHits held q (earlier ++ [bad]))
    as Hkh by (intros q; unfold keywordHits;
               rewrite (reached_stops _ _ later bad Hk); reflexivity).
  pose proof (after_summary analyzeByTimeframeOn oracle i1 r1 s) as (_ & Hp1 & _ & Hq1).
  pose proof (after_summary analyzeByTimeframeOn oracle i2 r2 s) as (_ & _ & _ & Hq2).
  rewrite <- E1 in Hp1, Hq1. rewrite <- E2 in Hq2.
  fold s2 in Hq2. fold held in Hq1, Hq2.
  change (stateAfter analyzeByTimeframeOn oracle (earlier ++ bad :: later) s) with s1
    in Hp1, Hq1.
  split; [|split; [|split]].
  - destruct (analyzeAllData_run analyzeByTimeframeOn oracle i1 r1 s)
      as (? & ? & ? & ? & ? & ? & ? & s' & _ & _ & _ & _ & _ & _ & _ & _ & Hrun).
    unfold run. rewrite E1, Hrun. eexists. split; reflexivity.
  - intros q. destruct (Hq1 q) as (-> & -> & ->). destruct (Hq2 q) as (-> & -> & ->).
    rewrite Hkh. repeat split.
  - exact Hp1.
  - unfold nicheHandling. rewrite Hd, Hr, Htr, Hq. unfold orElse. cbn [truthy].
    destruct (String.eqb_spec query EmptyString) as [|_]; [contradiction|]. reflexivity.
Qed.

End AbortFacts.

Lemma unreadable_query_hides_the_later_records_witness :
  (forall q, JS.JNum 2025 <> JS.JStr q) /\
  Reading.mentionsOf
    (Sample.trendsAfter [Sample.numberedRecord; Sample.aiRecord] Sample.trendService) "ai"
  = Reading.mentionsOf (Sample.trendsAfter [Sample.numberedRecord] Sample.trendService) "ai".
Proof.
  assert (forall q, JS.JNum 2025 <> JS.JStr q) as Hns by (intros q; discriminate).
  split; [exact Hns|].
  eapply (unreadable_query_hides_the_later_records Sample.analyzeByTimeframeOn Sample.oracle
            [] [Sample.aiRecord] Sample.numberedRecord _ _ (JS.JNum 2025) Sample.trendService).
  - reflexivity.
  - reflexivity.
  - reflexivity.
  - reflexivity.
  - reflexivity.
  - exact Hns.
Defined.

Lemma query_naming_an_inherited_member_stops_the_keyword_pass_witness :
  JS.inherited "constructor" = true /\
  Reading.mentionsOf
    (Sample.trendsAfter [Sample.constructorRecord; Sample.aiRecord] Sample.trendService) "ai"
  = Reading.mentionsOf (Sample.trendsAfter [Sample.constructorRecord] Sample.trendService) "ai" /\
  Reading.popularityOf
    (Sample.trendsAfter [Sample.constructorRecord; Sample.aiRecord] Sample.trendService)
    "AI & Automation Tools" = 2.
Proof.
  split; [reflexivity|].
  destruct (query_naming_an_inherited_member_stops_the_keyword_pass
              Sample.analyzeByTimeframeOn Sample.oracle
              [] [Sample.aiRecord] Sample.constructorRecord _ _ "Constructor"
              Sample.trendService eq_refl eq_refl eq_refl eq_refl)
    as (_ & Hq & _).
  - discriminate.
  - reflexivity.
  - reflexivity.
  - split; [apply Hq|]. vm_compute. reflexivity.
Defined.

(** ** What the trend engine saves *)

Section SavingFacts.
Import JS Eff Trend Reading.
Context {Timeframes : Type}.
Variable analyzeByTimeframeOn : list StoredRecord -> Timeframes -> Report * Timeframes.
Variable oracle : Oracle.

Abbreviation VState := (@Trend.State Timeframes).

Lemma analyzeAllData_saved (item : StoredRecord) (rest : list StoredRecord) (s : VState) :
  available (localStorage s) = true ->
  exists s',
    analyzeAllData analyzeByTimeframeOn oracle (item :: rest) s
    = (Ret {| report := {| success := true;
                           message := "Successfully analyzed all data for trends" |};
              trends := Some (trendData s') |}, s') /\
    localStorage s' = {| available := true; slot := Saved (trendData s') |}.
Proof.
  intros Hav. set (data := item :: rest).
  destruct (analyzeByNiche_effect oracle data (ensureInitialized s))
    as (r1 & s1 & H1 & _ & Hs1 & _).
  destruct (analyzeByKeyword_effect oracle data s1) as (r2 & s2 & H2 & _ & Hs2 & _).
  destruct (analyzeByProduct_effect oracle data s2) as (r3 & s3 & H3 & _ & Hs3 & _).
  destruct (analyzeByTimeframeOn data (timeframes (trendData s3))) as [r4 t4] eqn:H4.
  assert (available (localStorage s3) = true) as Hav3.
  { destruct Hs1 as (_ & _ & _ & _ & b1). destruct Hs2 as (_ & _ & _ & _ & b2).
    destruct Hs3 as (_ & _ & _ & _ & b3).
    destruct (ensureInitialized_storage s) as [b0 _]. congruence. }
  unfold analyzeAllData, tryCatch, bind, get.
  assert ((if initialized s then ret true else initialize) s
          = (Ret (match fst ((if initialized s then ret true else initialize) s) with
                  | Ret b => b | Throw _ => true end), ensureInitialized s)) as ->.
  { unfold ensureInitialized. destruct (initialized s); [reflexivity|].
    destruct (initialize_returns s) as [b Hb]. rewrite Hb. reflexivity. }
  fold data. subst data. cbv beta iota. rewrite H1, H2, H3.
  unfold analyzeByTimeframe. rewrite H4. unfold saveToStorage, setTimeframes, setTrendData.
  cbn [localStorage trendData initialized tick niches keywords products timeframes].
  rewrite Hav3. eexists. split; reflexivity.
Qed.

(** X18.  With browser storage, what a successful [analyzeAllData] returns
    as trends is what it has saved: a service constructed afterwards over
    the same storage holds, once initialised, exactly the trend data that
    was returned. *)
Theorem returned_trends_are_what_the_next_session_loads
    (item : StoredRecord) (rest : list StoredRecord) (s : VState) (t0 : Timeframes) :
  available (localStorage s) = true ->
  let run := analyzeAllData analyzeByTimeframeOn oracle (item :: rest) s in
  exists result next,
    fst run = Ret result /\
    success (report result) = true /\
    initialize (fresh t0 (localStorage (snd run))) = (Ret true, next) /\
    initialized next = true /\
    trends result = Some (trendData next).
Proof.
  intros Hav run. destruct (analyzeAllData_saved item rest s Hav) as (s' & Hrun & Hsaved).
  unfold run. rewrite Hrun. cbn [fst snd]. eexists _, _. split; [reflexivity|].
  split; [reflexivity|]. unfold initialize, fresh. cbn [localStorage]. rewrite Hsaved.
  cbn [available slot]. split; [reflexivity|]. split; reflexivity.
Qed.

End SavingFacts.

Lemma returned_trends_are_what_the_next_session_loads_witness :
  available (Trend.localStorage Sample.trendService) = true /\
  exists result next,
    fst (Trend.analyzeAllData Sample.analyzeByTimeframeOn Sample.oracle [Sample.aiRecord]
           Sample.trendService) = Eff.Ret result /\
    Trend.trends result = Some (Trend.trendData next).
Proof.
  split; [reflexivity|].
  destruct (returned_trends_are_what_the_next_session_loads Sample.analyzeByTimeframeOn
              Sample.oracle Sample.aiRecord [] Sample.trendService tt)
    as (result & next & Hrun & _ & _ & _ & Htrends); [reflexivity|].
  exists result, next. split; [exact Hrun|exact Htrends].
Defined.

(** ** The tracked competitors *)

Section TrackingFacts.
Import JS Eff Competitor Reading StoreReading.
Context {Engagement Insights : Type}.
Variable calculateEngagement : json -> Engagement.
Variable stringToNumber : string -> option Q.
Variable oracle : Oracle.

Abbreviation KState := (@Competitor.State Engagement Insights).

Lemma saveToStorageC_effect (s : KState) :
  Competitor.saveToStorage s
  = (Ret true,
     if available (localStorage s)
     then {| competitorData := competitorData s; initialized := initialized s;
             tick := tick s;
             localStorage := {| available := true; slot := Saved (competitorData s) |} |}
     else s).
Proof. unfold Competitor.saveToStorage. destruct (available (localStorage s)); reflexivity. Qed.

(** X19.  [addCompetitor] returns the candidate's id when it has a
    non-empty one and an id it makes up otherwise, never [null].  The
    profile then found under that id has the candidate's name, url,
    platform, niche and description, the candidate's metrics or none, no
    content, no strategies, and not the candidate's [platformId]; the
    other profiles are as they were, and the competitor data has been
    written to the browser's storage when there is one. *)
Theorem added_competitor_is_found (c : Candidate) (s : KState) :
  let newId := match cand_id c with
               | Some i => if String.eqb i EmptyString then generatedId oracle (tick s) else i
               | None => generatedId oracle (tick s)
               end in
  exists s' p,
    addCompetitor oracle c s = (Ret (Some newId), s') /\
    getCompetitor newId s' = Some p /\
    id p = newId /\ name p = cand_name c /\ url p = cand_url c /\
    platform p = cand_platform c /\ niche p = cand_niche c /\
    description p = cand_description c /\
    metrics p = default [] (cand_metrics c) /\
    content p = [] /\ strategies p = [] /\ platformId p = None /\
    (forall other, other <> newId -> getCompetitor other s' = getCompetitor other s) /\
    (available (localStorage s) = true ->
     slot (localStorage s') = Saved (competitorData s')).
Proof.
  intros newId.
  assert (exists s1,
             (match cand_id c with
              | Some i =>
                  if String.eqb i EmptyString
                  then bind (readOracle (nowMs oracle))
                         (fun ms => bind (readOracle (random oracle))
                            (fun r => ret ("competitor_" ++ str (numberToString ms) ++ "_"
                                             ++ base36 oracle r)%string))
                  else ret i
              | None =>
                  bind (readOracle (nowMs oracle))
                    (fun ms => bind (readOracle (random oracle))
                       (fun r => ret ("competitor_" ++ str (numberToString ms) ++ "_"
                                        ++ base36 oracle r)%string))
              end) s = (Ret newId, s1) /\
             competitorData s1 = competitorData s /\
             localStorage s1 = localStorage s) as (s1 & Hid & Hd1 & Hl1).
  { unfold newId, generatedId, bind, readOracle, ret.
    destruct (cand_id c) as [i|]; [destruct (String.eqb i EmptyString)|];
      eexists; repeat split. }
  unfold addCompetitor, tryCatch. unfold bind at 1. rewrite Hid.
  unfold bind, newDate, readOracle, modify, ret. rewrite saveToStorageC_effect.
  cbn [competitorData competitors insights localStorage initialized tick setCompetitors].
  rewrite Hd1, Hl1.
  destruct (available (localStorage s)) eqn:Hav;
    eexists _, _; (split; [reflexivity|]); unfold getCompetitor;
    cbn [competitorData competitors insights localStorage initialized tick slot];
    (split; [apply get_set_eq|]);
    cbn [id name url platform niche description metrics content strategies platformId];
    repeat (split; [reflexivity|]);
    (split; [intros other Hne; apply get_set_ne; congruence|]);
    intros H; (reflexivity || discriminate).
Qed.

(** X20.  [updateCompetitor] on an id that is tracked returns [true]: the
    profile under that id takes every field the update names, its id and
    the date it was added among them, keeps the others, and is stamped
    with the time of the call whatever the update says.  The other
    profiles and the order of all are as they were, and the data has been
    written to the browser's storage when there is one. *)
Theorem updateCompetitor_merges_into_the_tracked_profile
    (key : string) (updates : Updates) (p : CompetitorProfile) (s : KState) :
  getCompetitor key s = Some p ->
  exists s' p',
    updateCompetitor oracle key updates s = (Ret true, s') /\
    getCompetitor key s' = Some p' /\
    id p' = default (id p) (u_id updates) /\
    added p' = default (added p) (u_added updates) /\
    lastUpdated p' = isoTime oracle (tick s) /\
    name p' = default (name p) (u_name updates) /\
    url p' = default (url p) (u_url updates) /\
    platform p' = default (platform p) (u_platform updates) /\
    platformId p' = default (platformId p) (u_platformId updates) /\
    niche p' = default (niche p) (u_niche updates) /\
    description p' = default (description p) (u_description updates) /\
    metrics p' = default (metrics p) (u_metrics updates) /\
    content p' = default (content p) (u_content updates) /\
    strategies p' = default (strategies p) (u_strategies updates) /\
    (forall other, other <> key -> getCompetitor other s' = getCompetitor other s) /\
    Obj.keys (competitors (competitorData s')) = Obj.keys (competitors (competitorData s)) /\
    (available (localStorage s) = true ->
     slot (localStorage s') = Saved (competitorData s')).
Proof.
  unfold getCompetitor. intros Hget.
  unfold updateCompetitor, updateCompetitor_try, tryCatch. unfold bind at 1, get at 1.
  rewrite Hget. unfold bind, newDate, readOracle, modify, ret.
  rewrite saveToStorageC_effect.
  cbn [competitorData competitors insights localStorage initialized tick setCompetitors].
  destruct (available (localStorage s)) eqn:Hav;
    eexists _, _; (split; [reflexivity|]);
    cbn [competitorData competitors insights localStorage initialized tick slot];
    (split; [apply get_set_eq|]); unfold applyUpdates;
    cbn [id name url platform niche description metrics content strategies platformId
         added lastUpdated];
    repeat (split; [reflexivity|]);
    (split; [intros other Hne; apply get_set_ne; congruence|]);
    (split; [apply keys_set_present; rewrite Hget; eauto|]);
    intros H; (reflexivity || discriminate).
Qed.

(** X21.  [removeCompetitor] on an id that is tracked returns [true]: no
    profile is found under that id any more, there is one profile less,
    the other profiles are as they were, and the data has been written to
    the browser's storage when there is one. *)
Theorem removeCompetitor_forgets_the_tracked_profile (key : string) (s : KState) :
  distinct (Obj.keys (competitors (competitorData s))) = true ->
  is_Some (getCompetitor key s) ->
  exists s',
    removeCompetitor key s = (Ret true, s') /\
    getCompetitor key s' = None /\
    S (length (getAllCompetitors s')) = length (getAllCompetitors s) /\
    (forall other, other <> key -> getCompetitor other s' = getCompetitor other s) /\
    (available (localStorage s) = true ->
     slot (localStorage s') = Saved (competitorData s')).
Proof.
  unfold getCompetitor, getAllCompetitors. intros Hd [p Hget].
  unfold removeCompetitor, removeCompetitor_try, tryCatch. unfold bind at 1, get at 1.
  rewrite Hget. unfold bind, modify, ret. rewrite saveToStorageC_effect.
  cbn [competitorData competitors insights localStorage initialized tick setCompetitors].
  destruct (available (localStorage s)) eqn:Hav;
    eexists; (split; [reflexivity|]);
    cbn [competitorData competitors insights localStorage initialized tick slot];
    (split; [apply get_remove_eq, Hd|]);
    (split; [unfold Obj.values; rewrite !length_map; apply remove_length;
             rewrite Hget; eauto|]);
    (split; [intros other Hne; apply get_remove_ne; congruence|]);
    intros H; (reflexivity || discriminate).
Qed.

End TrackingFacts.

Lemma updateCompetitor_merges_into_the_tracked_profile_witness :
  exists p s',
    Competitor.getCompetitor "competitor_1735689600000_i"
      (Sample.competitorsAfter [Sample.aiRecord] Sample.competitorService) = Some p /\
    Competitor.updateCompetitor Sample.oracle "competitor_1735689600000_i"
      Competitor.noUpdates
      (Sample.competitorsAfter [Sample.aiRecord] Sample.competitorService)
    = (Eff.Ret true, s').
Proof.
  assert (exists p,
             Competitor.getCompetitor "competitor_1735689600000_i"
               (Sample.competitorsAfter [Sample.aiRecord] Sample.competitorService) = Some p)
    as [p Hp] by (vm_compute; eexists; reflexivity).
  destruct (updateCompetitor_merges_into_the_tracked_profile Sample.oracle
              "competitor_1735689600000_i" Competitor.noUpdates p
              (Sample.competitorsAfter [Sample.aiRecord] Sample.competitorService) Hp)
    as (s' & p' & Hrun & _).
  exists p, s'. split; [exact Hp|exact Hrun].
Defined.

Lemma removeCompetitor_forgets_the_tracked_profile_witness :
  StoreReading.distinct
    (Obj.keys (Competitor.competitors
                 (Competitor.competitorData
                    (Sample.competitorsAfter [Sample.aiRecord] Sample.competitorService))))
  = true /\
  exists s',
    Competitor.removeCompetitor "competitor_1735689600000_i"
      (Sample.competitorsAfter [Sample.aiRecord] Sample.competitorService)
    = (Eff.Ret true, s') /\
    Competitor.getAllCompetitors s' = [].
Proof.
  split; [vm_compute; reflexivity|].
  destruct (removeCompetitor_forgets_the_tracked_profile "competitor_1735689600000_i"
              (Sample.competitorsAfter [Sample.aiRecord] Sample.competitorService))
    as (s' & Hrun & _ & Hlen & _).
  - vm_compute. reflexivity.
  - vm_compute. eexists. reflexivity.
  - exists s'. split; [exact Hrun|].
    destruct (Competitor.getAllCompetitors s') as [|x rest]; [reflexivity|].
    vm_compute in Hlen. discriminate.
Defined.

(** ** Who is taken for a competitor *)

Section ThresholdFacts.
Import JS Eff Competitor Reading CompetitorReading.
Context {Engagement Insights : Type}.
Variable calculateEngagement : json -> Engagement.
Variable stringToNumber : string -> option Q.
Variable oracle : Oracle.
Variable extractGenericCompetitors :
  json -> string -> @State Engagement Insights -> @State Engagement Insights.

Abbreviation HState := (@Competitor.State Engagement Insights).

Lemma memberC_present (item : json) (k : string) (s : HState) :
  item <> JNull -> Competitor.member item k s = (Ret (prop item k), s).
Proof. destruct item; [contradiction|reflexivity..]. Qed.

Lemma forEach_unchanged {X} (f : X -> M HState unit) (xs : list X) (s : HState) :
  (forall x, In x xs -> f x s = (Ret tt, s)) -> forEach f xs s = (Ret tt, s).
Proof.
  induction xs as [|x xs IH]; intros H; [reflexivity|].
  cbn [forEach]. unfold bind. rewrite (H x (or_introl eq_refl)).
  apply IH. intros y Hy. apply H. right. exact Hy.
Qed.

Lemma twitterItem_small (tweet : json) (s : HState) :
  smallTweet tweet ->
  twitterItem calculateEngagement stringToNumber oracle tweet s = (Ret tt, s).
Proof.
  intros [Hnn Hsmall]. unfold twitterItem, bind. rewrite (memberC_present tweet "user" s Hnn).
  destruct Hsmall as [Hno|(n & Hn & Hlt)].
  - rewrite Hno. reflexivity.
  - destruct (truthy (prop tweet "user")); [|reflexivity]. cbn [negb].
    rewrite Hn, lessThan_number. apply Z.ltb_lt in Hlt. rewrite Hlt. reflexivity.
Qed.

Lemma tiktokItem_small (video : json) (s : HState) :
  smallVideo video ->
  tiktokItem calculateEngagement stringToNumber oracle video s = (Ret tt, s).
Proof.
  intros [Hnn Hsmall]. unfold tiktokItem, bind. rewrite (memberC_present video "author" s Hnn).
  destruct Hsmall as [Hno|(n & Hn & Hlt)].
  - rewrite Hno. reflexivity.
  - destruct (truthy (prop video "author")); [|reflexivity]. cbn [negb].
    rewrite Hn, lessThan_number. apply Z.ltb_lt in Hlt. rewrite Hlt. reflexivity.
Qed.

Lemma pinterestItem_small (pin : json) (s : HState) :
  smallPin pin ->
  pinterestItem stringToNumber oracle pin s = (Ret tt, s).
Proof.
  intros [Hnn Hsmall]. unfold pinterestItem, bind.
  rewrite (memberC_present pin "metrics" s Hnn).
  destruct Hsmall as [Hno|[Hno|(n & Hn & Hlt)]].
  - rewrite Hno. reflexivity.
  - rewrite Hno. rewrite orb_true_r. reflexivity.
  - rewrite Hn, lessThan_number. apply Z.ltb_lt in Hlt. rewrite Hlt, orb_true_r. reflexivity.
Qed.

(** X22.  The extractors take no one below their thresholds for a
    competitor: over tweets whose author is missing or has fewer than
    1000 followers, over videos whose author is missing or has fewer than
    5000 followers, and over pins with no metrics, no saves or fewer than
    100 saves, each returns [true] and leaves the service as it was. *)
Theorem accounts_below_the_thresholds_are_not_tracked (items : list json) (s : HState) :
  (Forall smallTweet items ->
   extractTwitterCompetitors calculateEngagement stringToNumber oracle (JArr items) s
   = (Ret (Some true), s)) /\
  (Forall smallVideo items ->
   extractTikTokCompetitors calculateEngagement stringToNumber oracle (JArr items) s
   = (Ret (Some true), s)) /\
  (Forall smallPin items ->
   extractPinterestCompetitors stringToNumber oracle (JArr items) s
   = (Ret (Some true), s)).
Proof.
  split; [|split]; intros Hsmall; rewrite List.Forall_forall in Hsmall.
  - unfold extractTwitterCompetitors, tryCatch, bind.
    rewrite forEach_unchanged; [reflexivity|].
    intros tweet Hin. apply twitterItem_small, Hsmall, Hin.
  - unfold extractTikTokCompetitors, tryCatch, bind.
    rewrite forEach_unchanged; [reflexivity|].
    intros video Hin. apply tiktokItem_small, Hsmall, Hin.
  - unfold extractPinterestCompetitors, tryCatch, bind.
    rewrite forEach_unchanged; [reflexivity|].
    intros pin Hin. apply pinterestItem_small, Hsmall, Hin.
Qed.

(** X23.  [identifyCompetitors] leaves the service as it was, and returns
    [true], over records none of which is both a social-media record (by
    its category, or by its source being twitter, pinterest or tiktok)
    and a record with results. *)
Theorem only_social_media_records_with_results_are_read
    (data : list StoredRecord) (s : HState) :
  (forall item, In item data -> isSocialMedia item = false \/ noResults item = true) ->
  identifyCompetitors calculateEngagement stringToNumber oracle extractGenericCompetitors
    data s = (Ret true, s).
Proof.
  intros Hdata. unfold identifyCompetitors, tryCatch, bind.
  rewrite forEach_unchanged; [reflexivity|].
  intros item Hin. apply filter_In in Hin as [Hin Hsocial].
  destruct (Hdata item Hin) as [Hno|Hno]; [congruence|].
  unfold identifyItem. unfold noResults in Hno.
  destruct (r_data item) as [d|]; [|reflexivity].
  destruct (negb (truthy (Some d))); [reflexivity|]. cbn [orb] in Hno.
  destruct (prop d "results") as [results|]; [|reflexivity].
  rewrite Hno. reflexivity.
Qed.

End ThresholdFacts.

Lemma accounts_below_the_thresholds_are_not_tracked_witness :
  Forall CompetitorReading.smallTweet [Sample.tweetBy "9" "Newcomer" 999 "My first post"] /\
  Competitor.extractTwitterCompetitors Sample.calculateEngagement Sample.stringToNumber
    Sample.oracle (JS.JArr [Sample.tweetBy "9" "Newcomer" 999 "My first post"])
    Sample.competitorService
  = (Eff.Ret (Some true), Sample.competitorService).
Proof.
  assert (Forall CompetitorReading.smallTweet
            [Sample.tweetBy "9" "Newcomer" 999 "My first post"]) as Hsmall.
  { constructor; [|constructor]. split; [discriminate|]. right. exists 999.
    split; [reflexivity|lia]. }
  split; [exact Hsmall|].
  exact (proj1 (accounts_below_the_thresholds_are_not_tracked Sample.calculateEngagement
                  Sample.stringToNumber Sample.oracle
                  [Sample.tweetBy "9" "Newcomer" 999 "My first post"]
                  Sample.competitorService) Hsmall).
Defined.

Lemma only_social_media_records_with_results_are_read_witness :
  Competitor.identifyCompetitors Sample.calculateEngagement Sample.stringToNumber
    Sample.oracle Sample.extractGenericCompetitors
    [StoreReading.recordOf "websites" "amazon" "2025-01-01T00:00:00.000Z"
       (r_data Sample.aiRecord)]
    Sample.competitorService
  = (Eff.Ret true, Sample.competitorService).
Proof.
  apply only_social_media_records_with_results_are_read.
  intros item [<-|[]]. left. reflexivity.
Defined.

(** ** What the tracking calls keep *)

Section PersistenceFacts.
Import JS Eff Competitor Reading StoreReading CompetitorReading.
Context {Engagement Insights : Type}.
Variable oracle : Oracle.

Abbreviation QState := (@Competitor.State Engagement Insights).

Lemma addCompetitor_state (c : Candidate) (s : QState) :
  available (localStorage s) = true ->
  exists key p now,
    id p = key /\
    snd (addCompetitor oracle c s)
    = {| competitorData :=
           {| competitors := Obj.set (competitors (competitorData s)) key p;
              insights := insights (competitorData s) |};
         initialized := initialized s; tick := now;
         localStorage :=
           {| available := true;
              slot := Saved {| competitors := Obj.set (competitors (competitorData s)) key p;
                               insights := insights (competitorData s) |} |} |}.
Proof.
  intros Hav. unfold addCompetitor, tryCatch, bind, newDate, readOracle, modify, ret.
  destruct (cand_id c) as [i|]; [destruct (String.eqb i EmptyString)|];
    rewrite saveToStorageC_effect;
    cbn [competitorData competitors insights localStorage initialized tick setCompetitors snd];
    rewrite Hav; cbn [snd competitorData];
    eexists _, _, _; (split; [|reflexivity]); reflexivity.
Qed.

Lemma updateCompetitor_state (key : string) (updates : Updates) (s : QState) :
  available (localStorage s) = true ->
  snd (updateCompetitor oracle key updates s) = s \/
  exists existing p now,
    getCompetitor key s = Some existing /\ id p = default (id existing) (u_id updates) /\
    snd (updateCompetitor oracle key updates s)
    = {| competitorData :=
           {| competitors := Obj.set (competitors (competitorData s)) key p;
              insights := insights (competitorData s) |};
         initialized := initialized s; tick := now;
         localStorage :=
           {| available := true;
              slot := Saved {| competitors := Obj.set (competitors (competitorData s)) key p;
                               insights := insights (competitorData s) |} |} |}.
Proof.
  intros Hav. unfold getCompetitor.
  destruct (Obj.get (competitors (competitorData s)) key) as [existing|] eqn:Hget.
  - right. unfold updateCompetitor, updateCompetitor_try, tryCatch.
    unfold bind at 1, get at 1. rewrite Hget.
    unfold bind, newDate, readOracle, modify, ret. rewrite saveToStorageC_effect.
    cbn [competitorData competitors insights localStorage initialized tick setCompetitors snd].
    rewrite Hav. cbn [snd].
    eexists existing, _, _. split; [reflexivity|]. split; [|reflexivity]. reflexivity.
  - left. unfold updateCompetitor, updateCompetitor_try, tryCatch.
    unfold bind at 1, get at 1. rewrite Hget. reflexivity.
Qed.

Lemma removeCompetitor_state (key : string) (s : QState) :
  available (localStorage s) = true ->
  snd (removeCompetitor key s) = s \/
  snd (removeCompetitor key s)
  = {| competitorData :=
         {| competitors := Obj.remove (competitors (competitorData s)) key;
            insights := insights (competitorData s) |};
       initialized := initialized s; tick := tick s;
       localStorage :=
         {| available := true;
            slot := Saved {| competitors := Obj.remove (competitors (competitorData s)) key;
                             insights := insights (competitorData s) |} |} |}.
Proof.
  intros Hav.
  destruct (Obj.get (competitors (competitorData s)) key) as [existing|] eqn:Hget.
  - right. unfold removeCompetitor, removeCompetitor_try, tryCatch.
    unfold bind at 1, get at 1. rewrite Hget.
    unfold bind, modify, ret. rewrite saveToStorageC_effect.
    cbn [competitorData competitors insights localStorage initialized tick setCompetitors snd].
    rewrite Hav. reflexivity.
  - left. unfold removeCompetitor, removeCompetitor_try, tryCatch.
    unfold bind at 1, get at 1. rewrite Hget. reflexivity.
Qed.

Lemma kept_tracking (i0 : Insights) (call : Tracking) (s : QState) :
  kept i0 s ->
  kept i0 (stateAfterTracking oracle call s) /\
  (keepsIds call = true -> ownIds s -> ownIds (stateAfterTracking oracle call s)).
Proof.
  intros (Hav & Hd & Hslot). destruct call as [c|key updates|key]; cbn [stateAfterTracking].
  - destruct (addCompetitor_state c s Hav) as (key & p & now & Hp & ->).
    unfold kept, ownIds, getCompetitor.
    cbn [competitorData competitors localStorage available slot].
    split; [split; [reflexivity|split; [apply distinct_set, Hd|left; reflexivity]]|].
    intros _ Hid k' p'. rewrite get_set. destruct (String.eqb_spec key k') as [<-|Hne].
    + intros [= <-]. exact Hp.
    + apply Hid.
  - destruct (updateCompetitor_state key updates s Hav)
      as [->|(existing & p & now & Hget & Hp & ->)];
      [split; [repeat split; assumption|intros _ Hid; exact Hid]|].
    unfold kept, ownIds, getCompetitor.
    cbn [competitorData competitors localStorage available slot].
    split; [split; [reflexivity|split; [apply distinct_set, Hd|left; reflexivity]]|].
    cbn [keepsIds]. intros Hkeeps Hid k' p'. rewrite get_set.
    destruct (String.eqb_spec key k') as [<-|Hne].
    + intros [= <-]. rewrite Hp. destruct (u_id updates); [discriminate|].
      apply Hid, Hget.
    + apply Hid.
  - destruct (removeCompetitor_state key s Hav) as [->| ->];
      [split; [repeat split; assumption|intros _ Hid; exact Hid]|].
    unfold kept, ownIds, getCompetitor.
    cbn [competitorData competitors localStorage available slot].
    split; [split; [reflexivity|split; [apply distinct_remove, Hd|left; reflexivity]]|].
    intros _ Hid k' p'. destruct (String.eqb_spec key k') as [<-|Hne].
    + rewrite get_remove_eq by exact Hd. discriminate.
    + rewrite get_remove_ne by exact Hne. apply Hid.
Qed.

Lemma kept_trackings (i0 : Insights) (calls : list Tracking) (s : QState) :
  kept i0 s ->
  kept i0 (stateAfterTrackings oracle calls s) /\
  (forallb keepsIds calls = true -> ownIds s -> ownIds (stateAfterTrackings oracle calls s)).
Proof.
  revert s. induction calls as [|call calls IH]; intros s Hs; [split; [exact Hs|auto]|].
  cbn [stateAfterTrackings fold_left forallb].
  destruct (kept_tracking i0 call s Hs) as [Hkept Hown].
  destruct (IH _ Hkept) as [Hkept' Hown'].
  split; [exact Hkept'|].
  intros Hcalls Hid. apply andb_prop in Hcalls as [Hcall Hcalls].
  apply Hown'; [exact Hcalls|]. apply Hown; assumption.
Qed.

(** X25.  Whatever competitors are added, updated and removed by hand on
    a service constructed over a browser storage with nothing saved, no
    id is tracked twice, and a service constructed anew over the same
    storage loads, when it initializes, the competitor data the first
    one holds.  Every profile sits under its own id as long as no update
    names an id. *)
Theorem tracked_competitors_survive_a_reload
    (i0 : Insights) (calls : list (@Tracking Engagement)) :
  let s := stateAfterTrackings oracle calls
             (fresh i0 {| available := true; slot := NoItem |}) in
  distinct (Obj.keys (competitors (competitorData s))) = true /\
  (exists reloaded,
     initialize (fresh i0 (localStorage s)) = (Ret true, reloaded) /\
     competitorData reloaded = competitorData s) /\
  (forallb keepsIds calls = true ->
   forall key p, getCompetitor key s = Some p -> id p = key).
Proof.
  intros s.
  destruct (kept_trackings i0 calls (fresh i0 {| available := true; slot := NoItem |}))
    as [(Hav & Hd & Hslot) Hown].
  { split; [reflexivity|]. split; [reflexivity|]. right. split; reflexivity. }
  fold s in Hav, Hd, Hslot, Hown.
  split; [exact Hd|]. split.
  - unfold initialize, fresh. cbn [localStorage]. rewrite Hav.
    destruct Hslot as [-> |[-> ->]]; eexists; split; reflexivity.
  - intros Hcalls. apply Hown; [exact Hcalls|]. intros key p [=].
Qed.

End PersistenceFacts.

(** ** The allocation of one niche *)

Section AllocationFacts.
Import Strategy Reading BudgetReading.

Lemma fold_set_get {V} (f : PrioritizedNiche -> V) (l : list PrioritizedNiche) (niche : string) :
  forall acc : Obj.t V,
    Obj.get (fold_left (fun o n => Obj.set o (pn_niche n) (f n)) l acc) niche
    = match lastFor niche l with
      | Some n => Some (f n)
      | None => Obj.get acc niche
      end.
Proof.
  unfold lastFor. induction l as [|n rest IH] using rev_ind; intros acc; [reflexivity|].
  rewrite fold_left_app, rev_app_distr. cbn [fold_left rev app List.find].
  rewrite get_set. rewrite (String.eqb_sym (pn_niche n) niche).
  destruct (String.eqb niche (pn_niche n)); [reflexivity|]. apply IH.
Qed.

Lemma lastFor_In (niche : string) (l : list PrioritizedNiche) (n : PrioritizedNiche) :
  lastFor niche l = Some n -> In n l /\ pn_niche n = niche.
Proof.
  unfold lastFor. intros H. apply List.find_some in H as [Hin Heq].
  split; [apply in_rev, Hin|apply String.eqb_eq, Heq].
Qed.

Lemma mathRound_mono (x y : Q) : (x <= y)%Q -> mathRound x <= mathRound y.
Proof. intros H. unfold mathRound. apply Qfloor_resp_le. lra. Qed.

Lemma roundToCents_mono (x y : Q) : (x <= y)%Q -> (roundToCents x <= roundToCents y)%Q.
Proof.
  intros H. unfold roundToCents, Qdiv. apply Qmult_le_compat_r; [|discriminate].
  rewrite <- Zle_Qle. apply mathRound_mono. lra.
Qed.

Lemma share_mono (total B : Q) (a b : PrioritizedNiche) :
  (0 < total)%Q -> (0 <= B)%Q -> (priority a <= priority b)%Q ->
  (share total B a <= share total B b)%Q.
Proof.
  intros Ht HB Hab. unfold share, Qdiv.
  apply Qmult_le_compat_r; [|exact HB].
  apply Qmult_le_compat_r; [exact Hab|].
  apply Qlt_le_weak, Qinv_lt_0_compat, Ht.
Qed.

(** X24.  The allocation of a niche is computed from the last entry that
    names it among the prioritized niches: when the total priority is
    positive and the budget is not negative, it is that entry's share of
    the budget within half a cent, and of two niches the one whose last
    entry has the higher priority never gets the smaller allocation.  A
    niche that no entry names has no allocation. *)
Theorem allocation_follows_priority
    (prioritizedNiches : list PrioritizedNiche) (initialBudget : Q)
    (nicheA nicheB : string) (a b : PrioritizedNiche) :
  (0 < totalPriority prioritizedNiches)%Q ->
  (0 <= initialBudget)%Q ->
  lastFor nicheA prioritizedNiches = Some a ->
  lastFor nicheB prioritizedNiches = Some b ->
  (priority a <= priority b)%Q ->
  exists x y,
    Obj.get (allocate prioritizedNiches initialBudget) nicheA = Some (Some x) /\
    Obj.get (allocate prioritizedNiches initialBudget) nicheB = Some (Some y) /\
    (x <= y)%Q /\
    (Qabs (x - priority a / totalPriority prioritizedNiches * initialBudget) <= 1 # 200)%Q /\
    (forall other, lastFor other prioritizedNiches = None ->
                   Obj.get (allocate prioritizedNiches initialBudget) other = None).
Proof.
  intros Ht HB Ha Hb Hab. unfold allocate. cbv zeta.
  assert (Qeq_bool (totalPriority prioritizedNiches) 0 = false) as ->.
  { destruct (Qeq_bool (totalPriority prioritizedNiches) 0) eqn:E; [|reflexivity].
    apply Qeq_bool_iff in E. rewrite E in Ht. discriminate. }
  do 2 eexists.
  split; [rewrite fold_set_get, Ha; reflexivity|].
  split; [rewrite fold_set_get, Hb; reflexivity|].
  split; [apply roundToCents_mono, share_mono; assumption|].
  split; [apply roundToCents_near|].
  intros other Hother. rewrite fold_set_get, Hother. reflexivity.
Qed.

Lemma allocation_follows_priority_witness :
  exists x y,
    Obj.get (Strategy.allocate
               (Sample.evenNiches ++
                [{| Strategy.pn_niche := "DIY & Home Improvement"; Strategy.priority := 5 |}])
               100) "Survival & Emergency Preparedness" = Some (Some x) /\
    Obj.get (Strategy.allocate
               (Sample.evenNiches ++
                [{| Strategy.pn_niche := "DIY & Home Improvement"; Strategy.priority := 5 |}])
               100) "DIY & Home Improvement" = Some (Some y) /\
    (x <= y)%Q.
Proof.
  destruct (allocation_follows_priority
              (Sample.evenNiches ++
               [{| Strategy.pn_niche := "DIY & Home Improvement"; Strategy.priority := 5 |}])
              100 "Survival & Emergency Preparedness" "DIY & Home Improvement"
              {| Strategy.pn_niche := "Survival & Emergency Preparedness";
                 Strategy.priority := 1 |}
              {| Strategy.pn_niche := "DIY & Home Improvement"; Strategy.priority := 5 |})
    as (x & y & Hx & Hy & Hle & _).
  - reflexivity.
  - discriminate.
  - reflexivity.
  - reflexivity.
  - discriminate.
  - exists x, y. repeat split; assumption.
Defined.

End AllocationFacts.
